(** * Jules chat backend: the real-time session layer and its chat service

    A shallow embedding of [src/services/chatService.js],
    [src/services/userService.js], [src/socket/socketHandler.js],
    [src/controllers/chatController.js], [src/middleware/auth.js], the chat
    routes, the authentication controller with [src/utils/authUtils.js],
    [src/utils/AppError.js], [src/utils/errorHandler.js] and the 404 handler
    of [server.js], over the four tables of the schema.  The first part of
    the theorems settles the properties of the membership guard, chat
    creation, room routing, the handshake, message paging, chat search and
    message content that the design document states; the second part proves
    more of what the code itself shows.

    Conventions of the embedding:
    - a JavaScript string is a [string] of code units below 256;
    - a JavaScript number that is used as an identifier, a limit or an
      offset is an integer [Z]: numbers with a fraction or an exponent
      rendering are outside the model;
    - an [async] function is a computation in the monad [M], which threads
      the database and can throw; a handler runs to completion before the
      next input is taken;
    - every statement sent to the database is one round trip, which the
      driver may reject: the database carries the list of round trips that
      are going to fail, so that the catch clauses of the services have
      something to catch;
    - a query is the function of the tables that its SQL text denotes, and
      an ORDER BY is any function that returns its rows sorted by the key;
    - a statement that the server refuses for what it is fails on every
      server, also on one whose round trips all succeed.  Written out are
      the refusals that the values of a client reach through the checks of
      the handlers: a chat id beyond the range of INTEGER, a message content
      with a code unit 0, a chat name that VARCHAR(255) does not take, the
      DISTINCT of the search over columns of type json, and the constraints
      of the tables.  The other values of the statements (the ids of
      users, the usernames, the limits and offsets) are taken to be values
      that the server reads: what it would refuse of them is left to the
      round trips that fail;
    - socket.io, jsonwebtoken, bcrypt, cookie, Express and the driver of the
      database are collaborators: their documented behaviour is written out
      where the code calls them. *)

From Stdlib Require Import ZArith Ascii List Bool Lia.
From Stdlib Require String DecimalString.
From Stdlib Require Import Sorting.Sorted Sorting.Permutation.
From stdpp Require Import base option list gmap sets strings sorting.

Local Open Scope Z_scope.

(** ** JavaScript values and string primitives *)

Module Js.

(** The values an event payload or a request body field can hold.  An
    object or array is kept as the text [String(v)] gives for it. *)
Inductive Value :=
  | Undefined
  | Null
  | Bool (b : bool)
  | Num (n : Z)
  | Str (s : string)
  | Obj (repr : string).

(** [String(n)] for an integer. *)
Definition numToString (n : Z) : string := DecimalString.NilZero.string_of_int (Z.to_int n).

(** ToBoolean. *)
Definition truthy (v : Value) : bool :=
  match v with
  | Undefined | Null => false
  | Bool b => b
  | Num n => negb (n =? 0)%Z
  | Str s => negb (String.eqb s "")
  | Obj _ => true
  end.

(** ToString. *)
Definition toString (v : Value) : string :=
  match v with
  | Undefined => "undefined"
  | Null => "null"
  | Bool true => "true"
  | Bool false => "false"
  | Num n => numToString n
  | Str s => s
  | Obj r => r
  end.

Definition code (c : ascii) : Z := Z.of_N (N_of_ascii c).

(** WhiteSpace and LineTerminator code units below 256: TAB, LF, VT, FF, CR,
    SP and NBSP. *)
Definition isWhiteSpace (c : ascii) : bool :=
  let n := code c in
  ((9 <=? n) && (n <=? 13)) || (n =? 32)%Z || (n =? 160)%Z.

(** [String.prototype.trimStart] and [String.prototype.trimEnd]. *)
Fixpoint trimStart (s : string) : string :=
  match s with
  | EmptyString => EmptyString
  | String c r => if isWhiteSpace c then trimStart r else s
  end.

Fixpoint trimEnd (s : string) : string :=
  match s with
  | EmptyString => EmptyString
  | String c r =>
      match trimEnd r with
      | EmptyString => if isWhiteSpace c then EmptyString else String c EmptyString
      | t => String c t
      end
  end.

(** [String.prototype.trim]. *)
Definition trim (s : string) : string := trimEnd (trimStart s).

(** [s.length]. *)
Definition strlen (s : string) : Z := Z.of_nat (String.length s).

Definition digit (c : ascii) : option Z :=
  let n := code c in
  if (48 <=? n) && (n <=? 57) then Some (n - 48) else None.

(** The longest prefix of decimal digits, as a number; [None] (NaN) when the
    text does not start with a digit. *)
Fixpoint digits (acc : option Z) (s : string) : option Z :=
  match s with
  | EmptyString => acc
  | String c r =>
      match digit c with
      | Some d => digits (Some (10 * default 0 acc + d)) r
      | None => acc
      end
  end.

(** [parseInt(v, 10)]: ToString, skip leading white space, an optional sign,
    then the longest run of digits.  [None] is NaN. *)
Definition parseInt (v : Value) : option Z :=
  match trimStart (toString v) with
  | String "-"%char r => Z.opp <$> digits None r
  | String "+"%char r => digits None r
  | t => digits None t
  end.

(** [n || fallback] for a number [n]: NaN and 0 are falsy. *)
Definition orElse (n : option Z) (fallback : Z) : Z :=
  match n with
  | Some 0 | None => fallback
  | Some n => n
  end.

(** [[...new Set(xs)]]: the numbers of [xs] without repetition, each at the
    place of its first occurrence. *)
Fixpoint unique (xs : list Z) : list Z :=
  match xs with
  | [] => []
  | x :: r => x :: filter (fun y => y ≠ x) (unique r)
  end.

End Js.

(** ** Errors

    [utils/AppError.js]: an operational error carries an HTTP status code and
    a message.  Anything else that is thrown (here: by the database driver)
    is not an [AppError] and has no [isOperational] flag. *)

Inductive Error :=
  | AppError (statusCode : Z) (message : string)
  | PgError (message : string).

Definition isAppError (e : Error) : bool :=
  match e with AppError _ _ => true | PgError _ => false end.

Definition isOperational (e : Error) : bool := isAppError e.

Definition errorMessage (e : Error) : string :=
  match e with AppError _ m => m | PgError m => m end.

(** ** The relational store

    The four tables of the schema.  A row is a record, a table is the list
    of its rows. *)

Record User := mkUser {
  u_id : Z;
  u_username : string;
  u_password_hash : string;
  u_created_at : Z }.

Record Chat := mkChat {
  c_id : Z;
  c_name : option string;
  c_is_group_chat : bool;
  c_created_at : Z }.

Record Participant := mkParticipant {
  cp_chat_id : Z;
  cp_user_id : Z }.

Record Message := mkMessage {
  m_id : Z;
  m_chat_id : Z;
  m_sender_id : Z;
  m_content : string;
  m_created_at : Z }.

Record Tables := mkTables {
  users : list User;
  chats : list Chat;
  chat_participants : list Participant;
  messages : list Message }.

(** The database server as the process sees it: the committed tables, the
    two serial sequences (a sequence is not rolled back), the clock behind
    [CURRENT_TIMESTAMP], the working copy of the transaction that is open on
    the checked-out client, and the round trips that are going to fail
    ([true] at the head: the next round trip is rejected by the driver). *)
Record Database := mkDatabase {
  tables : Tables;
  chats_id_seq : Z;
  messages_id_seq : Z;
  clock : Z;
  in_tx : option Tables;
  faults : list bool }.

(** Updates of one field. *)
Definition set_tables (t : Tables) (d : Database) : Database :=
  mkDatabase t (chats_id_seq d) (messages_id_seq d) (clock d) (in_tx d) (faults d).
Definition set_chats_id_seq (n : Z) (d : Database) : Database :=
  mkDatabase (tables d) n (messages_id_seq d) (clock d) (in_tx d) (faults d).
Definition set_messages_id_seq (n : Z) (d : Database) : Database :=
  mkDatabase (tables d) (chats_id_seq d) n (clock d) (in_tx d) (faults d).
Definition set_in_tx (w : option Tables) (d : Database) : Database :=
  mkDatabase (tables d) (chats_id_seq d) (messages_id_seq d) (clock d) w (faults d).
Definition set_faults (f : list bool) (d : Database) : Database :=
  mkDatabase (tables d) (chats_id_seq d) (messages_id_seq d) (clock d) (in_tx d) f.

(** ** The monad of asynchronous service code *)

Definition M (A : Type) : Type := Database -> Database * (Error + A).

Definition ret {A} (a : A) : M A := fun d => (d, inr a).
Definition throw {A} (e : Error) : M A := fun d => (d, inl e).
Definition bind {A B} (m : M A) (k : A -> M B) : M B :=
  fun d => match m d with
           | (d', inr a) => k a d'
           | (d', inl e) => (d', inl e)
           end.

Notation "'const' x ':=' 'await' m 'in' k" := (bind m (fun x => k))
  (at level 10, x name, m at level 100, k at level 200,
   format "'[v' 'const'  x  ':='  'await'  m  'in' '/' k ']'").
Notation "'await' m 'in' k" := (bind m (fun _ => k))
  (at level 10, m at level 100, k at level 200,
   format "'[v' 'await'  m  'in' '/' k ']'").

(** [try { body } catch (error) { handler }]. *)
Definition tryCatch {A} (body : M A) (handler : Error -> M A) : M A :=
  fun d => match body d with
           | (d', inl e) => handler e d'
           | r => r
           end.

(** [try { body } finally { fin }], for a [fin] that cannot throw. *)
Definition tryFinally {A} (body : M A) (fin : Database -> Database) : M A :=
  fun d => let (d', r) := body d in (fin d', r).

(** [for (const x of xs) { await f(x) }]. *)
Fixpoint forEach {A} (xs : list A) (f : A -> M unit) : M unit :=
  match xs with
  | [] => ret tt
  | x :: r => await f x in forEach r f
  end.

(** The catch clause shared by the service functions: an [AppError] is
    thrown again, anything else becomes a 500. *)
Definition rethrowOr500 {A} (message : string) (error : Error) : M A :=
  if isAppError error then throw error else throw (AppError 500 message).

(** One round trip to the server. *)
Definition roundTrip : M unit :=
  fun d => match faults d with
           | true :: f => (set_faults f d, inl (PgError "Connection terminated unexpectedly"))
           | false :: f => (set_faults f d, inr tt)
           | [] => (d, inr tt)
           end.

(** [db.query(text, params)] for a SELECT: the pool runs it on a connection
    of its own, which sees the committed tables. *)
Definition query {A} (select : Tables -> A) : M A :=
  await roundTrip in fun d => (d, inr (select (tables d))).

(** ** The SQL statements of the services

    Each statement of the source is a function of the tables, named after
    what it selects or inserts.  A constraint of the schema that an INSERT
    violates is an error of the driver. *)

Module Sql.

(** [SELECT id, username, created_at FROM users WHERE id = $1]. *)
Definition users_by_id (userId : Z) (t : Tables) : list User :=
  filter (fun u => u_id u = userId) (users t).

(** The rows of [chats] with the id [chatId]. *)
Definition chats_by_id (chatId : Z) (t : Tables) : list Chat :=
  filter (fun c => c_id c = chatId) (chats t).

(** The range of an INTEGER. *)
Definition int4 (n : Z) : Prop := -2147483648 <= n <= 2147483647.

(** [SELECT id, name, is_group_chat, created_at FROM chats WHERE id = $1].
    The server reads the parameter as an INTEGER, the type of the column,
    and rejects the statement when the value is out of the range of that
    type.  (The ids of the rows are INTEGERs: a value that is the id of a
    row is within the range.) *)
Definition chat_by_id (chatId : Z) (t : Tables) : Error + list Chat :=
  if bool_decide (int4 chatId ∨ chats_by_id chatId t ≠ [])
  then inr (chats_by_id chatId t)
  else inl (PgError "value is out of range for type integer").

(** A text that the server takes as a parameter of type TEXT: one without
    the code unit 0, which no text of the server holds. *)
Definition storable (s : string) : Prop :=
  Forall (fun c => Js.code c ≠ 0) (String.list_ascii_of_string s).

(** What a VARCHAR(n) column stores of a text: the text when it is not
    longer than [n]; its first [n] characters when all the others are
    spaces; an error of the server otherwise ([None]). *)
Definition varchar (n : nat) (s : string) : option string :=
  if bool_decide (String.length s <= n)%nat then Some s
  else if forallb (Ascii.eqb " ")
                  (String.list_ascii_of_string
                     (String.substring n (String.length s - n) s))
       then Some (String.substring 0 n s)
       else None.

(** [SELECT 1 FROM chat_participants WHERE user_id = $1 AND chat_id = $2]. *)
Definition participant_rows (userId chatId : Z) (t : Tables) : list Participant :=
  filter (fun cp => cp_user_id cp = userId ∧ cp_chat_id cp = chatId)
         (chat_participants t).

(** The checks of [chat_participants]: the primary key [(chat_id, user_id)]
    and the two foreign keys. *)
Definition participant_admissible (chatId userId : Z) (t : Tables) : bool :=
  bool_decide (participant_rows userId chatId t = [])
  && bool_decide (chats_by_id chatId t ≠ [])
  && bool_decide (users_by_id userId t ≠ []).

(** The checks of [messages]: the primary key [id] and the two foreign keys
    ([content] is a string, so it is NOT NULL). *)
Definition message_admissible (id chatId senderId : Z) (t : Tables) : bool :=
  bool_decide (filter (fun m => m_id m = id) (messages t) = [])
  && bool_decide (chats_by_id chatId t ≠ [])
  && bool_decide (users_by_id senderId t ≠ []).

(** What the column [name VARCHAR(255)] of [chats] stores of the parameter:
    NULL for NULL, and of a text what [varchar] says ([None]: the server
    rejects the row). *)
Definition stored_name (name : option string) : option (option string) :=
  match name with
  | Some s => Some <$> varchar 255 s
  | None => Some None
  end.

(** The check of [chats]: the primary key [id]. *)
Definition chat_admissible (id : Z) (t : Tables) : bool :=
  bool_decide (chats_by_id id t = []).

(** [json_build_object('id', u.id, 'username', u.username)]. *)
Record Sender := mkSender {
  s_id : Z;
  s_username : string }.

(** [FROM users u JOIN chat_participants cp ON u.id = cp.user_id
     WHERE cp.chat_id = c.id]. *)
Definition users_of_chat (chatId : Z) (t : Tables) : list (User * Participant) :=
  flat_map
    (fun u => map (fun cp => (u, cp))
                (filter (fun cp => u_id u = cp_user_id cp ∧ cp_chat_id cp = chatId)
                        (chat_participants t)))
    (users t).

Definition sender_of (row : User * Participant) : Sender :=
  mkSender (u_id (fst row)) (u_username (fst row)).

(** The [all_participants] sub-select; an empty aggregate (NULL) is the
    empty array, as the [|| []] of the callers makes it. *)
Definition all_participants_of (chatId : Z) (t : Tables) : list Sender :=
  map sender_of (users_of_chat chatId t).

(** The [other_participants] sub-select, [... AND cp.user_id != $n].  With
    a NULL parameter the comparison holds for no row. *)
Definition other_participants_of (chatId : Z) (currentUserId : option Z)
    (t : Tables) : list Sender :=
  match currentUserId with
  | Some me =>
      map sender_of
          (filter (fun row => cp_user_id (snd row) ≠ me) (users_of_chat chatId t))
  | None => []
  end.

(** A chat row with its two participant lists. *)
Record ChatView := mkChatView {
  v_id : Z;
  v_name : option string;
  v_is_group_chat : bool;
  v_created_at : Z;
  v_other_participants : list Sender;
  v_all_participants : list Sender }.

Definition view_of (currentUserId : option Z) (t : Tables) (c : Chat) : ChatView :=
  mkChatView (c_id c) (c_name c) (c_is_group_chat c) (c_created_at c)
             (other_participants_of (c_id c) currentUserId t)
             (all_participants_of (c_id c) t).

(** The query of [getUserChatsWithParticipants]: [FROM chats c WHERE c.id = $1]. *)
Definition chat_details (chatId : Z) (currentUserId : option Z) (t : Tables)
    : list ChatView :=
  map (view_of currentUserId t) (chats_by_id chatId t).

Definition add_chat (c : Chat) (t : Tables) : Tables :=
  mkTables (users t) (chats t ++ [c]) (chat_participants t) (messages t).

Definition add_participant (cp : Participant) (t : Tables) : Tables :=
  mkTables (users t) (chats t) (chat_participants t ++ [cp]) (messages t).

Definition add_message (m : Message) (t : Tables) : Tables :=
  mkTables (users t) (chats t) (chat_participants t) (messages t ++ [m]).

(** A row of the message history:
    [m.id, m.chat_id, m.content, m.created_at, json_build_object(...) as sender]. *)
Record MessageView := mkMessageView {
  mv_id : Z;
  mv_chat_id : Z;
  mv_content : string;
  mv_created_at : Z;
  mv_sender : Sender }.

(** [FROM messages m JOIN users u ON m.sender_id = u.id WHERE m.chat_id = $1]. *)
Definition messages_of_chat (chatId : Z) (t : Tables) : list MessageView :=
  flat_map
    (fun m => map (fun u => mkMessageView (m_id m) (m_chat_id m) (m_content m)
                              (m_created_at m) (mkSender (u_id u) (u_username u)))
                (filter (fun u => m_sender_id m = u_id u) (users t)))
    (filter (fun m => m_chat_id m = chatId) (messages t)).

(** What [ORDER BY key ASC] promises of the server: the rows it is given,
    in an order in which the key does not decrease.  Rows with equal keys
    come in an order of the server's choosing. *)
Definition OrderBy {A} (key : A -> Z) (order : list A -> list A) : Prop :=
  ∀ rows, Permutation (order rows) rows
          ∧ Sorted (fun a b => key a <= key b) (order rows).

(** [... ORDER BY m.created_at ASC LIMIT $2 OFFSET $3], for an [order] the
    server uses.  A negative LIMIT or OFFSET is an error of the server. *)
Definition messages_page (order : list MessageView -> list MessageView)
    (chatId limit offset : Z) (t : Tables) : Error + list MessageView :=
  if (limit <? 0) || (offset <? 0)
  then inl (PgError "LIMIT and OFFSET must not be negative")
  else inr (take (Z.to_nat limit)
                 (drop (Z.to_nat offset) (order (messages_of_chat chatId t)))).

Global Instance Sender_eq_dec : EqDecision Sender.
Proof. solve_decision. Defined.
Global Instance ChatView_eq_dec : EqDecision ChatView.
Proof. solve_decision. Defined.

(** The query of [searchUserChats]:
    [SELECT DISTINCT c.id, c.name, c.is_group_chat, c.created_at,
       (SELECT json_agg(...) ...) as other_participants,
       (SELECT json_agg(...) ...) as all_participants
     FROM chats c JOIN chat_participants cp_user ... LEFT JOIN ...
     WHERE cp_user.user_id = $1 AND (c.name ILIKE $2 OR ...)
     ORDER BY c.created_at DESC].
    DISTINCT compares whole rows, and the two columns that [json_agg] gives
    are of type json, which has no equality operator: the server rejects
    the statement when it analyses it, whatever the parameters are and
    whatever the tables hold, and no row is ever selected. *)
Definition search (order : list ChatView -> list ChatView) (userId : Z)
    (pattern : string) (t : Tables) : Error + list ChatView :=
  inl (PgError "could not identify an equality operator for type json").

(** The query of [getUserChats]:
    [FROM chats c JOIN chat_participants cp ON c.id = cp.chat_id
     WHERE cp.user_id = $1 ORDER BY c.created_at DESC], for an [order] the
    server uses. *)
Definition user_chats (order : list ChatView -> list ChatView) (userId : Z)
    (t : Tables) : list ChatView :=
  order (flat_map
           (fun c => map (fun _ => view_of (Some userId) t c)
                       (filter (fun cp => c_id c = cp_chat_id cp ∧ cp_user_id cp = userId)
                               (chat_participants t)))
           (chats t)).

(** *** The table of users *)

(** [SELECT id, username, password_hash, created_at FROM users
     WHERE username = $1]. *)
Definition users_by_username (username : string) (t : Tables) : list User :=
  filter (fun u => u_username u = username) (users t).

(** The row that [RETURNING id, username, created_at] gives. *)
Record Account := mkAccount {
  a_id : Z;
  a_username : string;
  a_created_at : Z }.

Definition add_user (u : User) (t : Tables) : Tables :=
  mkTables (users t ++ [u]) (chats t) (chat_participants t) (messages t).

(** [INSERT INTO users(username, password_hash) VALUES($1, $2)
     RETURNING id, username, created_at], for the value [id] that the
    sequence of the column issues (the sequence of [users] is not kept in
    [Database]) and the time [now].  A constraint that the row violates is
    reported with its error code and the name of the constraint. *)
Definition insert_user (id : Z) (username password_hash : string) (now : Z) (t : Tables)
    : string * string + Tables * Account :=
  match varchar 255 username, varchar 255 password_hash with
  | Some username, Some password_hash =>
      if bool_decide (users_by_id id t ≠ [])
      then inl ("23505", "users_pkey")
      else if bool_decide (users_by_username username t ≠ [])
      then inl ("23505", "users_username_key")
      else inr (add_user (mkUser id username password_hash now) t,
                mkAccount id username now)
  | _, _ => inl ("22001", "")
  end.

End Sql.

(** ** [services/userService.js] *)

Module UserService.

(** [findUserById(userId, expectUser = false)]. *)
Definition findUserById (userId : Z) (expectUser : bool) : M (option User) :=
  tryCatch
    (const rows := await query (Sql.users_by_id userId) in
     if negb (bool_decide (is_Some (head rows))) && expectUser
     then throw (AppError 404 ("User with ID " +:+ Js.numToString userId +:+ " not found."))
     else ret (head rows))
    (rethrowOr500 "Could not find user by ID due to a server error.").

(** [findUserByUsername(username, expectUser = false)]. *)
Definition findUserByUsername (username : string) (expectUser : bool) : M (option User) :=
  tryCatch
    (const rows := await query (Sql.users_by_username username) in
     if negb (bool_decide (is_Some (head rows))) && expectUser
     then throw (AppError 404 ("User with username '" +:+ username +:+ "' not found."))
     else ret (head rows))
    (rethrowOr500 "Could not find user due to a server error.").

(** [createUser(username, passwordHash)], for the id that the sequence
    issues.  The statement goes through [db.query]: it is committed at
    once.  An error without the code 23505 and the constraint
    [users_username_key], such as a lost connection, becomes a 500. *)
Definition createUser (nextval : Z) (username passwordHash : string) : M Sql.Account :=
  fun d =>
    match roundTrip d with
    | (d', inl _) =>
        (d', inl (AppError 500 "Could not create user due to a server error."))
    | (d', inr _) =>
        match Sql.insert_user nextval username passwordHash (clock d') (tables d') with
        | inr (t, row) => (set_tables t d', inr row)
        | inl (code, constraint) =>
            if String.eqb code "23505" && String.eqb constraint "users_username_key"
            then (d', inl (AppError 409 "Username already exists."))
            else (d', inl (AppError 500 "Could not create user due to a server error."))
        end
    end.

End UserService.

(** ** The client checked out of the pool, and the writes

    A transaction works on a copy of the tables that only its own client
    sees; COMMIT publishes the copy, ROLLBACK drops it.  A client that is
    released with a transaction still open loses it (its connection is
    broken, the server aborts). *)

Module Pg.

Definition view (d : Database) : Tables := default (tables d) (in_tx d).

Definition write (t : Tables) (d : Database) : Database :=
  match in_tx d with
  | Some _ => set_in_tx (Some t) d
  | None => set_tables t d
  end.

(** [db.pool.connect()]. *)
Definition connect : M unit := roundTrip.

(** [client.query('BEGIN')]. *)
Definition begin : M unit :=
  await roundTrip in fun d => (set_in_tx (Some (tables d)) d, inr tt).

(** [client.query('COMMIT')]. *)
Definition commit : M unit :=
  await roundTrip in
  fun d => match in_tx d with
           | Some w => (set_in_tx None (set_tables w d), inr tt)
           | None => (d, inr tt)
           end.

(** [client.query('ROLLBACK')]; outside a transaction it only warns. *)
Definition rollback : M unit :=
  await roundTrip in fun d => (set_in_tx None d, inr tt).

(** [client.release()]. *)
Definition release (d : Database) : Database := set_in_tx None d.

(** [INSERT INTO chats (name, is_group_chat) VALUES ($1, $2) RETURNING ...]
    on the client.  The id is the next value of the sequence, [created_at]
    the current timestamp, and the name what the column stores of the
    parameter; the row that RETURNING gives is the stored one. *)
Definition insert_chat (name : option string) (isGroupChat : bool) : M Chat :=
  await roundTrip in
  fun d =>
    let id := chats_id_seq d + 1 in
    let d1 := set_chats_id_seq id d in
    match Sql.stored_name name with
    | Some stored =>
        if Sql.chat_admissible id (view d1)
        then let c := mkChat id stored isGroupChat (clock d1) in
             (write (Sql.add_chat c (view d1)) d1, inr c)
        else (d1, inl (PgError "insert into chats violates a constraint"))
    | None => (d1, inl (PgError "value too long for type character varying(255)"))
    end.

(** [INSERT INTO chat_participants (chat_id, user_id) VALUES ($1, $2)] on
    the client. *)
Definition insert_participant (chatId userId : Z) : M unit :=
  await roundTrip in
  fun d =>
    if Sql.participant_admissible chatId userId (view d)
    then (write (Sql.add_participant (mkParticipant chatId userId) (view d)) d, inr tt)
    else (d, inl (PgError "insert into chat_participants violates a constraint")).

(** [INSERT INTO messages (chat_id, sender_id, content) VALUES ($1, $2, $3)
     RETURNING ...] through [db.query]: one statement, committed at once.
    The server refuses a content that it cannot read as a text when it
    reads the parameters, before it runs the statement: no id is drawn from
    the sequence then. *)
Definition insert_message (chatId senderId : Z) (content : string)
    : M (list Message) :=
  await roundTrip in
  fun d =>
    if bool_decide (Sql.storable content)
    then
      let id := messages_id_seq d + 1 in
      let d1 := set_messages_id_seq id d in
      if Sql.message_admissible id chatId senderId (tables d1)
      then let m := mkMessage id chatId senderId content (clock d1) in
           (set_tables (Sql.add_message m (tables d1)) d1, inr [m])
      else (d1, inl (PgError "insert into messages violates a constraint"))
    else (d, inl (PgError "invalid byte sequence for encoding UTF8: 0x00")).

(** How the driver sends a parameter of a text column: [null] and
    [undefined] as NULL, a string as it is, a number or a boolean as its
    text.  (An object would be sent as JSON; no caller passes one.) *)
Definition text (v : Js.Value) : option string :=
  match v with
  | Js.Undefined | Js.Null => None
  | _ => Some (Js.toString v)
  end.

End Pg.

(** ** [services/chatService.js] *)

Module ChatService.

(** What [createMessage] resolves to: [{ ...newMessage, sender }]. *)
Record NewMessage := mkNewMessage {
  nm_id : Z;
  nm_chat_id : Z;
  nm_sender_id : Z;
  nm_content : string;
  nm_created_at : Z;
  nm_sender : Sql.Sender }.

(** What [createChat] resolves to: [createdChatDetails[0] || newChat]. *)
Inductive CreatedChat :=
  | Detailed (v : Sql.ChatView)
  | Plain (c : Chat).

(** [findChatById(chatId, expectChat = false)].  [db.query] rejects with the
    error of the server when the server rejects the statement. *)
Definition findChatById (chatId : Z) (expectChat : bool) : M (option Chat) :=
  tryCatch
    (const result := await query (Sql.chat_by_id chatId) in
     match result with
     | inr rows =>
         if negb (bool_decide (is_Some (head rows))) && expectChat
         then throw (AppError 404
                       ("Chat with ID " +:+ Js.numToString chatId +:+ " not found."))
         else ret (head rows)
     | inl error => throw error
     end)
    (rethrowOr500 "Could not find chat due to a server error.").

(** [checkUserInChat(userId, chatId, expectUserInChat = true)]. *)
Definition checkUserInChat (userId chatId : Z) (expectUserInChat : bool) : M bool :=
  await findChatById chatId true in
  tryCatch
    (const rows := await query (Sql.participant_rows userId chatId) in
     if bool_decide (0 < length rows)%nat
     then ret true
     else if expectUserInChat
          then throw (AppError 403 "Access denied. You are not a participant in this chat.")
          else ret false)
    (rethrowOr500 "Error verifying chat participation.").

(** [getUserChatsWithParticipants(chatId, currentUserId)]; its catch clause
    turns every error into a 500. *)
Definition getUserChatsWithParticipants (chatId : Z) (currentUserId : option Z)
    : M (list Sql.ChatView) :=
  tryCatch
    (query (Sql.chat_details chatId currentUserId))
    (fun _ => throw (AppError 500 "Could not retrieve detailed chat information.")).

(** [createChat(userIds, name, isGroupChat)]. *)
Definition createChat (userIds : list Z) (name : option string) (isGroupChat : bool)
    : M CreatedChat :=
  await Pg.connect in
  tryFinally
    (tryCatch
       (await Pg.begin in
        await forEach userIds
                (fun userId => await UserService.findUserById userId true in ret tt) in
        const newChat := await Pg.insert_chat name isGroupChat in
        await forEach userIds (fun userId => Pg.insert_participant (c_id newChat) userId) in
        await Pg.commit in
        const createdChatDetails :=
          await getUserChatsWithParticipants (c_id newChat) (head userIds) in
        ret (match head createdChatDetails with
             | Some v => Detailed v
             | None => Plain newChat
             end))
       (fun error =>
          await Pg.rollback in
          rethrowOr500 "Could not create chat due to a server error." error))
    Pg.release.

(** [createMessage(chatId, senderId, content)]. *)
Definition createMessage (chatId senderId : Z) (content : string) : M NewMessage :=
  await checkUserInChat senderId chatId true in
  tryCatch
    (const rows := await Pg.insert_message chatId senderId content in
     match head rows with
     | Some newMessage =>
         const senderDetails :=
           await UserService.findUserById (m_sender_id newMessage) false in
         match senderDetails with
         | None =>
             throw (AppError 500 "Failed to retrieve sender details for the new message.")
         | Some s =>
             ret (mkNewMessage (m_id newMessage) (m_chat_id newMessage)
                    (m_sender_id newMessage) (m_content newMessage)
                    (m_created_at newMessage)
                    (Sql.mkSender (u_id s) (u_username s)))
         end
     | None =>
         throw (AppError 500 "Message creation failed to return the new message details.")
     end)
    (rethrowOr500 "Could not create message due to a server error.").

(** [getChatMessages(currentUserId, chatId, limit = 20, offset = 0)]; its
    catch clause turns every error of the query into a 500. *)
Definition getChatMessages (order : list Sql.MessageView -> list Sql.MessageView)
    (currentUserId chatId limit offset : Z) : M (list Sql.MessageView) :=
  await checkUserInChat currentUserId chatId true in
  tryCatch
    (const result := await query (Sql.messages_page order chatId limit offset) in
     match result with
     | inr rows => ret rows
     | inl error => throw error
     end)
    (fun _ => throw (AppError 500 "Could not retrieve chat messages.")).

(** [searchUserChats(userId, searchTerm)]. *)
Definition searchUserChats (order : list Sql.ChatView -> list Sql.ChatView)
    (userId : Z) (searchTerm : string) : M (list Sql.ChatView) :=
  await UserService.findUserById userId true in
  let searchTermLike := "%" +:+ searchTerm +:+ "%" in
  tryCatch
    (const result := await query (Sql.search order userId searchTermLike) in
     match result with
     | inr rows => ret rows
     | inl error => throw error
     end)
    (fun _ => throw (AppError 500 "Could not perform chat search.")).

(** [getUserChats(userId)]; its catch clause turns every error of the query
    into a 500. *)
Definition getUserChats (order : list Sql.ChatView -> list Sql.ChatView) (userId : Z)
    : M (list Sql.ChatView) :=
  await UserService.findUserById userId true in
  tryCatch
    (query (Sql.user_chats order userId))
    (fun _ => throw (AppError 500 "Could not retrieve user chats.")).

End ChatService.

(** ** The identity claim

    What [jwt.verify] decodes from a token; the socket layer keeps it as
    [socket.user], the HTTP layer as [req.user]. *)

Record UserPayload := mkUserPayload {
  id : Z;
  username : string }.

(** ** [socket/socketHandler.js]

    The socket.io server keeps, for every room, the set of sockets that
    joined it.  [socket.join] and [socket.leave] add and remove the socket,
    a disconnect removes it from every room, [io.to(room).emit] reaches
    every socket of the room and [socket.to(room).emit] every socket of the
    room but the emitting one.  A room of a chat is named by the decimal
    text of the chat id; it is keyed by the id here. *)

Module Socket.

Definition SocketId := nat.

(** The [data] argument of an event: [None] when it is missing or falsy,
    and a field that is absent is [Js.Undefined]. *)
Record Payload := mkPayload {
  chatId : Js.Value;
  content : Js.Value;
  isTyping : Js.Value }.

Inductive ClientEvent :=
  | joinChat (data : option Payload)
  | leaveChat (data : option Payload)
  | sendMessage (data : option Payload)
  | typing (data : option Payload)
  | disconnect.

Inductive ServerEvent :=
  | connect_error (message : string)
  | chatJoined (chatId : Z) (message : string)
  | chatLeft (chatId : Z) (message : string)
  | newMessage (m : ChatService.NewMessage)
  | userTyping (userId : Z) (username : string) (chatId : Z) (isTyping : bool)
  | socketError (event : string) (message : string).

Record Server := mkServer {
  db : Database;
  sockets : gmap SocketId UserPayload;
  rooms : gmap Z (gset SocketId);
  outbox : list (SocketId * ServerEvent) }.

Definition set_db (d : Database) (s : Server) : Server :=
  mkServer d (sockets s) (rooms s) (outbox s).
Definition set_sockets (k : gmap SocketId UserPayload) (s : Server) : Server :=
  mkServer (db s) k (rooms s) (outbox s).
Definition set_rooms (r : gmap Z (gset SocketId)) (s : Server) : Server :=
  mkServer (db s) (sockets s) r (outbox s).

(** The sockets of a room. *)
Definition room (chat : Z) (s : Server) : gset SocketId := rooms s !!! chat.

(** [socket.emit(event, payload)]. *)
Definition emit (c : SocketId) (e : ServerEvent) (s : Server) : Server :=
  mkServer (db s) (sockets s) (rooms s) (outbox s ++ [(c, e)]).

(** [io.to(room).emit(event, payload)]. *)
Definition io_to_emit (chat : Z) (e : ServerEvent) (s : Server) : Server :=
  mkServer (db s) (sockets s) (rooms s)
           (outbox s ++ map (fun c' => (c', e)) (elements (room chat s))).

(** [socket.to(room).emit(event, payload)]. *)
Definition socket_to_emit (c : SocketId) (chat : Z) (e : ServerEvent) (s : Server)
    : Server :=
  mkServer (db s) (sockets s) (rooms s)
           (outbox s ++ map (fun c' => (c', e)) (elements (room chat s ∖ {[c]}))).

(** [socket.join(room)]. *)
Definition join (c : SocketId) (chat : Z) (s : Server) : Server :=
  set_rooms (<[chat := {[c]} ∪ room chat s]> (rooms s)) s.

(** [socket.leave(room)]. *)
Definition leave (c : SocketId) (chat : Z) (s : Server) : Server :=
  set_rooms (<[chat := room chat s ∖ {[c]}]> (rooms s)) s.

(** What the server does with the rooms of a socket that disconnects. *)
Definition leaveAll (c : SocketId) (s : Server) : Server :=
  set_rooms ((fun members => members ∖ {[c]}) <$> rooms s) s.

(** [data && data.chatId ? parseInt(data.chatId, 10) : null]; [None] is
    null or NaN. *)
Definition chatIdOf (data : option Payload) : option Z :=
  match data with
  | Some p => if Js.truthy (chatId p) then Js.parseInt (chatId p) else None
  | None => None
  end.

(** [!chatId || isNaN(chatId) || chatId <= 0]. *)
Definition invalidChatId (chatId : option Z) : bool :=
  match chatId with
  | Some n => n <=? 0
  | None => true
  end.

(** [data && typeof data.content === 'string' ? data.content.trim() : null]. *)
Definition contentOf (data : option Payload) : option string :=
  match data with
  | Some p => match content p with
              | Js.Str s => Some (Js.trim s)
              | _ => None
              end
  | None => None
  end.

(** [data && typeof data.isTyping === 'boolean' ? data.isTyping : null]. *)
Definition isTypingOf (data : option Payload) : option bool :=
  match data with
  | Some p => match isTyping p with
              | Js.Bool b => Some b
              | _ => None
              end
  | None => None
  end.

(** The message a handler reports for what it caught. *)
Definition reported (fallback : string) (error : Error) : string :=
  if isOperational error then errorMessage error else fallback.

Section Handlers.

(** [cookie.parse(cookieString).accessToken] and
    [jwt.verify(token, process.env.JWT_SECRET)], which either returns the
    decoded payload or throws an error with a [name]. *)
Inductive Verified :=
  | Decoded (payload : UserPayload)
  | Thrown (name : string).

Variable accessTokenOf : string -> option string.
Variable jwt_verify : string -> Verified.

(** The middleware of [io.use]: what it passes to [next]. *)
Definition authenticate (cookieString : option string) : string + UserPayload :=
  match cookieString with
  | None | Some EmptyString => inl "Authentication error: No cookies provided."
  | Some cookieString =>
      match accessTokenOf cookieString with
      | None | Some EmptyString =>
          inl "Authentication error: Access token not found in cookies."
      | Some token =>
          match jwt_verify token with
          | Decoded decodedPayload => inr decodedPayload
          | Thrown name =>
              if String.eqb name "TokenExpiredError"
              then inl "Authentication error: Access token expired. Please refresh."
              else if String.eqb name "JsonWebTokenError"
              then inl "Authentication error: Invalid access token."
              else inl "Authentication error: Could not verify token."
          end
      end
  end.

(** [socket.on('joinChat', ...)]. *)
Definition onJoinChat (c : SocketId) (user : UserPayload) (data : option Payload)
    (s : Server) : Server :=
  let chatId := chatIdOf data in
  if invalidChatId chatId
  then emit c (socketError "joinChat" "Invalid Chat ID. Must be a positive integer.") s
  else
    let chatId := default 0 chatId in
    match ChatService.checkUserInChat (id user) chatId true (db s) with
    | (d, inr _) =>
        emit c (chatJoined chatId ("Successfully joined chat " +:+ Js.numToString chatId))
             (join c chatId (set_db d s))
    | (d, inl error) =>
        emit c (socketError "joinChat"
                  (reported "Failed to join chat. An unexpected error occurred." error))
             (set_db d s)
    end.

(** [socket.on('leaveChat', ...)]. *)
Definition onLeaveChat (c : SocketId) (user : UserPayload) (data : option Payload)
    (s : Server) : Server :=
  let chatId := chatIdOf data in
  if invalidChatId chatId
  then s
  else
    let chatId := default 0 chatId in
    emit c (chatLeft chatId ("Successfully left chat " +:+ Js.numToString chatId))
         (leave c chatId s).

(** [socket.on('sendMessage', ...)]. *)
Definition onSendMessage (c : SocketId) (user : UserPayload) (data : option Payload)
    (s : Server) : Server :=
  let chatId := chatIdOf data in
  let content := contentOf data in
  if invalidChatId chatId
  then emit c (socketError "sendMessage" "Invalid Chat ID. Must be a positive integer.") s
  else
    let chatId := default 0 chatId in
    match content with
    | None | Some EmptyString =>
        emit c (socketError "sendMessage" "Message content cannot be empty.") s
    | Some content =>
        if 2000 <? Js.strlen content
        then emit c (socketError "sendMessage"
                       "Message content is too long (max 2000 characters).") s
        else
          match ChatService.createMessage chatId (id user) content (db s) with
          | (d, inr m) => io_to_emit chatId (newMessage m) (set_db d s)
          | (d, inl error) =>
              emit c (socketError "sendMessage"
                        (reported "Failed to send message. An unexpected error occurred."
                                  error))
                   (set_db d s)
          end
    end.

(** [socket.on('typing', ...)]. *)
Definition onTyping (c : SocketId) (user : UserPayload) (data : option Payload)
    (s : Server) : Server :=
  let chatId := chatIdOf data in
  let isTyping := isTypingOf data in
  match isTyping with
  | Some isTyping =>
      if invalidChatId chatId
      then s
      else
        let chatId := default 0 chatId in
        socket_to_emit c chatId (userTyping (id user) (username user) chatId isTyping) s
  | None => s
  end.

(** [socket.on('disconnect', ...)] only logs; the server drops the socket
    and takes it out of its rooms. *)
Definition onDisconnect (c : SocketId) (s : Server) : Server :=
  set_sockets (delete c (sockets s)) (leaveAll c s).

(** What happens to the server: a client connects with the cookie header of
    its request, a connected socket sends an event, or the database is
    changed from elsewhere (a request of the HTTP interface, an operator,
    the clock). *)
Inductive Input :=
  | Connect (c : SocketId) (cookieString : option string)
  | Receive (c : SocketId) (e : ClientEvent)
  | Elsewhere (d : Database).

(** A new connection goes through the middleware; only when it passes are
    the handlers of [io.on('connection', ...)] registered for the socket.
    Socket ids are fresh, so a [Connect] with an id in use does not occur
    and is ignored. *)
Definition step (s : Server) (i : Input) : Server :=
  match i with
  | Connect c cookieString =>
      match sockets s !! c with
      | Some _ => s
      | None =>
          match authenticate cookieString with
          | inr user => set_sockets (<[c := user]> (sockets s)) s
          | inl message => emit c (connect_error message) s
          end
      end
  | Receive c e =>
      match sockets s !! c with
      | None => s
      | Some user =>
          match e with
          | joinChat data => onJoinChat c user data s
          | leaveChat data => onLeaveChat c user data s
          | sendMessage data => onSendMessage c user data s
          | typing data => onTyping c user data s
          | disconnect => onDisconnect c s
          end
      end
  | Elsewhere d => set_db d s
  end.

Definition run (s : Server) (trace : list Input) : Server :=
  fold_left step trace s.

End Handlers.

(** The server at start: nobody is connected. *)
Definition boot (d : Database) : Server := mkServer d ∅ ∅ [].

End Socket.

(** ** [middleware/auth.js] *)

Module Auth.

Section Middleware.

Variable jwt_verify : string -> Socket.Verified.

(** [verifyToken]: what it passes to [next], for the value of
    [req.cookies.accessToken] ([None] when there is no such cookie).  When it
    passes nothing, the payload is [req.user] from then on. *)
Definition verifyToken (accessToken : option string) : Error + UserPayload :=
  match accessToken with
  | None | Some EmptyString =>
      inl (AppError 401 "Access token is required. No token provided. Please log in.")
  | Some token =>
      match jwt_verify token with
      | Socket.Decoded decodedPayload => inr decodedPayload
      | Socket.Thrown name =>
          if String.eqb name "TokenExpiredError"
          then inl (AppError 401 "Access token expired. Please log in again.")
          else if String.eqb name "JsonWebTokenError"
          then inl (AppError 401 "Invalid access token. Please log in again.")
          else inl (AppError 500 "Could not verify access token due to a server issue.")
      end
  end.

End Middleware.

End Auth.

(** ** [controllers/chatController.js]: posting a message over HTTP *)

Module ChatController.

(** The parts of the request that [createMessageHandler] reads:
    [req.user], [req.params.chatId] and [req.body.content]. *)
Record Request := mkRequest {
  user : UserPayload;
  params_chatId : string;
  body_content : Js.Value }.

(** [res.status(status).json(body)], or [next(err)]: [catchAsync]
    ([utils/authUtils.js]) hands whatever the handler throws to [next]. *)
Inductive Outcome :=
  | json (status : Z) (body : ChatService.NewMessage)
  | next (err : Error).

(** [isNaN(chatId) || chatId <= 0]. *)
Definition invalidPathId (chatId : option Z) : bool :=
  match chatId with
  | Some n => n <=? 0
  | None => true
  end.

(** [createMessageHandler]. *)
Definition createMessageHandler (req : Request) (d : Database) : Database * Outcome :=
  let senderId := id (user req) in
  let chatId := Js.parseInt (Js.Str (params_chatId req)) in
  let content := body_content req in
  if invalidPathId chatId
  then (d, next (AppError 400 "Invalid Chat ID in path. Must be a positive integer."))
  else
    let chatId := default 0 chatId in
    match content with
    | Js.Str text =>
        if negb (Js.truthy content) || String.eqb (Js.trim text) ""
        then (d, next (AppError 400 "Message content cannot be empty."))
        else if 2000 <? Js.strlen (Js.trim text)
        then (d, next (AppError 400 "Message content is too long (max 2000 characters)."))
        else
          match ChatService.createMessage chatId senderId (Js.trim text) d with
          | (d', inr newMessage) => (d', json 201 newMessage)
          | (d', inl err) => (d', next err)
          end
    | _ => (d, next (AppError 400 "Message content cannot be empty."))
    end.

(** The other handlers answer with bodies of other types. *)
Inductive Reply (A : Type) :=
  | status_json (status : Z) (body : A)
  | next_with (err : Error).
Arguments status_json {A} status body.
Arguments next_with {A} err.

(** [createChatHandler], for [req.user] and the two fields of [req.body]:
    [otherUserIds] is [None] when it is missing or not an array. *)
Definition createChatHandler (user : UserPayload) (otherUserIds : option (list Js.Value))
    (name : Js.Value) (d : Database) : Database * Reply ChatService.CreatedChat :=
  let currentUserId := id user in
  match otherUserIds with
  | None | Some [] =>
      (d, next_with (AppError 400
             "`otherUserIds` (array of user IDs) is required and must not be empty."))
  | Some otherUserIds =>
      let parsedUserIds := map Js.parseInt otherUserIds in
      if existsb (fun n => negb (bool_decide (is_Some n))) parsedUserIds
      then (d, next_with (AppError 400 "All IDs in `otherUserIds` must be valid numbers."))
      else
        let allUserIds := currentUserId :: map (default 0) parsedUserIds in
        let uniqueUserIds := Js.unique allUserIds in
        if bool_decide (length uniqueUserIds < 2)%nat
        then (d, next_with (AppError 400
                    "A chat requires at least two unique participants."))
        else
          let isGroupChat := bool_decide (2 < length uniqueUserIds)%nat in
          let chatName := if isGroupChat then name else Js.Null in
          if isGroupChat
             && (Js.truthy name
                 && match name with
                    | Js.Str text => 255 <? Js.strlen (Js.trim text)
                    | _ => true
                    end)
          then (d, next_with (AppError 400
                      "Group chat name, if provided, must be a string up to 255 characters."))
          else
            match ChatService.createChat uniqueUserIds (Pg.text chatName) isGroupChat d with
            | (d', inr newChat) => (d', status_json 201 newChat)
            | (d', inl err) => (d', next_with err)
            end
  end.

(** [getUserChatsHandler]. *)
Definition getUserChatsHandler (order : list Sql.ChatView -> list Sql.ChatView)
    (user : UserPayload) (d : Database) : Database * Reply (list Sql.ChatView) :=
  let userId := id user in
  match ChatService.getUserChats order userId d with
  | (d', inr chats) => (d', status_json 200 chats)
  | (d', inl err) => (d', next_with err)
  end.

(** [getChatMessagesHandler], for [req.user], [req.params.chatId] and the
    fields [limit] and [offset] of [req.query]. *)
Definition getChatMessagesHandler (order : list Sql.MessageView -> list Sql.MessageView)
    (user : UserPayload) (params_chatId : string) (query_limit query_offset : Js.Value)
    (d : Database) : Database * Reply (list Sql.MessageView) :=
  let userId := id user in
  let chatId := Js.parseInt (Js.Str params_chatId) in
  if invalidPathId chatId
  then (d, next_with (AppError 400 "Invalid Chat ID in path. Must be a positive integer."))
  else
    let chatId := default 0 chatId in
    let limit := Js.orElse (Js.parseInt query_limit) 20 in
    let offset := Js.orElse (Js.parseInt query_offset) 0 in
    if (limit <=? 0) || (100 <? limit)
    then (d, next_with (AppError 400
                "Invalid limit query parameter. Must be a positive integer, max 100."))
    else if offset <? 0
    then (d, next_with (AppError 400
                "Invalid offset query parameter. Must be a non-negative integer."))
    else
      match ChatService.getChatMessages order userId chatId limit offset d with
      | (d', inr messages) => (d', status_json 200 messages)
      | (d', inl err) => (d', next_with err)
      end.

(** [searchChatsHandler], for [req.user] and [req.query.searchTerm]. *)
Definition searchChatsHandler (order : list Sql.ChatView -> list Sql.ChatView)
    (user : UserPayload) (searchTerm : Js.Value) (d : Database)
    : Database * Reply (list Sql.ChatView) :=
  let userId := id user in
  match searchTerm with
  | Js.Str text =>
      if negb (Js.truthy searchTerm) || (Js.strlen (Js.trim text) =? 0)
      then (d, next_with (AppError 400
                  "Search term is required and must be a non-empty string."))
      else if 100 <? Js.strlen (Js.trim text)
      then (d, next_with (AppError 400 "Search term is too long (max 100 characters)."))
      else
        match ChatService.searchUserChats order userId (Js.trim text) d with
        | (d', inr chats) => (d', status_json 200 chats)
        | (d', inl err) => (d', next_with err)
        end
  | _ => (d, next_with (AppError 400
                "Search term is required and must be a non-empty string."))
  end.

End ChatController.

(** ** [routes/chatRoutes.js]

    Every route of the chat API comes after [router.use(verifyToken)]: the
    handler runs only when the middleware has passed, with the decoded
    payload as [req.user]. *)

Module ChatRoutes.

(** A request by its route, with what the handler of the route reads. *)
Inductive Endpoint :=
  | postChat (otherUserIds : option (list Js.Value)) (name : Js.Value)
  | getChats
  | getSearch (searchTerm : Js.Value)
  | getMessages (chatId : string) (limit offset : Js.Value)
  | postMessage (chatId : string) (content : Js.Value).

Inductive Body :=
  | aChat (chat : ChatService.CreatedChat)
  | someChats (chats : list Sql.ChatView)
  | someMessages (messages : list Sql.MessageView)
  | aMessage (message : ChatService.NewMessage).

Definition answer {A} (body : A -> Body) (r : Database * ChatController.Reply A)
    : Database * ChatController.Reply Body :=
  match r with
  | (d, ChatController.status_json status b) => (d, ChatController.status_json status (body b))
  | (d, ChatController.next_with err) => (d, ChatController.next_with err)
  end.

Section Router.

Variable jwt_verify : string -> Socket.Verified.
Variable order_chats : list Sql.ChatView -> list Sql.ChatView.
Variable order_messages : list Sql.MessageView -> list Sql.MessageView.

Definition dispatch (accessToken : option string) (e : Endpoint) (d : Database)
    : Database * ChatController.Reply Body :=
  match Auth.verifyToken jwt_verify accessToken with
  | inl err => (d, ChatController.next_with err)
  | inr user =>
      match e with
      | postChat otherUserIds name =>
          answer aChat (ChatController.createChatHandler user otherUserIds name d)
      | getChats =>
          answer someChats (ChatController.getUserChatsHandler order_chats user d)
      | getSearch searchTerm =>
          answer someChats (ChatController.searchChatsHandler order_chats user searchTerm d)
      | getMessages chatId limit offset =>
          answer someMessages
                 (ChatController.getChatMessagesHandler order_messages user chatId
                    limit offset d)
      | postMessage chatId content =>
          match ChatController.createMessageHandler
                  (ChatController.mkRequest user chatId content) d with
          | (d', ChatController.json status m) =>
              (d', ChatController.status_json status (aMessage m))
          | (d', ChatController.next err) => (d', ChatController.next_with err)
          end
      end
  end.

End Router.

End ChatRoutes.

(** ** [utils/AppError.js], [utils/errorHandler.js] and the 404 handler of
    [server.js] *)

Module ErrorHandler.

(** An error object as the handler reads it.  A field that the object does
    not have is [Js.Undefined]: a plain [Error] has a name, a message and a
    stack only. *)
Record ErrorObject := mkErrorObject {
  name : string;
  message : string;
  stack : string;
  statusCode : Js.Value;
  status : Js.Value;
  isOperational : Js.Value }.

(** [new AppError(statusCode, message)]; [super(message)] keeps the text of
    the message, and none when it is [undefined]. *)
Definition newAppError (statusCode message : Js.Value) (stack : string) : ErrorObject :=
  mkErrorObject "Error"
    (match message with Js.Undefined => "" | _ => Js.toString message end)
    stack
    statusCode
    (Js.Str (if String.prefix "4" (Js.toString statusCode) then "fail" else "error"))
    (Js.Bool true).

(** The object that a service or a handler has thrown. *)
Definition thrown (e : Error) (stack : string) : ErrorObject :=
  match e with
  | AppError statusCode message => newAppError (Js.Num statusCode) (Js.Str message) stack
  | PgError message =>
      mkErrorObject "Error" message stack Js.Undefined Js.Undefined Js.Undefined
  end.

(** [next(new AppError(`Can't find ${req.originalUrl} on this server!`, 404))]
    of [app.all('/api/*', ...)]. *)
Definition notFound (originalUrl stack : string) : ErrorObject :=
  newAppError (Js.Str ("Can't find " +:+ originalUrl +:+ " on this server!")) (Js.Num 404)
              stack.

(** What the handler does with [res]: [res.status(code).json({ status, error,
    message, stack })], [res.status(code).json({ status, message })],
    [res.status(code).send(html)], or nothing at all. *)
Inductive Response :=
  | json_dev (code status : Js.Value) (error : ErrorObject) (message stack : string)
  | json_prod (code status : Js.Value) (message : string)
  | send (code : Js.Value) (html : string)
  | nothing.

Definition handleJWTError : ErrorObject :=
  newAppError (Js.Num 401) (Js.Str "Invalid token. Please log in again!") "".

Definition handleJWTExpiredError : ErrorObject :=
  newAppError (Js.Num 401) (Js.Str "Your token has expired! Please log in again.") "".

Definition newline : string := String "010" "".

Definition sendErrorDev (err : ErrorObject) (originalUrl : string) : Response :=
  if String.prefix "/api" originalUrl
  then json_dev (statusCode err) (status err) err (message err) (stack err)
  else send (statusCode err)
            ("<h1>Something went wrong (Dev Mode)!</h1>" +:+ newline
             +:+ "     <p>" +:+ message err +:+ "</p>" +:+ newline
             +:+ "     <pre>" +:+ stack err +:+ "</pre>").

Definition sendErrorProd (err : ErrorObject) (originalUrl : string) : Response :=
  if String.prefix "/api" originalUrl
  then if Js.truthy (isOperational err)
       then json_prod (statusCode err) (status err) (message err)
       else json_prod (Js.Num 500) (Js.Str "error")
                      "Something went very wrong! Please try again later."
  else if Js.truthy (isOperational err)
       then send (statusCode err)
                 ("<h1>Something went wrong!</h1>" +:+ newline
                  +:+ "       <p>" +:+ message err +:+ "</p>")
       else send (Js.Num 500)
                 "<h1>An Unexpected Error Occurred!</h1><p>We are working to fix it. Please try again later.</p>".

(** The handler that [server.js] installs last, for the value of
    [process.env.NODE_ENV] and [req.originalUrl]. *)
Definition globalErrorHandler (NODE_ENV : option string) (originalUrl : string)
    (err : ErrorObject) : Response :=
  let err :=
    mkErrorObject (name err) (message err) (stack err)
      (if Js.truthy (statusCode err) then statusCode err else Js.Num 500)
      (if Js.truthy (status err) then status err else Js.Str "error")
      (isOperational err) in
  match NODE_ENV with
  | Some env =>
      if String.eqb env "development" then sendErrorDev err originalUrl
      else if String.eqb env "production" then
        let error := mkErrorObject (name err) (message err) "" (statusCode err) (status err)
                                   (isOperational err) in
        let error := if String.eqb (name error) "JsonWebTokenError"
                     then handleJWTError else error in
        let error := if String.eqb (name error) "TokenExpiredError"
                     then handleJWTExpiredError else error in
        sendErrorProd error originalUrl
      else nothing
  | None => nothing
  end.

End ErrorHandler.

(** ** [utils/authUtils.js] and [controllers/authController.js]

    bcrypt and jsonwebtoken are collaborators: [bcrypt_hash] is
    [bcrypt.hash(password, salt)] for the salt that [bcrypt.genSalt] has
    drawn, [bcrypt_compare] is [bcrypt.compare], both without a result when
    the library fails; [jwt_sign] is [jwt.sign(payload, secret,
    { expiresIn })] at the time of the call, and [jwt_verify_refresh] is
    [jwt.verify(token, process.env.REFRESH_TOKEN_SECRET)]. *)

Module AuthController.

(** [res.cookie(name, value, { httpOnly, secure, path, maxAge, sameSite })]. *)
Record Cookie := mkCookie {
  cookie_name : string;
  cookie_value : string;
  httpOnly : bool;
  secure : bool;
  path : string;
  maxAge : Z;
  sameSite : string }.

(** The bodies of the answers: [{ message, user: { id, username } }] of
    [register] and of [login], and the two that are a message only. *)
Inductive Body :=
  | userCreated (id : Z) (username : string)
  | loggedIn (id : Z) (username : string)
  | tokenRefreshed
  | loggedOut.

(** The cookies set on [res], and then [res.status(status).json(body)] or
    [next(err)]. *)
Inductive Reply :=
  | answered (cookies : list Cookie) (status : Z) (body : Body)
  | handed (cookies : list Cookie) (err : Error).

(** A plain [Error]: like an error of the driver, it is not an [AppError]. *)
Definition plainError (message : string) : Error := PgError message.

Section Controllers.

Variable NODE_ENV : option string.
Variable bcrypt_hash : string -> string -> option string.
Variable bcrypt_compare : string -> string -> option bool.
Variable jwt_sign : UserPayload -> string -> string -> string.
Variable jwt_verify_refresh : string -> Socket.Verified.
Variable JWT_SECRET : string.
Variable REFRESH_TOKEN_SECRET : string.

(** [hashPassword(password)], for the salt drawn. *)
Definition hashPassword (salt password : string) : Error + string :=
  match bcrypt_hash salt password with
  | Some hash => inr hash
  | None => inl (plainError "Password hashing failed.")
  end.

(** [comparePassword(password, hashedPassword)]. *)
Definition comparePassword (password hashedPassword : string) : Error + bool :=
  match bcrypt_compare password hashedPassword with
  | Some isMatch => inr isMatch
  | None => inl (plainError "Password comparison failed.")
  end.

Definition generateAccessToken (user : UserPayload) : string :=
  jwt_sign (mkUserPayload (id user) (username user)) JWT_SECRET "15m".

Definition generateRefreshToken (user : UserPayload) : string :=
  jwt_sign (mkUserPayload (id user) (username user)) REFRESH_TOKEN_SECRET "7d".

(** [process.env.NODE_ENV === 'production']. *)
Definition production : bool :=
  match NODE_ENV with
  | Some env => String.eqb env "production"
  | None => false
  end.

Definition accessTokenCookie (value : string) (maxAge : Z) : Cookie :=
  mkCookie "accessToken" value true production "/" maxAge
           (if production then "none" else "lax").

Definition refreshTokenCookie (value : string) (maxAge : Z) : Cookie :=
  mkCookie "refreshToken" value true production "/api/auth/refresh-token" maxAge
           (if production then "none" else "lax").

(** [register], for the two fields of [req.body], the salt that bcrypt
    draws and the id that the sequence of [users] issues. *)
Definition register (salt : string) (nextval : Z) (username password : Js.Value)
    (d : Database) : Database * Reply :=
  match username with
  | Js.Str name =>
      if negb (Js.truthy username) || (Js.strlen (Js.trim name) <? 3)
      then (d, handed [] (AppError 400
                  "Username must be a string and at least 3 characters long."))
      else
        match password with
        | Js.Str pw =>
            if negb (Js.truthy password) || (Js.strlen pw <? 6)
            then (d, handed [] (AppError 400
                        "Password must be a string and at least 6 characters long."))
            else
              match UserService.findUserByUsername name false d with
              | (d1, inl err) => (d1, handed [] err)
              | (d1, inr (Some existingUser)) =>
                  (d1, handed [] (AppError 409
                          "Username already taken. Please choose another."))
              | (d1, inr None) =>
                  match hashPassword salt pw with
                  | inl err => (d1, handed [] err)
                  | inr hashedPassword =>
                      match UserService.createUser nextval name hashedPassword d1 with
                      | (d2, inl err) => (d2, handed [] err)
                      | (d2, inr newUser) =>
                          (d2, answered [] 201
                                 (userCreated (Sql.a_id newUser) (Sql.a_username newUser)))
                      end
                  end
              end
        | _ => (d, handed [] (AppError 400
                      "Password must be a string and at least 6 characters long."))
        end
  | _ => (d, handed [] (AppError 400
                "Username must be a string and at least 3 characters long."))
  end.

(** [login], for the two fields of [req.body]. *)
Definition login (username password : Js.Value) (d : Database) : Database * Reply :=
  match username with
  | Js.Str name =>
      if negb (Js.truthy username) || String.eqb (Js.trim name) ""
      then (d, handed [] (AppError 400 "Username is required."))
      else
        match password with
        | Js.Str pw =>
            if negb (Js.truthy password) || String.eqb pw ""
            then (d, handed [] (AppError 400 "Password is required."))
            else
              match UserService.findUserByUsername name true d with
              | (d1, inl err) => (d1, handed [] err)
              | (d1, inr None) =>
                  (* [user.password_hash] of [undefined]: not reached, the
                     service throws when it finds nobody *)
                  (d1, handed [] (plainError
                          "Cannot read properties of undefined (reading 'password_hash')"))
              | (d1, inr (Some user)) =>
                  match comparePassword pw (u_password_hash user) with
                  | inl err => (d1, handed [] err)
                  | inr false =>
                      (d1, handed [] (AppError 401
                              "Invalid credentials. Please check username and password."))
                  | inr true =>
                      let payload := mkUserPayload (u_id user) (u_username user) in
                      let accessToken := generateAccessToken payload in
                      let refreshToken := generateRefreshToken payload in
                      (d1, answered [accessTokenCookie accessToken (15 * 60 * 1000);
                                     refreshTokenCookie refreshToken
                                       (7 * 24 * 60 * 60 * 1000)]
                                    200 (loggedIn (u_id user) (u_username user)))
                  end
              end
        | _ => (d, handed [] (AppError 400 "Password is required."))
        end
  | _ => (d, handed [] (AppError 400 "Username is required."))
  end.

(** [refreshTokenHandler], for the value of [req.cookies.refreshToken]. *)
Definition refreshTokenHandler (existingRefreshToken : option string) : Reply :=
  match existingRefreshToken with
  | None | Some EmptyString =>
      handed [] (AppError 401 "Refresh token not found. Please log in.")
  | Some token =>
      match jwt_verify_refresh token with
      | Socket.Thrown name =>
          handed [refreshTokenCookie "" 0]
                 (if String.eqb name "JsonWebTokenError" || String.eqb name "TokenExpiredError"
                  then AppError 403 "Invalid or expired refresh token. Please log in again."
                  else AppError 500 "Could not verify refresh token due to a server issue.")
      | Socket.Decoded decodedPayload =>
          let newAccessToken := generateAccessToken decodedPayload in
          answered [accessTokenCookie newAccessToken (15 * 60 * 1000)] 200 tokenRefreshed
      end
  end.

(** [logout]. *)
Definition logout : Reply :=
  answered [accessTokenCookie "" 0; refreshTokenCookie "" 0] 200 loggedOut.

End Controllers.

End AuthController.

(** ** A small database for the examples

    Three users; chat 7 is the direct chat of alice and bob, chat 8 a group
    of all three. *)

Module Sample.

Definition alice : User := mkUser 1 "alice" "$2b$10$a" 100.
Definition bob : User := mkUser 2 "bob" "$2b$10$b" 101.
Definition carol : User := mkUser 3 "carol" "$2b$10$c" 102.

Definition direct : Chat := mkChat 7 None false 200.
Definition group : Chat := mkChat 8 (Some "Lunch") true 201.

Definition store : Tables :=
  mkTables [alice; bob; carol]
           [direct; group]
           [mkParticipant 7 1; mkParticipant 7 2;
            mkParticipant 8 1; mkParticipant 8 2; mkParticipant 8 3]
           [].

Definition database : Database := mkDatabase store 8 0 300 None [].

(** A cookie header that consists of the [accessToken] cookie alone. *)
Definition accessTokenOf (cookieString : string) : option string :=
  if String.prefix "accessToken=" cookieString
  then Some (String.substring 12 (String.length cookieString - 12) cookieString)
  else None.

(** Three tokens that verify, one that has expired; everything else is
    malformed. *)
Definition jwt_verify (token : string) : Socket.Verified :=
  if String.eqb token "alice.jwt" then Socket.Decoded (mkUserPayload 1 "alice")
  else if String.eqb token "bob.jwt" then Socket.Decoded (mkUserPayload 2 "bob")
  else if String.eqb token "carol.jwt" then Socket.Decoded (mkUserPayload 3 "carol")
  else if String.eqb token "old.jwt" then Socket.Thrown "TokenExpiredError"
  else Socket.Thrown "JsonWebTokenError".

Definition step := Socket.step accessTokenOf jwt_verify.
Definition run := Socket.run accessTokenOf jwt_verify.

(** [{ chatId }], [{ chatId, content }] and [{ chatId, isTyping }]. *)
Definition chatOnly (chatId : Z) : option Socket.Payload :=
  Some (Socket.mkPayload (Js.Num chatId) Js.Undefined Js.Undefined).
Definition withContent (chatId : Z) (content : string) : option Socket.Payload :=
  Some (Socket.mkPayload (Js.Num chatId) (Js.Str content) Js.Undefined).
Definition withTyping (chatId : Z) (isTyping : bool) : option Socket.Payload :=
  Some (Socket.mkPayload (Js.Num chatId) Js.Undefined (Js.Bool isTyping)).

(** alice, bob and carol connect as sockets 0, 1 and 2; bob joins the room
    of chat 7 and carol the room of chat 8. *)
Definition session : list Socket.Input :=
  [Socket.Connect 0%nat (Some "accessToken=alice.jwt");
   Socket.Connect 1%nat (Some "accessToken=bob.jwt");
   Socket.Connect 2%nat (Some "accessToken=carol.jwt");
   Socket.Receive 1%nat (Socket.joinChat (chatOnly 7));
   Socket.Receive 2%nat (Socket.joinChat (chatOnly 8))].

Definition server : Socket.Server := run (Socket.boot database) session.

(** Then alice joins the room of chat 7 as well. *)
Definition server' : Socket.Server :=
  step server (Socket.Receive 0%nat (Socket.joinChat (chatOnly 7))).

(** Two orders that an [ORDER BY] of the server can produce: both sort by
    the key, and rows with equal keys come out as they are stored, or the
    other way round. *)
Definition ordered_by {A} (key : A -> Z) : relation A := fun a b => key a <= key b.

Global Instance ordered_by_dec {A} (key : A -> Z) (a b : A) :
  Decision (ordered_by key a b).
Proof. unfold ordered_by. apply _. Defined.

Definition order_stored_first {A} (key : A -> Z) (rows : list A) : list A :=
  merge_sort (ordered_by key) rows.


(** Chat 7 with ten messages, sent by alice and bob in turn at ten
    different times. *)
Definition ten_messages : list Message :=
  [mkMessage 1 7 1 "m1" 301; mkMessage 2 7 2 "m2" 302; mkMessage 3 7 1 "m3" 303;
   mkMessage 4 7 2 "m4" 304; mkMessage 5 7 1 "m5" 305; mkMessage 6 7 2 "m6" 306;
   mkMessage 7 7 1 "m7" 307; mkMessage 8 7 2 "m8" 308; mkMessage 9 7 1 "m9" 309;
   mkMessage 10 7 2 "m10" 310].

Definition history : Database :=
  mkDatabase (mkTables (users store) (chats store) (chat_participants store) ten_messages)
             8 10 311 None [].



(** Stand-ins for bcrypt and jsonwebtoken: the hash of a password is the
    password behind a prefix, whatever the salt, and a token is the
    username, a dot and the secret, so that ["alice.jwt"] is alice's access
    token and ["alice.refresh"] her refresh token. *)
Definition bcrypt_hash (salt password : string) : option string :=
  Some ("$2b$10$" +:+ password).

Definition bcrypt_compare (password hash : string) : option bool :=
  Some (String.eqb hash ("$2b$10$" +:+ password)).

Definition jwt_sign (payload : UserPayload) (secret expiresIn : string) : string :=
  username payload +:+ "." +:+ secret.

Definition jwt_verify_refresh (token : string) : Socket.Verified :=
  if String.eqb token "alice.refresh" then Socket.Decoded (mkUserPayload 1 "alice")
  else if String.eqb token "bob.refresh" then Socket.Decoded (mkUserPayload 2 "bob")
  else if String.eqb token "carol.refresh" then Socket.Decoded (mkUserPayload 3 "carol")
  else Socket.Thrown "JsonWebTokenError".

Definition register :=
  AuthController.register bcrypt_hash.

Definition login :=
  AuthController.login (Some "production") bcrypt_compare jwt_sign "jwt" "refresh".

Definition refreshTokenHandler :=
  AuthController.refreshTokenHandler (Some "production") jwt_sign jwt_verify_refresh "jwt".

End Sample.

(** ** The vocabulary of the properties *)

(** The database answers: no round trip is going to fail. *)
Definition healthy (d : Database) : Prop := faults d = [].

Definition chat_exists (chatId : Z) (t : Tables) : Prop :=
  ∃ c, c ∈ chats t ∧ c_id c = chatId.

Definition is_participant (userId chatId : Z) (t : Tables) : Prop :=
  mkParticipant chatId userId ∈ chat_participants t.

Definition user_exists (userId : Z) (t : Tables) : Prop :=
  ∃ u, u ∈ users t ∧ u_id u = userId.

(** [d'] differs from [d] at most in the round trips that are still going
    to fail. *)
Definition untouched (d d' : Database) : Prop :=
  tables d' = tables d ∧ in_tx d' = in_tx d ∧ clock d' = clock d
  ∧ chats_id_seq d' = chats_id_seq d ∧ messages_id_seq d' = messages_id_seq d.

(** A computation that reads: whatever it returns or throws, it leaves the
    database as it is, the round trips it used up aside. *)
Definition read_only {A} (m : M A) : Prop := ∀ d, untouched d (m d).1.

(** A computation that throws nothing but operational errors. *)
Definition operational_only {A} (m : M A) : Prop :=
  ∀ d e, (m d).2 = inl e -> isOperational e = true.

(** The tables after [createChat] has committed: the new chat row, and one
    participant row for each of [userIds], in their order. *)
Definition with_new_chat (userIds : list Z) (name : option string)
    (isGroupChat : bool) (d : Database) : Tables :=
  let newChat := mkChat (chats_id_seq d + 1) name isGroupChat (clock d) in
  fold_left (fun t userId => Sql.add_participant (mkParticipant (c_id newChat) userId) t)
            userIds (Sql.add_chat newChat (tables d)).

(** A broadcast that is scoped to the room of [chat]. *)
Definition scoped_to (chat : Z) (e : Socket.ServerEvent) : Prop :=
  match e with
  | Socket.newMessage m => ChatService.nm_chat_id m = chat
  | Socket.userTyping _ _ chatId _ => chatId = chat
  | _ => False
  end.

(** In the state [s], the input [i] is a [joinChat] of the socket [c] whose
    chat id the handler reads as [chat], and the membership guard lets it
    pass. *)
Definition accepted_join (s : Socket.Server) (c : Socket.SocketId) (chat : Z)
    (i : Socket.Input) : Prop :=
  ∃ data user,
    i = Socket.Receive c (Socket.joinChat data)
    ∧ Socket.sockets s !! c = Some user
    ∧ Socket.chatIdOf data = Some chat ∧ 0 < chat
    ∧ (ChatService.checkUserInChat (id user) chat true (Socket.db s)).2 = inr true.

Section Traces.

Variable accessTokenOf : string -> option string.
Variable jwt_verify : string -> Socket.Verified.

(** Somewhere in the trace that starts from [s0], the socket [c] issued a
    [joinChat] for [chat] that was accepted. *)
Definition joined (s0 : Socket.Server) (trace : list Socket.Input)
    (c : Socket.SocketId) (chat : Z) : Prop :=
  ∃ before i after,
    trace = before ++ i :: after
    ∧ accepted_join (Socket.run accessTokenOf jwt_verify s0 before) c chat i.

End Traces.

(** What the constraints of the schema keep true of the stored rows: the
    foreign keys of [chat_participants], and the sequences are ahead of the
    ids in use. *)
Record consistent (d : Database) : Prop := mkConsistent {
  participants_have_users :
    ∀ cp, cp ∈ chat_participants (tables d) -> user_exists (cp_user_id cp) (tables d);
  participants_have_chats :
    ∀ cp, cp ∈ chat_participants (tables d) -> chat_exists (cp_chat_id cp) (tables d);
  message_ids_issued :
    ∀ m, m ∈ messages (tables d) -> m_id m <= messages_id_seq d;
  chat_ids_issued :
    ∀ c, c ∈ chats (tables d) -> c_id c <= chats_id_seq d }.






(** * Properties *)

(** ** JavaScript primitives on concrete inputs *)

Example parseInt_7 : Js.parseInt (Js.Num 7) = Some 7.
Proof. reflexivity. Qed.
Example parseInt_7abc : Js.parseInt (Js.Str " 7abc") = Some 7.
Proof. reflexivity. Qed.
Example parseInt_abc : Js.parseInt (Js.Str "abc") = None.
Proof. reflexivity. Qed.
Example parseInt_neg : Js.parseInt (Js.Num (-12)) = Some (-12).
Proof. reflexivity. Qed.
Example chatIdOf_text :
  Socket.chatIdOf (Some (Socket.mkPayload (Js.Str "7abc") Js.Undefined Js.Undefined)) = Some 7
  ∧ Socket.chatIdOf (Some (Socket.mkPayload (Js.Num 0) Js.Undefined Js.Undefined)) = None
  ∧ Socket.chatIdOf (Some (Socket.mkPayload (Js.Str "abc") Js.Undefined Js.Undefined)) = None
  ∧ Socket.chatIdOf None = None.
Proof. repeat split. Qed.
Example trim_hi : Js.trim "  hi there 	" = "hi there".
Proof. reflexivity. Qed.

(** ** Running service code when the database answers *)

(** A text without the code unit 0, by looking at its characters. *)
Ltac solve_storable :=
  unfold Sql.storable; simpl;
  repeat (apply Forall_cons; split; [by vm_compute|]); apply Forall_nil_2.

Lemma run_bind {A B} (m : M A) (k : A -> M B) d :
  bind m k d = match m d with
               | (d', inr a) => k a d'
               | (d', inl e) => (d', inl e)
               end.
Proof. reflexivity. Qed.

Lemma roundTrip_healthy d : healthy d -> roundTrip d = (d, inr tt).
Proof. unfold healthy, roundTrip. intros ->. reflexivity. Qed.

Lemma query_healthy {A} (select : Tables -> A) d :
  healthy d -> query select d = (d, inr (select (tables d))).
Proof. intros H. unfold query, bind. rewrite roundTrip_healthy by done. reflexivity. Qed.

Lemma head_filter_None {A} (P : A -> Prop) `{!∀ x, Decision (P x)} (l : list A) :
  head (filter P l) = None <-> ∀ x, x ∈ l -> ¬ P x.
Proof.
  rewrite head_None. split.
  - intros E x Hx HP. assert (x ∈ filter P l) as Hin by (apply list_elem_of_filter; done).
    rewrite E in Hin. by apply not_elem_of_nil in Hin.
  - intros Hall. destruct (filter P l) as [|y l'] eqn:E; [done|].
    assert (y ∈ filter P l) as Hin by (rewrite E; left).
    apply list_elem_of_filter in Hin as [HP Hy]. by destruct (Hall y Hy).
Qed.

Lemma chats_by_id_head chatId t :
  is_Some (head (Sql.chats_by_id chatId t)) <-> chat_exists chatId t.
Proof.
  unfold Sql.chats_by_id, chat_exists. split.
  - intros [c Hc]. apply head_Some_elem_of in Hc.
    apply list_elem_of_filter in Hc as [? ?]. eauto.
  - intros (c & Hin & Hid).
    destruct (head (filter (λ c0, c_id c0 = chatId) (chats t))) eqn:E; [eauto|].
    pose proof (proj1 (head_filter_None _ _) E) as Hnone. by destruct (Hnone c Hin).
Qed.

Lemma participant_rows_nonempty userId chatId t :
  (0 < length (Sql.participant_rows userId chatId t))%nat <-> is_participant userId chatId t.
Proof.
  unfold Sql.participant_rows, is_participant. split.
  - destruct (filter _ _) as [|cp l] eqn:E; simpl; [lia|]. intros _.
    assert (cp ∈ filter (λ cp, cp_user_id cp = userId ∧ cp_chat_id cp = chatId)
                        (chat_participants t)) as Hin by (rewrite E; left).
    apply list_elem_of_filter in Hin as [[? ?] Hin]. destruct cp; simpl in *; by subst.
  - intros Hin.
    assert (mkParticipant chatId userId
              ∈ filter (λ cp, cp_user_id cp = userId ∧ cp_chat_id cp = chatId)
                       (chat_participants t)) as H
      by (apply list_elem_of_filter; done).
    destruct (filter _ _); [by apply not_elem_of_nil in H | simpl; lia].
Qed.

(** What the statement of [findChatById] gives. *)
Lemma chat_by_id_head chatId t :
  Sql.chat_by_id chatId t
  = match head (Sql.chats_by_id chatId t) with
    | Some _ => inr (Sql.chats_by_id chatId t)
    | None => if bool_decide (Sql.int4 chatId) then inr []
              else inl (PgError "value is out of range for type integer")
    end.
Proof.
  unfold Sql.chat_by_id. destruct (Sql.chats_by_id chatId t) as [|c l] eqn:E; simpl.
  - repeat case_bool_decide; try done; naive_solver.
  - rewrite bool_decide_eq_true_2 by (right; done). done.
Qed.

(** [findChatById(chatId, true)] on a database that answers. *)
Lemma findChatById_strict chatId d :
  healthy d ->
  ChatService.findChatById chatId true d =
    (d, match head (Sql.chats_by_id chatId (tables d)) with
        | Some c => inr (Some c)
        | None =>
            if bool_decide (Sql.int4 chatId)
            then inl (AppError 404 ("Chat with ID " +:+ Js.numToString chatId +:+ " not found."))
            else inl (AppError 500 "Could not find chat due to a server error.")
        end).
Proof.
  intros H. unfold ChatService.findChatById, tryCatch, bind.
  rewrite query_healthy by done. rewrite chat_by_id_head.
  destruct (head (Sql.chats_by_id chatId (tables d))) as [c|] eqn:E.
  - rewrite E. rewrite bool_decide_eq_true_2 by eauto. reflexivity.
  - case_bool_decide; reflexivity.
Qed.

(** [checkUserInChat(userId, chatId, true)] on a database that answers. *)
Lemma checkUserInChat_strict userId chatId d :
  healthy d ->
  ChatService.checkUserInChat userId chatId true d =
    (d, match head (Sql.chats_by_id chatId (tables d)) with
        | None =>
            if bool_decide (Sql.int4 chatId)
            then inl (AppError 404 ("Chat with ID " +:+ Js.numToString chatId +:+ " not found."))
            else inl (AppError 500 "Could not find chat due to a server error.")
        | Some _ =>
            if bool_decide (0 < length (Sql.participant_rows userId chatId (tables d)))%nat
            then inr true
            else inl (AppError 403 "Access denied. You are not a participant in this chat.")
        end).
Proof.
  intros H. unfold ChatService.checkUserInChat, bind.
  rewrite findChatById_strict by done.
  destruct (head (Sql.chats_by_id chatId (tables d))); [|case_bool_decide; reflexivity].
  unfold tryCatch, bind. rewrite query_healthy by done.
  case_bool_decide; reflexivity.
Qed.

(** ** The membership guard *)

(** C1, as amended.  On a database that answers, the strict guard
    [checkUserInChat(userId, chatId, true)] succeeds exactly when the chat
    exists and the row [(chatId, userId)] is in [chat_participants], and then
    it returns [true]; it fails with 403 when the chat exists without such a
    row.  When the chat does not exist, whatever the participants table
    holds, it fails with 404 for a chat id within the range of INTEGER, but
    with 500 for a chat id beyond that range: the server rejects the
    statement of [findChatById], and the catch clause makes a server error
    of it.  The guard changes nothing in the database. *)
Theorem checkUserInChat_guard (userId chatId : Z) (d : Database) :
  healthy d ->
  let r := ChatService.checkUserInChat userId chatId true d in
  r.1 = d
  ∧ ((∃ b, r.2 = inr b) <-> chat_exists chatId (tables d) ∧ is_participant userId chatId (tables d))
  ∧ (∀ b, r.2 = inr b -> b = true)
  ∧ (¬ chat_exists chatId (tables d) -> Sql.int4 chatId ->
     r.2 = inl (AppError 404 ("Chat with ID " +:+ Js.numToString chatId +:+ " not found.")))
  ∧ (¬ chat_exists chatId (tables d) -> ¬ Sql.int4 chatId ->
     r.2 = inl (AppError 500 "Could not find chat due to a server error."))
  ∧ (chat_exists chatId (tables d) -> ¬ is_participant userId chatId (tables d) ->
     r.2 = inl (AppError 403 "Access denied. You are not a participant in this chat.")).
Proof.
  intros H r. subst r. rewrite checkUserInChat_strict by done. simpl.
  pose proof (chats_by_id_head chatId (tables d)) as Hc.
  pose proof (participant_rows_nonempty userId chatId (tables d)) as Hp.
  split; [reflexivity|].
  destruct (head (Sql.chats_by_id chatId (tables d))) as [c|].
  - assert (chat_exists chatId (tables d)) as Hex by (apply Hc; eauto).
    case_bool_decide as Hlen.
    + split; [split; [tauto | eauto] |].
      split; [congruence |]. repeat split; tauto.
    + split; [split; [intros [b ?]; done | tauto] |].
      split; [congruence |]. split; [tauto |]. split; [tauto | done].
  - assert (¬ chat_exists chatId (tables d)) as Hex.
    { intros Hx. apply Hc in Hx as [? ?]. done. }
    case_bool_decide as Hrange.
    + split; [split; [intros [b ?]; done | tauto] |].
      split; [congruence |]. split; [done |]. split; tauto.
    + split; [split; [intros [b ?]; done | tauto] |].
      split; [congruence |]. split; [tauto |]. split; [done | tauto].
Qed.

Lemma checkUserInChat_guard_witness :
  healthy Sample.database
  ∧ ¬ chat_exists 2147483648 (tables Sample.database)
  ∧ ¬ Sql.int4 2147483648
  ∧ (ChatService.checkUserInChat 1 2147483648 true Sample.database).2
    = inl (AppError 500 "Could not find chat due to a server error.")
  ∧ ∃ b, (ChatService.checkUserInChat 1 7 true Sample.database).2 = inr b.
Proof.
  assert (¬ chat_exists 2147483648 (tables Sample.database)) as Hno.
  { intros (c & Hin & Hid). simpl in Hin. unfold Sample.store in Hin. simpl in Hin.
    apply elem_of_cons in Hin as [->|Hin]; [done|].
    apply list_elem_of_singleton in Hin as ->. done. }
  assert (¬ Sql.int4 2147483648) as Hrange by (unfold Sql.int4; lia).
  split; [reflexivity|]. split; [exact Hno|]. split; [exact Hrange|]. split.
  - destruct (checkUserInChat_guard 1 2147483648 Sample.database eq_refl)
      as (_ & _ & _ & _ & H500 & _).
    exact (H500 Hno Hrange).
  - destruct (checkUserInChat_guard 1 7 Sample.database eq_refl) as (_ & Hiff & _).
    apply Hiff. split.
    + exists Sample.direct. split; [left | reflexivity].
    + left.
Defined.

(** C1, as stated, fails: 2147483648 is the id of no chat, and on a database
    that answers the guard fails for it with a 500, not with a 404. *)
Lemma checkUserInChat_beyond_integer :
  healthy Sample.database
  ∧ ¬ chat_exists 2147483648 (tables Sample.database)
  ∧ ChatService.checkUserInChat 1 2147483648 true Sample.database
    = (Sample.database, inl (AppError 500 "Could not find chat due to a server error."))
  ∧ (ChatService.checkUserInChat 1 2147483648 true Sample.database).2
    ≠ inl (AppError 404 ("Chat with ID " +:+ Js.numToString 2147483648 +:+ " not found.")).
Proof.
  split; [reflexivity|]. split; [|split; [vm_compute; reflexivity | vm_compute; done]].
  intros (c & Hin & Hid). simpl in Hin. unfold Sample.store in Hin. simpl in Hin.
  apply elem_of_cons in Hin as [->|Hin]; [done|].
  apply list_elem_of_singleton in Hin as ->. done.
Qed.

(** When the database does not answer, the guard fails with a 500 and lets
    nobody through. *)
Example checkUserInChat_database_down :
  (ChatService.checkUserInChat 1 7 true (set_faults [true] Sample.database)).2
  = inl (AppError 500 "Could not find chat due to a server error.")
  ∧ (ChatService.checkUserInChat 1 7 true (set_faults [false; true] Sample.database)).2
    = inl (AppError 500 "Error verifying chat participation.").
Proof. split; reflexivity. Qed.

(** ** Chat creation *)

Lemma untouched_refl d : untouched d d.
Proof. by repeat split. Qed.

Lemma untouched_trans d1 d2 d3 : untouched d1 d2 -> untouched d2 d3 -> untouched d1 d3.
Proof. unfold untouched. intros (?&?&?&?&?) (?&?&?&?&?). repeat split; congruence. Qed.

Lemma roundTrip_untouched d : untouched d (roundTrip d).1.
Proof.
  unfold roundTrip. destruct (faults d) as [|[] f]; simpl; by repeat split.
Qed.

Lemma query_untouched {A} (select : Tables -> A) d : untouched d (query select d).1.
Proof.
  unfold query, bind. pose proof (roundTrip_untouched d) as H.
  destruct (roundTrip d) as [d' [e|[]]]; exact H.
Qed.

Lemma rethrowOr500_state {A} message error d :
  (@rethrowOr500 A message error d).1 = d.
Proof. unfold rethrowOr500. by destruct (isAppError error). Qed.

Lemma findUserById_untouched userId expectUser d :
  untouched d (UserService.findUserById userId expectUser d).1.
Proof.
  unfold UserService.findUserById, tryCatch, bind.
  pose proof (query_untouched (Sql.users_by_id userId) d) as H.
  destruct (query (Sql.users_by_id userId) d) as [d' [e|rows]]; simpl in *.
  - by rewrite rethrowOr500_state.
  - destruct (negb _ && expectUser); exact H.
Qed.

Lemma forEach_findUserById_untouched userIds d :
  untouched d
    (forEach userIds
       (fun userId => await UserService.findUserById userId true in ret tt) d).1.
Proof.
  revert d. induction userIds as [|u us IH]; intros d; simpl.
  - apply untouched_refl.
  - rewrite !run_bind.
    pose proof (findUserById_untouched u true d) as H.
    destruct (UserService.findUserById u true d) as [d' [e|o]]; simpl in *; [exact H|].
    eapply untouched_trans; [exact H | apply IH].
Qed.

(** Inside a transaction an INSERT on the client changes the working copy
    only. *)
Lemma insert_chat_in_tx name isGroupChat d w :
  in_tx d = Some w ->
  let r := Pg.insert_chat name isGroupChat d in
  tables r.1 = tables d ∧ clock r.1 = clock d
  ∧ match r.2 with
    | inr newChat =>
        ∃ stored,
          Sql.stored_name name = Some stored
          ∧ newChat = mkChat (chats_id_seq d + 1) stored isGroupChat (clock d)
          ∧ in_tx r.1 = Some (Sql.add_chat newChat w)
    | inl _ => True
    end.
Proof.
  intros Htx. unfold Pg.insert_chat, bind.
  pose proof (roundTrip_untouched d) as (Ht & Hx & Hc & Hs & _).
  destruct (roundTrip d) as [d' [e|[]]]; simpl in *; [done|].
  destruct (Sql.stored_name name) as [stored|]; simpl; [|done].
  unfold Pg.view, Pg.write. simpl. rewrite Hx, Htx. simpl.
  destruct (Sql.chat_admissible _ _); simpl; [|done].
  rewrite Hs, Hc. split; [done|]. split; [done|]. by exists stored.
Qed.

Lemma insert_participant_in_tx chatId userId d w :
  in_tx d = Some w ->
  let r := Pg.insert_participant chatId userId d in
  tables r.1 = tables d ∧ clock r.1 = clock d
  ∧ match r.2 with
    | inr _ => in_tx r.1 = Some (Sql.add_participant (mkParticipant chatId userId) w)
    | inl _ => True
    end.
Proof.
  intros Htx. unfold Pg.insert_participant, bind.
  pose proof (roundTrip_untouched d) as (Ht & Hx & Hc & Hs & _).
  destruct (roundTrip d) as [d' [e|[]]]; simpl in *; [done|].
  unfold Pg.view, Pg.write. simpl. rewrite ?Hx, ?Htx. simpl.
  destruct (Sql.participant_admissible _ _ _); simpl; [|done].
  by rewrite ?Hx, ?Htx.
Qed.

Lemma forEach_insert_participant_in_tx chatId userIds d w :
  in_tx d = Some w ->
  let r := forEach userIds (fun userId => Pg.insert_participant chatId userId) d in
  tables r.1 = tables d ∧ clock r.1 = clock d
  ∧ match r.2 with
    | inr _ =>
        in_tx r.1 =
          Some (fold_left (fun t userId => Sql.add_participant (mkParticipant chatId userId) t)
                          userIds w)
    | inl _ => True
    end.
Proof.
  revert d w. induction userIds as [|u us IH]; intros d w Htx; simpl.
  - done.
  - rewrite run_bind.
    pose proof (insert_participant_in_tx chatId u d w Htx) as (Ht & Hc & Hr).
    destruct (Pg.insert_participant chatId u d) as [d' [e|[]]]; simpl in *; [tauto|].
    specialize (IH d' _ Hr) as (Ht' & Hc' & Hr'). simpl in *.
    split; [congruence|]. split; [congruence|]. exact Hr'.
Qed.

Lemma rollback_run d :
  tables (Pg.rollback d).1 = tables d
  ∧ ((∃ m, (Pg.rollback d).2 = inl (PgError m)) ∨ (Pg.rollback d).2 = inr tt).
Proof.
  unfold Pg.rollback. rewrite run_bind.
  pose proof (roundTrip_untouched d) as (Ht & _).
  unfold roundTrip in *. destruct (faults d) as [|[] f]; simpl in *; eauto.
Qed.

Lemma commit_run d w :
  in_tx d = Some w ->
  match (Pg.commit d).2 with
  | inr _ => tables (Pg.commit d).1 = w
  | inl _ => tables (Pg.commit d).1 = tables d
  end.
Proof.
  intros Htx. unfold Pg.commit. rewrite run_bind.
  pose proof (roundTrip_untouched d) as (Ht & Hx & _).
  destruct (roundTrip d) as [d' [e|[]]]; simpl in *; [done|].
  rewrite Hx, Htx. reflexivity.
Qed.

Lemma begin_run d :
  tables (Pg.begin d).1 = tables d ∧ clock (Pg.begin d).1 = clock d
  ∧ chats_id_seq (Pg.begin d).1 = chats_id_seq d
  ∧ match (Pg.begin d).2 with
    | inr _ => in_tx (Pg.begin d).1 = Some (tables d)
    | inl _ => True
    end.
Proof.
  unfold Pg.begin. rewrite run_bind.
  pose proof (roundTrip_untouched d) as (Ht & Hx & Hc & Hs & _).
  destruct (roundTrip d) as [d' [e|[]]]; simpl in *; [done|].
  by rewrite Ht.
Qed.

Lemma getUserChatsWithParticipants_run chatId currentUserId d :
  let r := ChatService.getUserChatsWithParticipants chatId currentUserId d in
  tables r.1 = tables d
  ∧ match r.2 with
    | inr _ => True
    | inl e => e = AppError 500 "Could not retrieve detailed chat information."
    end.
Proof.
  unfold ChatService.getUserChatsWithParticipants, tryCatch.
  pose proof (query_untouched (Sql.chat_details chatId currentUserId) d) as (Ht & _).
  destruct (query _ d) as [d' [e|rows]]; simpl in *; done.
Qed.

Lemma createChat_outcomes userIds name isGroupChat d :
  in_tx d = None ->
  let r := ChatService.createChat userIds name isGroupChat d in
  match r.2 with
  | inr _ =>
      ∃ stored, Sql.stored_name name = Some stored
                ∧ tables r.1 = with_new_chat userIds stored isGroupChat d
  | inl e =>
      tables r.1 = tables d
      ∨ (∃ stored, Sql.stored_name name = Some stored
                   ∧ tables r.1 = with_new_chat userIds stored isGroupChat d
                   ∧ (e = AppError 500 "Could not retrieve detailed chat information."
                      ∨ ∃ m, e = PgError m))
  end.
Proof.
  intros Htx. unfold ChatService.createChat, Pg.connect. rewrite run_bind.
  pose proof (roundTrip_untouched d) as (Ht0 & Hx0 & Hc0 & Hs0 & _).
  destruct (roundTrip d) as [d0 [e|[]]]; simpl in *; [by left|].
  unfold tryFinally, tryCatch.
  match goal with |- context [ let (_, _) := ?body d0 in _ ] => set (b := body) end.
  assert (match (b d0).2 with
          | inr _ =>
              ∃ stored, Sql.stored_name name = Some stored
                        ∧ tables (b d0).1 = with_new_chat userIds stored isGroupChat d
          | inl e =>
              tables (b d0).1 = tables d
              ∨ (∃ stored, Sql.stored_name name = Some stored
                   ∧ tables (b d0).1 = with_new_chat userIds stored isGroupChat d
                   ∧ e = AppError 500 "Could not retrieve detailed chat information.")
          end) as Hb.
  { subst b. rewrite run_bind.
    pose proof (begin_run d0) as (Ht1 & Hc1 & Hs1 & Hx1).
    destruct (Pg.begin d0) as [d1 [e|[]]]; simpl in *; [left; congruence|].
    rewrite run_bind.
    pose proof (forEach_findUserById_untouched userIds d1) as (Ht2 & Hx2 & Hc2 & Hs2 & _).
    destruct (forEach userIds _ d1) as [d2 [e|[]]]; simpl in *; [left; congruence|].
    rewrite run_bind.
    assert (in_tx d2 = Some (tables d)) as Hin2 by congruence.
    pose proof (insert_chat_in_tx name isGroupChat d2 _ Hin2) as (Ht3 & Hc3 & Hr3).
    destruct (Pg.insert_chat name isGroupChat d2) as [d3 [e|newChat]]; simpl in *;
      [left; congruence|].
    destruct Hr3 as (stored & Hstored & HnewChat & Hin3).
    rewrite run_bind.
    pose proof (forEach_insert_participant_in_tx (c_id newChat) userIds d3 _ Hin3)
      as (Ht4 & Hc4 & Hr4).
    destruct (forEach userIds _ d3) as [d4 [e|[]]]; simpl in *; [left; congruence|].
    rewrite run_bind.
    pose proof (commit_run d4 _ Hr4) as Hcommit.
    assert (fold_left
              (λ t userId, Sql.add_participant (mkParticipant (c_id newChat) userId) t)
              userIds (Sql.add_chat newChat (tables d))
            = with_new_chat userIds stored isGroupChat d) as HW.
    { unfold with_new_chat. subst newChat. simpl.
      replace (chats_id_seq d2) with (chats_id_seq d) by congruence.
      replace (clock d2) with (clock d) by congruence. reflexivity. }
    destruct (Pg.commit d4) as [d5 [e|[]]]; simpl in *; [left; congruence|].
    rewrite run_bind.
    pose proof (getUserChatsWithParticipants_run (c_id newChat) (head userIds) d5)
      as (Ht6 & Hr6).
    destruct (ChatService.getUserChatsWithParticipants _ _ d5) as [d6 [e|rows]];
      simpl in *.
    - right. exists stored. split; [done|]. split; [congruence | exact Hr6].
    - exists stored. split; [done | congruence]. }
  destruct (b d0) as [d1 [e|a]]; simpl in *; [|exact Hb].
  rewrite run_bind.
  pose proof (rollback_run d1) as (Hrt & Hrr).
  destruct (Pg.rollback d1) as [d2 [e2|[]]]; simpl in *.
  - destruct Hrr as [[m Hm]|?]; [|done]. injection Hm as ->.
    destruct Hb as [Hb|(stored & Hstored & Hb & _)];
      [left | right; exists stored; split; [done|]; split; eauto]; congruence.
  - unfold rethrowOr500. destruct Hb as [Hb|(stored & Hstored & Hb & ->)]; simpl.
    + destruct (isAppError e); simpl; left; congruence.
    + right. exists stored. split; [done|]. split; [congruence | by left].
Qed.

(** Whatever fails, [createChat] leaves either the tables it found or the
    complete new chat: no state in between is ever committed. *)
Lemma createChat_all_or_nothing userIds name isGroupChat d :
  in_tx d = None ->
  let r := ChatService.createChat userIds name isGroupChat d in
  tables r.1 = tables d
  ∨ ∃ stored, Sql.stored_name name = Some stored
              ∧ tables r.1 = with_new_chat userIds stored isGroupChat d.
Proof.
  intros Htx. pose proof (createChat_outcomes userIds name isGroupChat d Htx) as H.
  simpl in *. destruct (ChatService.createChat userIds name isGroupChat d) as [d' [e|a]];
    simpl in *; [destruct H as [?|(stored & ? & ? & _)]|]; eauto.
Qed.

(** A failure with a 4xx error, such as the 404 of a user id that does not
    resolve, leaves the tables as they were. *)
Lemma createChat_client_error userIds name isGroupChat d status message :
  in_tx d = None ->
  let r := ChatService.createChat userIds name isGroupChat d in
  r.2 = inl (AppError status message) -> status ≠ 500 ->
  tables r.1 = tables d.
Proof.
  intros Htx. pose proof (createChat_outcomes userIds name isGroupChat d Htx) as H.
  simpl in *. destruct (ChatService.createChat userIds name isGroupChat d) as [d' [e|a]];
    simpl in *; intros Hr Hs; [|done].
  injection Hr as ->. destruct H as [?|(_ & _ & _ & [H|[m H]])]; [done| |done].
  injection H as -> _. done.
Qed.

Lemma findUserById_strict userId d :
  healthy d ->
  UserService.findUserById userId true d =
    (d, match head (Sql.users_by_id userId (tables d)) with
        | Some u => inr (Some u)
        | None => inl (AppError 404 ("User with ID " +:+ Js.numToString userId +:+ " not found."))
        end).
Proof.
  intros H. unfold UserService.findUserById, tryCatch. rewrite run_bind.
  rewrite query_healthy by done.
  destruct (head (Sql.users_by_id userId (tables d))) as [u|] eqn:E.
  - rewrite bool_decide_eq_true_2 by eauto. reflexivity.
  - rewrite bool_decide_eq_false_2 by (intros [? ?]; done). reflexivity.
Qed.

Lemma users_by_id_head userId t :
  is_Some (head (Sql.users_by_id userId t)) <-> user_exists userId t.
Proof.
  unfold Sql.users_by_id, user_exists. split.
  - intros [u Hu]. apply head_Some_elem_of in Hu.
    apply list_elem_of_filter in Hu as [? ?]. eauto.
  - intros (u & Hin & Hid).
    destruct (head (filter (λ u0, u_id u0 = userId) (users t))) eqn:E; [eauto|].
    pose proof (proj1 (head_filter_None _ _) E) as Hnone. by destruct (Hnone u Hin).
Qed.

(** On a database that answers, a user id of the list that does not resolve
    makes [createChat] fail with the 404 of the first such id. *)
Lemma createChat_unknown_user userIds name isGroupChat d :
  healthy d -> in_tx d = None ->
  (∃ userId, userId ∈ userIds ∧ ¬ user_exists userId (tables d)) ->
  let r := ChatService.createChat userIds name isGroupChat d in
  tables r.1 = tables d
  ∧ ∃ userId, userId ∈ userIds ∧ ¬ user_exists userId (tables d)
      ∧ r.2 = inl (AppError 404 ("User with ID " +:+ Js.numToString userId +:+ " not found.")).
Proof.
  intros Hh Htx Hex r.
  assert (∃ userId, userId ∈ userIds ∧ ¬ user_exists userId (tables d)
            ∧ r.2 = inl (AppError 404 ("User with ID " +:+ Js.numToString userId +:+ " not found.")))
    as (u & Hin & Hu & Hr); [|split; [|eauto]].
  2:{ eapply createChat_client_error; [done | exact Hr | done]. }
  subst r. unfold ChatService.createChat, Pg.connect. rewrite run_bind.
  rewrite roundTrip_healthy by done. unfold tryFinally, tryCatch.
  rewrite run_bind. unfold Pg.begin at 1. rewrite run_bind, roundTrip_healthy by done.
  set (d1 := set_in_tx (Some (tables d)) d).
  assert (healthy d1) as Hh1 by exact Hh.
  assert (tables d1 = tables d) as Ht1 by reflexivity.
  rewrite run_bind.
  assert (∀ d', healthy d' -> tables d' = tables d ->
            (∃ userId, userId ∈ userIds ∧ ¬ user_exists userId (tables d)) ->
            ∃ userId, userId ∈ userIds ∧ ¬ user_exists userId (tables d)
              ∧ forEach userIds
                  (λ userId, await UserService.findUserById userId true in ret ()) d'
                = (d', inl (AppError 404 ("User with ID " +:+ Js.numToString userId
                                            +:+ " not found.")))) as Hloop.
  { clear. induction userIds as [|u us IH]; intros d' Hh Ht (u0 & Hin & Hno).
    - by apply not_elem_of_nil in Hin.
    - simpl. rewrite !run_bind, findUserById_strict by done.
      pose proof (users_by_id_head u (tables d')) as Hu. rewrite Ht in Hu.
      rewrite Ht.
      destruct (head (Sql.users_by_id u (tables d))) as [x|].
      + assert (user_exists u (tables d)) as Hex by (apply Hu; eauto).
        assert (u0 ∈ us) as Hin'.
        { apply elem_of_cons in Hin as [->|?]; [by destruct Hno | done]. }
        simpl. destruct (IH d' Hh Ht) as (u1 & ? & ? & ?); [eauto|].
        exists u1. split; [by right|]. done.
      + exists u. split; [left|]. split; [|done].
        intros Hx. apply Hu in Hx as [? ?]. done. }
  destruct (Hloop d1 Hh1 Ht1 Hex) as (u & Hin & Hu & ->).
  exists u. split; [done|]. split; [done|]. simpl.
  rewrite run_bind. unfold Pg.rollback. rewrite run_bind, roundTrip_healthy by done.
  reflexivity.
Qed.

(** C2.  The database answers every round trip of [createChat([1, 2], null,
    false)] but the last one, the query for the details of the new chat,
    which comes after COMMIT.  The call fails with a 500, and the chat row 9
    and its two participant rows are in the tables although they were not
    before the call. *)
Theorem createChat_fails_after_commit :
  let d := set_faults (replicate 8 false ++ [true]) Sample.database in
  let r := ChatService.createChat [1; 2] None false d in
  r.2 = inl (AppError 500 "Could not retrieve detailed chat information.")
  ∧ Sql.chats_by_id 9 (tables d) = []
  ∧ Sql.chats_by_id 9 (tables r.1) = [mkChat 9 None false 300]
  ∧ filter (fun cp => cp_chat_id cp = 9) (chat_participants (tables r.1))
    = [mkParticipant 9 1; mkParticipant 9 2].
Proof. vm_compute. repeat split. Qed.

(** ** The rooms *)

Lemma room_join c chat r s :
  Socket.room r (Socket.join c chat s)
  = if decide (chat = r) then {[c]} ∪ Socket.room r s else Socket.room r s.
Proof.
  unfold Socket.room, Socket.join. simpl. case_decide as E.
  - subst. by rewrite lookup_total_insert_eq.
  - by rewrite lookup_total_insert_ne.
Qed.

Lemma room_leave c chat r s :
  Socket.room r (Socket.leave c chat s)
  = if decide (chat = r) then Socket.room r s ∖ {[c]} else Socket.room r s.
Proof.
  unfold Socket.room, Socket.leave. simpl. case_decide as E.
  - subst. by rewrite lookup_total_insert_eq.
  - by rewrite lookup_total_insert_ne.
Qed.

Lemma room_leaveAll c r s :
  Socket.room r (Socket.leaveAll c s) = Socket.room r s ∖ {[c]}.
Proof.
  unfold Socket.room, Socket.leaveAll. simpl.
  rewrite !lookup_total_alt, lookup_fmap.
  destruct (Socket.rooms s !! r); simpl; [done | set_solver].
Qed.

Lemma elem_of_deliveries (c : Socket.SocketId) (e e' : Socket.ServerEvent)
    (members : gset Socket.SocketId) :
  (c, e) ∈ map (fun c' => (c', e')) (elements members) <-> e = e' ∧ c ∈ members.
Proof.
  rewrite list_elem_of_In, in_map_iff. split.
  - intros (c' & [= -> ->] & Hin). apply list_elem_of_In, elem_of_elements in Hin. done.
  - intros [-> Hin]. exists c. split; [done|]. by apply list_elem_of_In, elem_of_elements.
Qed.

Section Session.

Variable accessTokenOf : string -> option string.
Variable jwt_verify : string -> Socket.Verified.

Local Abbreviation step := (Socket.step accessTokenOf jwt_verify).
Local Abbreviation run := (Socket.run accessTokenOf jwt_verify).

(** C9.  A [leaveChat] of a connected socket whose chat id the handler reads
    as a positive integer is always confirmed by one [chatLeft] to that
    socket.  The handler asks the database nothing (so neither membership nor
    the existence of the chat matters, and the database is as before), the
    socket is out of the room afterwards whether or not it was in it, and
    every other socket is in exactly the rooms it was in. *)
Theorem leaveChat_confirmed (s : Socket.Server) (c : Socket.SocketId)
    (user : UserPayload) (data : option Socket.Payload) (chat : Z) :
  Socket.sockets s !! c = Some user ->
  Socket.chatIdOf data = Some chat -> 0 < chat ->
  let s' := step s (Socket.Receive c (Socket.leaveChat data)) in
  Socket.outbox s'
  = Socket.outbox s
    ++ [(c, Socket.chatLeft chat ("Successfully left chat " +:+ Js.numToString chat))]
  ∧ Socket.db s' = Socket.db s
  ∧ Socket.sockets s' = Socket.sockets s
  ∧ (c ∉ Socket.room chat s')
  ∧ (∀ c' r, c' ≠ c -> (c' ∈ Socket.room r s' <-> c' ∈ Socket.room r s))
  ∧ (∀ r, r ≠ chat -> Socket.room r s' = Socket.room r s).
Proof.
  intros Hc Hid Hpos. simpl. rewrite Hc. unfold Socket.onLeaveChat. rewrite Hid. simpl.
  replace (chat <=? 0) with false by lia. simpl.
  split; [done|]. split; [done|]. split; [done|].
  change (Socket.room ?r (Socket.emit _ _ ?x)) with (Socket.room r x).
  split; [|split].
  - rewrite room_leave. rewrite decide_True by done. set_solver.
  - intros c' r Hne. rewrite room_leave. case_decide; set_solver.
  - intros r Hne. rewrite room_leave. by rewrite decide_False.
Qed.

(** C5.  An accepted [typing] is delivered as [userTyping] to the sockets
    of the room other than the emitting one, and to nobody else: the
    emitting socket never gets its own echo.  The [newMessage] of a
    [sendMessage] whose message was created is delivered to every socket of
    the room, the sending one included when it is in the room. *)
Theorem broadcast_asymmetry (s : Socket.Server) (c : Socket.SocketId)
    (user : UserPayload) (data : option Socket.Payload) (chat : Z) :
  Socket.sockets s !! c = Some user ->
  Socket.chatIdOf data = Some chat -> 0 < chat ->
  (∀ b, Socket.isTypingOf data = Some b ->
     let e := Socket.userTyping (id user) (username user) chat b in
     ∃ news,
       Socket.outbox (step s (Socket.Receive c (Socket.typing data)))
       = Socket.outbox s ++ news
       ∧ (∀ c' e', (c', e') ∈ news <-> e' = e ∧ c' ∈ Socket.room chat s ∧ c' ≠ c)
       ∧ (∀ e', (c, e') ∉ news))
  ∧ (∀ text d m,
       Socket.contentOf data = Some text -> text ≠ "" -> Js.strlen text <= 2000 ->
       ChatService.createMessage chat (id user) text (Socket.db s) = (d, inr m) ->
       ∃ news,
         Socket.outbox (step s (Socket.Receive c (Socket.sendMessage data)))
         = Socket.outbox s ++ news
         ∧ (∀ c' e', (c', e') ∈ news <-> e' = Socket.newMessage m ∧ c' ∈ Socket.room chat s)
         ∧ (c ∈ Socket.room chat s -> (c, Socket.newMessage m) ∈ news)).
Proof.
  intros Hc Hid Hpos. split.
  - intros b Hb e. simpl. rewrite Hc. unfold Socket.onTyping. rewrite Hb, Hid. simpl.
    replace (chat <=? 0) with false by lia.
    eexists. split; [reflexivity|]. split.
    + intros c' e'. rewrite elem_of_deliveries. set_solver.
    + intros e'. rewrite elem_of_deliveries. set_solver.
  - intros text d m Htext Hne Hlen Hm. simpl. rewrite Hc. unfold Socket.onSendMessage.
    rewrite Hid, Htext. simpl. replace (chat <=? 0) with false by lia.
    destruct text as [|a text]; [done|].
    replace (2000 <? Js.strlen (String a text)) with false by lia.
    rewrite Hm. eexists. split; [reflexivity|].
    change (Socket.room chat (Socket.set_db d s)) with (Socket.room chat s).
    split.
    + intros c' e'. by rewrite elem_of_deliveries.
    + intros Hin. by apply elem_of_deliveries.
Qed.

Lemma checkUserInChat_true userId chatId d d' b :
  ChatService.checkUserInChat userId chatId true d = (d', inr b) -> b = true.
Proof.
  unfold ChatService.checkUserInChat. rewrite run_bind.
  destruct (ChatService.findChatById chatId true d) as [d1 [e|o]]; [done|].
  unfold tryCatch. rewrite run_bind.
  destruct (query (Sql.participant_rows userId chatId) d1) as [d2 [e|rows]]; simpl.
  - unfold rethrowOr500. destruct (isAppError e); done.
  - case_bool_decide; simpl; intros Heq; by inversion Heq.
Qed.

Lemma createMessage_fields chatId senderId text d d' m :
  ChatService.createMessage chatId senderId text d = (d', inr m) ->
  ChatService.nm_chat_id m = chatId
  ∧ ChatService.nm_sender_id m = senderId
  ∧ ChatService.nm_content m = text.
Proof.
  unfold ChatService.createMessage. rewrite run_bind.
  destruct (ChatService.checkUserInChat senderId chatId true d) as [d1 [e|b]]; [done|].
  unfold tryCatch. rewrite run_bind.
  unfold Pg.insert_message at 1. rewrite run_bind.
  destruct (roundTrip d1) as [d2 [e|[]]]; simpl.
  { unfold rethrowOr500. destruct (isAppError e); done. }
  case_bool_decide; simpl; [|done].
  destruct (Sql.message_admissible _ _ _ _); simpl; [|done].
  rewrite run_bind.
  match goal with |- context [UserService.findUserById ?u ?b ?x] =>
    destruct (UserService.findUserById u b x) as [d3 [e|[sender|]]] end; simpl.
  - unfold rethrowOr500. destruct (isAppError e); done.
  - intros [= _ <-]. done.
  - done.
Qed.

Lemma outbox_emit c e c0 e0 s :
  (c, e) ∈ Socket.outbox (Socket.emit c0 e0 s)
  <-> (c, e) ∈ Socket.outbox s ∨ (c = c0 ∧ e = e0).
Proof.
  unfold Socket.emit. simpl. rewrite elem_of_app, list_elem_of_singleton.
  split; intros [?|H]; eauto; right; [by injection H | by destruct H as [-> ->]].
Qed.

(** One input puts a socket into a room only by an accepted [joinChat], and
    delivers a broadcast of a room only to sockets that are in the room. *)
Lemma step_isolation s i c chat :
  (c ∈ Socket.room chat (step s i) ->
     c ∈ Socket.room chat s ∨ accepted_join s c chat i)
  ∧ (∀ e, (c, e) ∈ Socket.outbox (step s i) -> scoped_to chat e ->
       (c, e) ∈ Socket.outbox s ∨ c ∈ Socket.room chat s).
Proof.
  destruct i as [c0 cookieString | c0 ev | d]; simpl.
  - destruct (Socket.sockets s !! c0); [tauto|].
    destruct (Socket.authenticate _ _ _) as [message|user]; [|tauto].
    split; [tauto|]. intros e He Hs. apply outbox_emit in He as [?|[_ ->]]; [tauto|done].
  - destruct (Socket.sockets s !! c0) as [user|] eqn:Hc0; [|tauto].
    destruct ev as [data|data|data|data|].
    + unfold Socket.onJoinChat.
      destruct (Socket.chatIdOf data) as [n|] eqn:Hid; simpl.
      2:{ split; [tauto|]. intros e He Hs.
          apply outbox_emit in He as [?|[_ ->]]; [tauto|done]. }
      destruct (n <=? 0) eqn:Hn.
      { split; [tauto|]. intros e He Hs.
        apply outbox_emit in He as [?|[_ ->]]; [tauto|done]. }
      destruct (ChatService.checkUserInChat (id user) n true (Socket.db s))
        as [d' [error|b]] eqn:Hguard.
      * split; [tauto|]. intros e He Hs.
        apply outbox_emit in He as [?|[_ ->]]; [tauto|done].
      * split.
        -- change (Socket.room chat (Socket.emit ?a ?b ?x)) with (Socket.room chat x).
           rewrite room_join.
           change (Socket.room chat (Socket.set_db d' s)) with (Socket.room chat s).
           case_decide as E; [|tauto]. subst n.
           intros [Hin|?]%elem_of_union; [|tauto]. apply elem_of_singleton in Hin as ->.
           right. exists data, user. rewrite Hguard. simpl.
           rewrite (checkUserInChat_true _ _ _ _ _ Hguard).
           repeat split; try done. lia.
        -- intros e He Hs. apply outbox_emit in He as [?|[_ ->]]; [tauto|done].
    + unfold Socket.onLeaveChat.
      destruct (Socket.invalidChatId _); [tauto|].
      split.
      * change (Socket.room chat (Socket.emit ?a ?b ?x)) with (Socket.room chat x).
        rewrite room_leave. case_decide; set_solver.
      * intros e He Hs. apply outbox_emit in He as [?|[_ ->]]; [tauto|done].
    + unfold Socket.onSendMessage.
      assert (∀ event message,
                (c ∈ Socket.room chat (Socket.emit c0 (Socket.socketError event message) s) ->
                 c ∈ Socket.room chat s ∨ accepted_join s c chat
                                           (Socket.Receive c0 (Socket.sendMessage data)))
                ∧ (∀ e, (c, e) ∈ Socket.outbox
                                   (Socket.emit c0 (Socket.socketError event message) s) ->
                        scoped_to chat e ->
                        (c, e) ∈ Socket.outbox s ∨ c ∈ Socket.room chat s)) as Herr.
      { intros event message. split; [tauto|]. intros e He Hs.
        apply outbox_emit in He as [?|[_ ->]]; [tauto|done]. }
      destruct (Socket.invalidChatId _); [apply Herr|].
      destruct (Socket.contentOf data) as [[|a text]|]; [apply Herr| |apply Herr].
      destruct (2000 <? _); [apply Herr|].
      destruct (ChatService.createMessage _ _ _ _) as [d' [error|m]] eqn:Hm.
      * split; [tauto|]. intros e He Hs.
        apply outbox_emit in He as [?|[_ ->]]; [tauto|done].
      * split; [tauto|]. intros e He Hs.
        unfold Socket.io_to_emit in He. simpl in He.
        apply elem_of_app in He as [?|He]; [tauto|].
        apply elem_of_deliveries in He as [-> Hin].
        apply createMessage_fields in Hm as (Hchat & _). simpl in Hs.
        right. rewrite <- Hs, Hchat. exact Hin.
    + unfold Socket.onTyping.
      destruct (Socket.isTypingOf data) as [b|]; [|tauto].
      destruct (Socket.invalidChatId _); [tauto|].
      split; [tauto|]. intros e He Hs.
      unfold Socket.socket_to_emit in He. simpl in He.
      apply elem_of_app in He as [?|He]; [tauto|].
      apply elem_of_deliveries in He as [-> Hin]. simpl in Hs.
      right. rewrite <- Hs. set_solver.
    + unfold Socket.onDisconnect. split; [|tauto].
      change (Socket.room chat (Socket.set_sockets ?k ?x)) with (Socket.room chat x).
      rewrite room_leaveAll. set_solver.
  - tauto.
Qed.

Lemma run_snoc s trace i : run s (trace ++ [i]) = step (run s trace) i.
Proof. unfold Socket.run. by rewrite fold_left_app. Qed.

Lemma joined_snoc s0 trace i c chat :
  joined accessTokenOf jwt_verify s0 trace c chat ->
  joined accessTokenOf jwt_verify s0 (trace ++ [i]) c chat.
Proof.
  intros (before & j & after & -> & Hj).
  exists before, j, (after ++ [i]). split; [|done]. by rewrite <- app_assoc.
Qed.

(** Along a trace from the start, whoever is in a room, and whoever was
    sent a broadcast of a room, joined it through an accepted [joinChat]. *)
Lemma isolation_invariant d0 trace c chat :
  let s := run (Socket.boot d0) trace in
  (c ∈ Socket.room chat s -> joined accessTokenOf jwt_verify (Socket.boot d0) trace c chat)
  ∧ (∀ e, (c, e) ∈ Socket.outbox s -> scoped_to chat e ->
       joined accessTokenOf jwt_verify (Socket.boot d0) trace c chat).
Proof.
  induction trace as [|i trace IH] using rev_ind; simpl.
  - split.
    + unfold Socket.room, Socket.boot. simpl. rewrite lookup_total_empty. set_solver.
    + intros e He. by apply not_elem_of_nil in He.
  - rewrite run_snoc. destruct IH as [IHr IHo].
    pose proof (step_isolation (run (Socket.boot d0) trace) i c chat) as [Hr Ho].
    assert (accepted_join (run (Socket.boot d0) trace) c chat i ->
            joined accessTokenOf jwt_verify (Socket.boot d0) (trace ++ [i]) c chat) as Hnow.
    { intros Hj. exists trace, i, (@nil Socket.Input). split; [reflexivity | exact Hj]. }
    split.
    + intros Hin. destruct (Hr Hin) as [?|?]; [apply joined_snoc|]; eauto.
    + intros e He Hs. destruct (Ho e He Hs) as [?|?]; apply joined_snoc; eauto.
Qed.

(** C3.  Along every trace from the start, a socket that has no accepted
    [joinChat] for a chat (it issued none that the handler reads as that
    chat, or the membership guard rejected each one) is not in the room of
    the chat and has been sent no [newMessage] and no [userTyping] of that
    room, whatever other rooms it is in.  A [joinChat] that the guard
    rejects is answered by one [socketError] for the event "joinChat" to the
    socket and leaves every room as it was, so such a socket is still not in
    the room afterwards. *)
Theorem room_isolation (d0 : Database) (trace : list Socket.Input)
    (c : Socket.SocketId) (chat : Z) :
  let s := run (Socket.boot d0) trace in
  (¬ joined accessTokenOf jwt_verify (Socket.boot d0) trace c chat ->
     (c ∉ Socket.room chat s)
     ∧ ∀ e, scoped_to chat e -> (c, e) ∉ Socket.outbox s)
  ∧ (∀ user data error,
       Socket.sockets s !! c = Some user ->
       Socket.chatIdOf data = Some chat -> 0 < chat ->
       (ChatService.checkUserInChat (id user) chat true (Socket.db s)).2 = inl error ->
       let s' := step s (Socket.Receive c (Socket.joinChat data)) in
       Socket.outbox s'
       = Socket.outbox s
         ++ [(c, Socket.socketError "joinChat"
                   (Socket.reported "Failed to join chat. An unexpected error occurred."
                                    error))]
       ∧ Socket.rooms s' = Socket.rooms s
       ∧ (¬ joined accessTokenOf jwt_verify (Socket.boot d0) trace c chat ->
          c ∉ Socket.room chat s')).
Proof.
  simpl. pose proof (isolation_invariant d0 trace c chat) as [Hr Ho]. simpl in *.
  split.
  - intros Hno. split; [tauto|]. intros e Hs He. eauto.
  - intros user data error Hc Hid Hpos Hguard. rewrite Hc. unfold Socket.onJoinChat.
    rewrite Hid. simpl. replace (chat <=? 0) with false by lia.
    destruct (ChatService.checkUserInChat _ _ _ _) as [d [e|b]]; simpl in *; [|done].
    injection Hguard as ->. split; [done|]. split; [done|].
    intros Hno Hin. apply Hno, Hr. exact Hin.
Qed.

(** [createMessage] for a participant, on a consistent database that
    answers: the row is appended with the next id and the current timestamp,
    and the result carries the sender's row. *)
Lemma createMessage_participant chatId senderId text d :
  healthy d -> consistent d -> is_participant senderId chatId (tables d) ->
  Sql.storable text ->
  ∃ sender,
    head (Sql.users_by_id senderId (tables d)) = Some sender
    ∧ ChatService.createMessage chatId senderId text d
      = (set_tables
           (Sql.add_message
              (mkMessage (messages_id_seq d + 1) chatId senderId text (clock d)) (tables d))
           (set_messages_id_seq (messages_id_seq d + 1) d),
         inr (ChatService.mkNewMessage (messages_id_seq d + 1) chatId senderId text (clock d)
                (Sql.mkSender (u_id sender) (u_username sender)))).
Proof.
  intros Hh Hc Hp Htext.
  pose proof (participants_have_users d Hc _ Hp) as Hu.
  pose proof (participants_have_chats d Hc _ Hp) as Hch. simpl in *.
  apply users_by_id_head in Hu as [sender Hsender].
  apply chats_by_id_head in Hch as [chat Hchat].
  exists sender. split; [done|].
  unfold ChatService.createMessage. rewrite run_bind.
  rewrite checkUserInChat_strict by done. rewrite Hchat.
  rewrite bool_decide_eq_true_2 by by apply participant_rows_nonempty.
  unfold tryCatch. rewrite run_bind. unfold Pg.insert_message. rewrite run_bind.
  rewrite roundTrip_healthy by done. simpl.
  rewrite (bool_decide_eq_true_2 (Sql.storable text)) by done.
  assert (Sql.message_admissible (messages_id_seq d + 1) chatId senderId (tables d) = true)
    as ->.
  { unfold Sql.message_admissible. rewrite !andb_true_iff, !bool_decide_eq_true.
    split; [split|].
    - destruct (filter _ _) as [|m l] eqn:E; [done|].
      assert (m ∈ filter (λ m, m_id m = messages_id_seq d + 1) (messages (tables d)))
        as Hin by (rewrite E; left).
      apply list_elem_of_filter in Hin as [Hid Hin].
      pose proof (message_ids_issued d Hc m Hin). lia.
    - intros E. by rewrite E in Hchat.
    - intros E. by rewrite E in Hsender. }
  simpl. rewrite run_bind.
  set (d' := set_tables _ _).
  assert (healthy d') as Hh' by exact Hh.
  unfold UserService.findUserById, tryCatch. rewrite run_bind, query_healthy by done.
  change (Sql.users_by_id senderId (tables d')) with (Sql.users_by_id senderId (tables d)).
  rewrite Hsender. simpl. reflexivity.
Qed.

(** [createMessage] for a participant and a content with a code unit 0, on
    a database that answers: the INSERT is rejected, and the catch clause
    makes a server error of it. *)
Lemma createMessage_unstorable chatId senderId text d :
  healthy d -> chat_exists chatId (tables d) -> is_participant senderId chatId (tables d) ->
  ¬ Sql.storable text ->
  ChatService.createMessage chatId senderId text d
  = (d, inl (AppError 500 "Could not create message due to a server error.")).
Proof.
  intros Hh Hch Hp Htext.
  apply chats_by_id_head in Hch as [chat Hchat].
  unfold ChatService.createMessage. rewrite run_bind.
  rewrite checkUserInChat_strict by done. rewrite Hchat.
  rewrite bool_decide_eq_true_2 by by apply participant_rows_nonempty.
  unfold tryCatch. rewrite run_bind. unfold Pg.insert_message. rewrite run_bind.
  rewrite roundTrip_healthy by done. simpl.
  rewrite (bool_decide_eq_false_2 (Sql.storable text)) by done.
  reflexivity.
Qed.

(** C4, as amended.  A connected socket whose user is a participant of a
    chat sends [sendMessage] with a valid chat id and content that passes
    the checks of the handler, on a consistent database that answers.
    Whether or not the socket is in the room of the chat: when the content
    has no code unit 0, the message is stored with the trimmed content and
    the user as sender, and one [newMessage] carrying that content and the
    sender's id and username goes to every socket of the room, and to nobody
    else.  When the content has a code unit 0, which the checks of the
    handler let through, the server rejects the INSERT: nothing is stored,
    nothing goes to the room, and the sender gets the [socketError] of a
    server error. *)
Theorem sendMessage_gated_by_membership (s : Socket.Server) (c : Socket.SocketId)
    (user : UserPayload) (data : option Socket.Payload) (chat : Z) (text : string) :
  Socket.sockets s !! c = Some user ->
  healthy (Socket.db s) -> consistent (Socket.db s) ->
  Socket.chatIdOf data = Some chat -> 0 < chat ->
  Socket.contentOf data = Some text -> text ≠ "" -> Js.strlen text <= 2000 ->
  is_participant (id user) chat (tables (Socket.db s)) ->
  let d := Socket.db s in
  let s' := step s (Socket.Receive c (Socket.sendMessage data)) in
  (Sql.storable text ->
   ∃ sender m,
     head (Sql.users_by_id (id user) (tables d)) = Some sender
     ∧ m = ChatService.mkNewMessage (messages_id_seq d + 1) chat (id user) text (clock d)
             (Sql.mkSender (id user) (u_username sender))
     ∧ messages (tables (Socket.db s'))
       = messages (tables d) ++ [mkMessage (messages_id_seq d + 1) chat (id user) text (clock d)]
     ∧ Socket.outbox s'
       = Socket.outbox s ++ map (fun c' => (c', Socket.newMessage m))
                                (elements (Socket.room chat s))
     ∧ (∀ c', c' ∈ Socket.room chat s -> (c', Socket.newMessage m) ∈ Socket.outbox s')
     ∧ Socket.rooms s' = Socket.rooms s)
  ∧ (¬ Sql.storable text ->
     Socket.db s' = d
     ∧ Socket.outbox s'
       = Socket.outbox s
         ++ [(c, Socket.socketError "sendMessage"
                   "Could not create message due to a server error.")]
     ∧ Socket.rooms s' = Socket.rooms s).
Proof.
  intros Hc Hh Hcons Hid Hpos Htext Hne Hlen Hp. simpl. rewrite Hc.
  unfold Socket.onSendMessage. rewrite Hid, Htext. simpl.
  replace (chat <=? 0) with false by lia.
  destruct text as [|a text]; [done|].
  replace (2000 <? Js.strlen (String a text)) with false by lia.
  split.
  - intros Hst.
    destruct (createMessage_participant chat (id user) (String a text) (Socket.db s)
                Hh Hcons Hp Hst) as (sender & Hsender & ->).
    assert (u_id sender = id user) as Hsid.
    { apply head_Some_elem_of in Hsender. unfold Sql.users_by_id in Hsender.
      by apply list_elem_of_filter in Hsender as [? _]. }
    exists sender. eexists. split; [done|]. split; [reflexivity|]. simpl.
    rewrite Hsid. split; [done|]. split; [done|]. split; [|done].
    intros c' Hin. apply elem_of_app. right. by apply elem_of_deliveries.
  - intros Hst.
    rewrite (createMessage_unstorable chat (id user) (String a text) (Socket.db s))
      by (try done; exact (participants_have_chats _ Hcons _ Hp)).
    done.
Qed.

(** ** The handshake *)


End Session.

(** ** The properties on the sample session *)

Lemma sample_consistent : consistent Sample.database.
Proof.
  split; simpl; intros x Hin;
    repeat (apply elem_of_cons in Hin as [->|Hin]);
    try (by apply not_elem_of_nil in Hin); simpl; try lia.
  all: first
    [ exists Sample.alice; split; [set_solver | reflexivity]
    | exists Sample.bob; split; [set_solver | reflexivity]
    | exists Sample.carol; split; [set_solver | reflexivity]
    | exists Sample.direct; split; [set_solver | reflexivity]
    | exists Sample.group; split; [set_solver | reflexivity] ].
Qed.

Lemma sample_server_db : Socket.db Sample.server = Sample.database.
Proof. vm_compute. reflexivity. Qed.

Lemma leaveChat_confirmed_witness :
  Socket.sockets Sample.server !! 1%nat = Some (mkUserPayload 2 "bob")
  ∧ Socket.chatIdOf (Sample.chatOnly 99) = Some 99
  ∧ Sql.chats_by_id 99 (tables (Socket.db Sample.server)) = []
  ∧ (1%nat ∉ Socket.room 99 Sample.server)
  ∧ Socket.outbox
      (Sample.step Sample.server (Socket.Receive 1%nat (Socket.leaveChat (Sample.chatOnly 99))))
    = Socket.outbox Sample.server ++ [(1%nat, Socket.chatLeft 99 "Successfully left chat 99")].
Proof.
  assert (Socket.sockets Sample.server !! 1%nat = Some (mkUserPayload 2 "bob")) as H1
    by (vm_compute; reflexivity).
  assert (Socket.chatIdOf (Sample.chatOnly 99) = Some 99) as H2 by reflexivity.
  assert (Socket.room 99 Sample.server = ∅) as Hroom by (vm_compute; reflexivity).
  split; [exact H1|]. split; [exact H2|]. split; [vm_compute; reflexivity|].
  split; [rewrite Hroom; set_solver|]. unfold Sample.step. clear Hroom.
  generalize dependent Sample.server. intros s H1.
  exact (proj1 (leaveChat_confirmed Sample.accessTokenOf Sample.jwt_verify
                  s 1%nat _ _ 99 H1 H2 eq_refl)).
Defined.

Lemma broadcast_asymmetry_witness :
  Socket.sockets Sample.server' !! 1%nat = Some (mkUserPayload 2 "bob")
  ∧ Socket.room 7 Sample.server' = {[0%nat; 1%nat]}
  ∧ (∃ news,
       Socket.outbox
         (Sample.step Sample.server'
            (Socket.Receive 1%nat (Socket.typing (Sample.withTyping 7 true))))
       = Socket.outbox Sample.server' ++ news
       ∧ (0%nat, Socket.userTyping 2 "bob" 7 true) ∈ news
       ∧ ∀ e, (1%nat, e) ∉ news)
  ∧ (∃ news m,
       Socket.outbox
         (Sample.step Sample.server'
            (Socket.Receive 1%nat (Socket.sendMessage (Sample.withContent 7 "hi"))))
       = Socket.outbox Sample.server' ++ news
       ∧ (0%nat, Socket.newMessage m) ∈ news
       ∧ (1%nat, Socket.newMessage m) ∈ news).
Proof.
  unfold Sample.step.
  assert (Socket.sockets Sample.server' !! 1%nat = Some (mkUserPayload 2 "bob")) as H1
    by (vm_compute; reflexivity).
  assert (Socket.room 7 Sample.server' = {[0%nat; 1%nat]}) as Hroom
    by (vm_compute; reflexivity).
  assert (Socket.db Sample.server' = Sample.database) as Hdb by (vm_compute; reflexivity).
  generalize dependent Sample.server'. intros s H1 Hroom Hdb.
  split; [exact H1|]. split; [exact Hroom|].
  destruct (broadcast_asymmetry Sample.accessTokenOf Sample.jwt_verify s
              1%nat _ (Sample.withTyping 7 true) 7 H1 eq_refl eq_refl) as [Htyping _].
  destruct (broadcast_asymmetry Sample.accessTokenOf Sample.jwt_verify s
              1%nat _ (Sample.withContent 7 "hi") 7 H1 eq_refl eq_refl) as [_ Hsend].
  split.
  - destruct (Htyping true eq_refl) as (news & Hout & Hnews & Hself).
    exists news. split; [exact Hout|]. split; [|exact Hself].
    apply Hnews. rewrite Hroom. split; [reflexivity|]. split; [set_solver | lia].
  - destruct (createMessage_participant 7 2 "hi" (Socket.db s))
      as (sender & _ & Hm).
    + by rewrite Hdb.
    + rewrite Hdb. apply sample_consistent.
    + rewrite Hdb. unfold is_participant. simpl. set_solver.
    + solve_storable.
    + destruct (Hsend "hi" _ _ eq_refl ltac:(done) ltac:(vm_compute; done) Hm)
        as (news & Hout & Hnews & _).
      exists news. eexists. split; [exact Hout|].
      split; apply Hnews; (split; [reflexivity | rewrite Hroom; set_solver]).
Defined.

Lemma room_isolation_witness :
  let s := Socket.run Sample.accessTokenOf Sample.jwt_verify (Socket.boot Sample.database)
             Sample.session in
  ¬ joined Sample.accessTokenOf Sample.jwt_verify (Socket.boot Sample.database)
      Sample.session 2%nat 7
  ∧ (2%nat ∈ Socket.room 8 s)
  ∧ (2%nat ∉ Socket.room 7 s)
  ∧ (∀ e, scoped_to 7 e -> (2%nat, e) ∉ Socket.outbox s)
  ∧ Socket.outbox
      (Socket.step Sample.accessTokenOf Sample.jwt_verify s
         (Socket.Receive 2%nat (Socket.joinChat (Sample.chatOnly 7))))
    = Socket.outbox s
      ++ [(2%nat, Socket.socketError "joinChat"
                    "Access denied. You are not a participant in this chat.")].
Proof.
  intros s.
  assert (¬ joined Sample.accessTokenOf Sample.jwt_verify (Socket.boot Sample.database)
            Sample.session 2%nat 7) as Hno.
  { intros (before & i & after & Heq & data & user & -> & _ & Hid & _ & _).
    unfold Sample.session in Heq.
    repeat (destruct before as [|? before]; simpl in Heq; [by simplify_eq|];
            injection Heq as <- Heq).
    by destruct before. }
  destruct (room_isolation Sample.accessTokenOf Sample.jwt_verify Sample.database
              Sample.session 2%nat 7) as [Hiso Hrej].
  destruct (Hiso Hno) as [Hroom Hout]. fold s in Hroom, Hout, Hrej.
  assert (Socket.room 8 s = {[2%nat]}) as Hroom8 by (vm_compute; reflexivity).
  assert (Socket.sockets s !! 2%nat = Some (mkUserPayload 3 "carol")) as Hc
    by (vm_compute; reflexivity).
  assert ((ChatService.checkUserInChat 3 7 true (Socket.db s)).2
          = inl (AppError 403 "Access denied. You are not a participant in this chat."))
    as Hguard by (vm_compute; reflexivity).
  clearbody s.
  split; [exact Hno|]. split; [rewrite Hroom8; set_solver|].
  split; [exact Hroom|]. split; [exact Hout|].
  exact (proj1 (Hrej _ (Sample.chatOnly 7) _ Hc eq_refl eq_refl Hguard)).
Defined.

Lemma sendMessage_gated_by_membership_witness :
  let nul := String "a" (String "000" "b") in
  Socket.sockets Sample.server !! 0%nat = Some (mkUserPayload 1 "alice")
  ∧ (0%nat ∉ Socket.room 7 Sample.server)
  ∧ ¬ joined Sample.accessTokenOf Sample.jwt_verify (Socket.boot Sample.database)
        Sample.session 0%nat 7
  ∧ (∃ m, ChatService.nm_content m = "hi"
          ∧ Sql.s_username (ChatService.nm_sender m) = "alice"
          ∧ (1%nat, Socket.newMessage m)
              ∈ Socket.outbox
                  (Sample.step Sample.server
                     (Socket.Receive 0%nat (Socket.sendMessage (Sample.withContent 7 "  hi ")))))
  ∧ Js.trim nul = nul ∧ nul ≠ "" ∧ Js.strlen nul <= 2000 ∧ ¬ Sql.storable nul
  ∧ (let s' := Sample.step Sample.server
                 (Socket.Receive 0%nat (Socket.sendMessage (Sample.withContent 7 nul))) in
     Socket.db s' = Socket.db Sample.server
     ∧ Socket.outbox s'
       = Socket.outbox Sample.server
         ++ [(0%nat, Socket.socketError "sendMessage"
                       "Could not create message due to a server error.")]).
Proof.
  intros nul. unfold Sample.step.
  assert (Socket.sockets Sample.server !! 0%nat = Some (mkUserPayload 1 "alice")) as H1
    by (vm_compute; reflexivity).
  assert (Socket.room 7 Sample.server = {[1%nat]}) as Hroom by (vm_compute; reflexivity).
  assert (¬ Sql.storable nul) as Hnul.
  { intros H. unfold Sql.storable in H. simpl in H.
    apply Forall_cons in H as [_ H]. apply Forall_cons in H as [H _]. by apply H. }
  split; [exact H1|]. split; [rewrite Hroom; set_solver|]. split.
  { intros (before & i & after & Heq & data & user & -> & _ & Hid & _ & _).
    unfold Sample.session in Heq.
    repeat (destruct before as [|? before]; simpl in Heq; [by simplify_eq|];
            injection Heq as <- Heq).
    by destruct before. }
  pose proof sample_server_db as Hdb.
  generalize dependent Sample.server. intros s H1 Hroom Hdb.
  assert (is_participant 1 7 (tables (Socket.db s))) as Hp.
  { rewrite Hdb. unfold is_participant. simpl. set_solver. }
  assert (healthy (Socket.db s)) as Hh by (by rewrite Hdb).
  assert (consistent (Socket.db s)) as Hcons by (rewrite Hdb; apply sample_consistent).
  split; [|split; [reflexivity|]; split; [done|]; split; [vm_compute; done|];
           split; [exact Hnul|]].
  - destruct (sendMessage_gated_by_membership Sample.accessTokenOf Sample.jwt_verify
                s 0%nat _ (Sample.withContent 7 "  hi ") 7 "hi" H1 Hh Hcons
                eq_refl eq_refl eq_refl) as [Hgood _]; [done | vm_compute; done | exact Hp |].
    destruct Hgood as (sender & m & Hsender & -> & _ & _ & Hall & _).
    { solve_storable. }
    match type of Hall with context [Socket.newMessage ?m] => exists m end.
    split; [reflexivity|]. split.
    + simpl. rewrite Hdb in Hsender. vm_compute in Hsender.
      by injection Hsender as <-.
    + apply Hall. rewrite Hroom. set_solver.
  - destruct (sendMessage_gated_by_membership Sample.accessTokenOf Sample.jwt_verify
                s 0%nat _ (Sample.withContent 7 nul) 7 nul H1 Hh Hcons
                eq_refl eq_refl eq_refl) as [_ Hbad]; [done | vm_compute; done | exact Hp |].
    destruct (Hbad Hnul) as (Hd & Hout & _). split; [exact Hd | exact Hout].
Defined.

(** C4, as stated, fails: alice is a participant of chat 7 and sends a
    content of three characters, the second of which is the code unit 0.
    It passes the checks of the handler, but nothing is stored and no
    [newMessage] goes to anybody. *)
Lemma sendMessage_code_unit_0_not_stored :
  let nul := String "a" (String "000" "b") in
  let s' := Sample.step Sample.server
              (Socket.Receive 0%nat (Socket.sendMessage (Sample.withContent 7 nul))) in
  Socket.sockets Sample.server !! 0%nat = Some (mkUserPayload 1 "alice")
  ∧ healthy (Socket.db Sample.server)
  ∧ is_participant 1 7 (tables (Socket.db Sample.server))
  ∧ Socket.chatIdOf (Sample.withContent 7 nul) = Some 7
  ∧ Socket.contentOf (Sample.withContent 7 nul) = Some nul
  ∧ nul ≠ "" ∧ Js.strlen nul <= 2000
  ∧ messages (tables (Socket.db s')) = messages (tables (Socket.db Sample.server))
  ∧ Socket.outbox s'
    = Socket.outbox Sample.server
      ++ [(0%nat, Socket.socketError "sendMessage"
                    "Could not create message due to a server error.")]
  ∧ ∀ c m, (c, Socket.newMessage m) ∈ Socket.outbox s' ->
           (c, Socket.newMessage m) ∈ Socket.outbox Sample.server.
Proof.
  intros nul s'.
  assert (Socket.outbox s'
          = Socket.outbox Sample.server
            ++ [(0%nat, Socket.socketError "sendMessage"
                          "Could not create message due to a server error.")]) as Hout
    by (vm_compute; reflexivity).
  split; [vm_compute; reflexivity|]. split; [vm_compute; reflexivity|].
  split; [rewrite sample_server_db; unfold is_participant; simpl; set_solver|].
  split; [reflexivity|]. split; [reflexivity|]. split; [done|].
  split; [vm_compute; done|]. split; [vm_compute; reflexivity|].
  split; [exact Hout|].
  intros c m Hin. rewrite Hout in Hin. apply elem_of_app in Hin as [Hin|Hin]; [done|].
  apply list_elem_of_singleton in Hin. done.
Qed.


(** ** Message content *)

Lemma findChatById_untouched chatId expectChat d :
  untouched d (ChatService.findChatById chatId expectChat d).1.
Proof.
  unfold ChatService.findChatById, tryCatch. rewrite run_bind.
  pose proof (query_untouched (Sql.chat_by_id chatId) d) as H.
  destruct (query (Sql.chat_by_id chatId) d) as [d' [e|[e|rows]]]; simpl in *.
  - by rewrite rethrowOr500_state.
  - by rewrite rethrowOr500_state.
  - destruct (negb _ && expectChat); exact H.
Qed.

Lemma checkUserInChat_untouched userId chatId expectUserInChat d :
  untouched d (ChatService.checkUserInChat userId chatId expectUserInChat d).1.
Proof.
  unfold ChatService.checkUserInChat. rewrite run_bind.
  pose proof (findChatById_untouched chatId true d) as H.
  destruct (ChatService.findChatById chatId true d) as [d1 [e|o]]; simpl in *; [exact H|].
  unfold tryCatch. rewrite run_bind.
  pose proof (query_untouched (Sql.participant_rows userId chatId) d1) as H1.
  destruct (query _ d1) as [d2 [e|rows]]; simpl in *.
  - rewrite rethrowOr500_state. by eapply untouched_trans.
  - case_bool_decide; [|destruct expectUserInChat]; by eapply untouched_trans.
Qed.

(** [createMessage] stores at most one row, and that row holds the content
    it was given. *)
Lemma createMessage_rows chatId senderId text d :
  let r := ChatService.createMessage chatId senderId text d in
  messages (tables r.1) = messages (tables d)
  ∨ ∃ id created_at,
      messages (tables r.1)
      = messages (tables d) ++ [mkMessage id chatId senderId text created_at].
Proof.
  simpl. destruct (ChatService.createMessage chatId senderId text d) as [d' res] eqn:E.
  simpl. revert E. unfold ChatService.createMessage. rewrite run_bind.
  pose proof (checkUserInChat_untouched senderId chatId true d) as (Ht1 & _).
  destruct (ChatService.checkUserInChat senderId chatId true d) as [d1 [e|b]]; simpl in *.
  { intros [= <- _]. left. by rewrite Ht1. }
  unfold tryCatch. rewrite run_bind. unfold Pg.insert_message. rewrite run_bind.
  pose proof (roundTrip_untouched d1) as (Ht2 & _).
  destruct (roundTrip d1) as [d2 [e|[]]]; simpl in *.
  { unfold rethrowOr500. destruct (isAppError e); intros [= <- _]; left; congruence. }
  case_bool_decide; simpl.
  2:{ intros [= <- _]. left. congruence. }
  destruct (Sql.message_admissible _ _ _ _); simpl.
  2:{ intros [= <- _]. left. simpl. congruence. }
  rewrite run_bind.
  match goal with |- context [UserService.findUserById ?u ?b ?x] =>
    pose proof (findUserById_untouched u b x) as (Ht3 & _);
    destruct (UserService.findUserById u b x) as [d3 [e|[sender|]]] end; simpl in *.
  - unfold rethrowOr500. destruct (isAppError e); intros [= <- _];
      right; eexists _, _; rewrite Ht3, Ht2, Ht1; reflexivity.
  - intros [= <- _]. right; eexists _, _; rewrite Ht3, Ht2, Ht1; reflexivity.
  - intros [= <- _]. right; eexists _, _; rewrite Ht3, Ht2, Ht1; reflexivity.
Qed.

Lemma trimEnd_whitespace s :
  ∃ post, s = Js.trimEnd s +:+ post ∧ Forall (fun c => Js.isWhiteSpace c = true)
                                          (String.list_ascii_of_string post).
Proof.
  induction s as [|c r (post & IH & Hws)]; simpl.
  - exists "". split; [done | constructor].
  - destruct (Js.trimEnd r) as [|c' t] eqn:E.
    + destruct (Js.isWhiteSpace c) eqn:Hc.
      * exists (String c post). split; [rewrite IH at 1; reflexivity|].
        by constructor.
      * exists post. split; [|done]. rewrite IH at 1. reflexivity.
    + exists post. split; [|done]. rewrite IH at 1. reflexivity.
Qed.

Lemma trimStart_whitespace s :
  ∃ pre, s = pre +:+ Js.trimStart s ∧ Forall (fun c => Js.isWhiteSpace c = true)
                                         (String.list_ascii_of_string pre).
Proof.
  induction s as [|c r (pre & IH & Hws)]; simpl.
  - exists "". split; [done | constructor].
  - destruct (Js.isWhiteSpace c) eqn:Hc.
    + exists (String c pre). split; [rewrite IH at 1; reflexivity | by constructor].
    + exists "". split; [done | constructor].
Qed.

(** [trim] takes white space off both ends and nothing else: what is left
    neither starts nor ends with white space. *)
Lemma trim_spec s :
  (∃ pre post,
     s = pre +:+ Js.trim s +:+ post
     ∧ Forall (fun c => Js.isWhiteSpace c = true) (String.list_ascii_of_string pre)
     ∧ Forall (fun c => Js.isWhiteSpace c = true) (String.list_ascii_of_string post))
  ∧ (∀ c r, Js.trim s = String c r -> Js.isWhiteSpace c = false)
  ∧ (∀ r c, Js.trim s = r +:+ String c "" -> Js.isWhiteSpace c = false).
Proof.
  unfold Js.trim. split; [|split].
  - destruct (trimStart_whitespace s) as (pre & Hs & Hpre).
    destruct (trimEnd_whitespace (Js.trimStart s)) as (post & Ht & Hpost).
    exists pre, post. split; [|done]. rewrite Hs at 1. f_equal. exact Ht.
  - assert (∀ t, (∀ c r, t = String c r -> Js.isWhiteSpace c = false) ->
                 ∀ c r, Js.trimEnd t = String c r -> Js.isWhiteSpace c = false) as Hend.
    { intros [|a t] Hhead c r; simpl; [done|].
      destruct (Js.trimEnd t); [destruct (Js.isWhiteSpace a) eqn:Ha; [done|]|];
        intros [= <- _]; eauto. }
    apply Hend. induction s as [|a s IH]; simpl; [done|].
    destruct (Js.isWhiteSpace a) eqn:Ha; [exact IH|]. by intros c r [= <- _].
  - generalize (Js.trimStart s). intros t. induction t as [|a t IH]; simpl.
    + intros [|] c; done.
    + destruct (Js.trimEnd t) as [|b u] eqn:E.
      * destruct (Js.isWhiteSpace a) eqn:Ha.
        -- intros [|] c; done.
        -- intros [|x [|]] c; simpl; intros [=]; by subst.
      * intros [|x r] c; simpl; [done|]. intros [= <- Hr]. eauto.
Qed.

Section Content.

Variable accessTokenOf : string -> option string.
Variable jwt_verify : string -> Socket.Verified.

Local Abbreviation step := (Socket.step accessTokenOf jwt_verify).

(** C10.  Both entry points trim the submitted content before they validate
    and store it.  For a [sendMessage] of a connected socket and for a POST
    on [/chats/:id/messages], each with a valid chat id and a string [raw] as
    content.  When [trim raw] is not empty, at most 2000 characters long
    and without a code unit 0, and the user is a participant of the chat, on
    a consistent database that answers, the request is accepted: one row
    with [trim raw] as content is stored, and the message that is broadcast
    to the room, or returned with a 201, has [trim raw] as content.  Content
    that trims to nothing is rejected as empty and content that is longer
    than 2000 characters after trimming as too long, both without touching
    the database.  Whatever the database does, every row that the call
    stores, and every message that it broadcasts or returns, has [trim raw]
    as content, which is then not empty and at most 2000 characters long. *)
Theorem content_trimmed (raw : string) (chat : Z) :
  0 < chat ->
  (∀ s c user data,
     Socket.sockets s !! c = Some user ->
     Socket.chatIdOf data = Some chat ->
     Socket.content <$> data = Some (Js.Str raw) ->
     let d := Socket.db s in
     let s' := step s (Socket.Receive c (Socket.sendMessage data)) in
     (healthy d -> consistent d -> is_participant (id user) chat (tables d) ->
      Js.trim raw ≠ "" -> Js.strlen (Js.trim raw) <= 2000 -> Sql.storable (Js.trim raw) ->
      ∃ m, ChatService.nm_content m = Js.trim raw
           ∧ messages (tables (Socket.db s'))
             = messages (tables d)
               ++ [mkMessage (messages_id_seq d + 1) chat (id user) (Js.trim raw) (clock d)]
           ∧ Socket.outbox s'
             = Socket.outbox s ++ map (fun c' => (c', Socket.newMessage m))
                                      (elements (Socket.room chat s)))
     ∧ (Js.trim raw = "" ->
        s' = Socket.emit c (Socket.socketError "sendMessage"
                              "Message content cannot be empty.") s)
     ∧ (2000 < Js.strlen (Js.trim raw) ->
        s' = Socket.emit c (Socket.socketError "sendMessage"
                              "Message content is too long (max 2000 characters).") s)
     ∧ (∀ row, row ∈ messages (tables (Socket.db s')) ->
               row ∉ messages (tables (Socket.db s)) ->
               m_content row = Js.trim raw
               ∧ Js.trim raw ≠ "" ∧ Js.strlen (Js.trim raw) <= 2000)
     ∧ (∀ c' m, (c', Socket.newMessage m) ∈ Socket.outbox s' ->
                (c', Socket.newMessage m) ∉ Socket.outbox s ->
                ChatService.nm_content m = Js.trim raw
                ∧ Js.trim raw ≠ "" ∧ Js.strlen (Js.trim raw) <= 2000))
  ∧ (∀ req d,
       Js.parseInt (Js.Str (ChatController.params_chatId req)) = Some chat ->
       ChatController.body_content req = Js.Str raw ->
       let r := ChatController.createMessageHandler req d in
       (healthy d -> consistent d ->
        is_participant (id (ChatController.user req)) chat (tables d) ->
        Js.trim raw ≠ "" -> Js.strlen (Js.trim raw) <= 2000 -> Sql.storable (Js.trim raw) ->
        ∃ m, r.2 = ChatController.json 201 m
             ∧ ChatService.nm_content m = Js.trim raw
             ∧ messages (tables r.1)
               = messages (tables d)
                 ++ [mkMessage (messages_id_seq d + 1) chat (id (ChatController.user req))
                       (Js.trim raw) (clock d)])
       ∧ (Js.trim raw = "" ->
          r = (d, ChatController.next (AppError 400 "Message content cannot be empty.")))
       ∧ (2000 < Js.strlen (Js.trim raw) ->
          r = (d, ChatController.next
                    (AppError 400 "Message content is too long (max 2000 characters).")))
       ∧ (∀ row, row ∈ messages (tables r.1) -> row ∉ messages (tables d) ->
                 m_content row = Js.trim raw
                 ∧ Js.trim raw ≠ "" ∧ Js.strlen (Js.trim raw) <= 2000)
       ∧ (∀ status m, r.2 = ChatController.json status m ->
                      status = 201 ∧ ChatService.nm_content m = Js.trim raw
                      ∧ Js.trim raw ≠ "" ∧ Js.strlen (Js.trim raw) <= 2000)).
Proof.
  intros Hpos.
  assert (∀ senderId d row,
            row ∈ messages (tables (ChatService.createMessage chat senderId (Js.trim raw) d).1) ->
            row ∉ messages (tables d) -> m_content row = Js.trim raw) as Hrows.
  { intros senderId d row Hin Hnot.
    destruct (createMessage_rows chat senderId (Js.trim raw) d) as [E|(i & t & E)];
      rewrite E in Hin; [done|].
    apply elem_of_app in Hin as [?|Hin]; [done|].
    by apply list_elem_of_singleton in Hin as ->. }
  assert (Js.trim raw = "" -> ¬ 2000 < Js.strlen (Js.trim raw)) as Hempty.
  { intros ->. unfold Js.strlen. simpl. lia. }
  split.
  - intros s c user data Hc Hid Hcontent. cbv zeta. split.
    { intros Hh Hcons Hp Hne Hlen Hst. simpl. rewrite Hc.
      unfold Socket.onSendMessage. rewrite Hid. simpl.
      replace (chat <=? 0) with false by lia.
      destruct data as [p|]; [|done]. simpl in Hcontent. injection Hcontent as Hcontent.
      unfold Socket.contentOf. rewrite Hcontent.
      destruct (Js.trim raw) as [|a text] eqn:Htrim; [done|].
      replace (2000 <? Js.strlen (String a text)) with false by lia.
      destruct (createMessage_participant chat (id user) (String a text) (Socket.db s)
                  Hh Hcons Hp Hst) as (sender & _ & ->).
      eexists. split; [|split; reflexivity]. reflexivity. }
    simpl. rewrite Hc.
    unfold Socket.onSendMessage. rewrite Hid. simpl.
    replace (chat <=? 0) with false by lia.
    destruct data as [p|]; [|done]. simpl in Hcontent. injection Hcontent as Hcontent.
    unfold Socket.contentOf. rewrite Hcontent.
    destruct (Js.trim raw) as [|a text] eqn:Htrim.
    { split; [done|]. split; [intros ?; by destruct Hempty|].
      split; [intros row Hin Hnot; by destruct Hnot|].
      intros c' m Hin Hnot. apply outbox_emit in Hin as [?|[_ [=]]]. done. }
    split; [done|].
    destruct (2000 <? Js.strlen (String a text)) eqn:Hlen.
    { split; [done|]. split; [intros row Hin Hnot; by destruct Hnot|].
      intros c' m Hin Hnot. apply outbox_emit in Hin as [?|[_ [=]]]. done. }
    split; [lia|].
    pose proof (Hrows (id user) (Socket.db s)) as Hrow. try rewrite Htrim in Hrow.
    destruct (ChatService.createMessage chat (id user) (String a text) (Socket.db s))
      as [d' [error|m]] eqn:Hm; simpl in *.
    + split; [intros row Hin Hnot; split; [eauto | split; [done | lia]]|].
      intros c' m Hin Hnot. apply outbox_emit in Hin as [?|[_ [=]]]. done.
    + split; [intros row Hin Hnot; split; [eauto | split; [done | lia]]|].
      intros c' m' Hin Hnot. apply elem_of_app in Hin as [?|Hin]; [done|].
      apply elem_of_deliveries in Hin as [[= ->] _].
      apply createMessage_fields in Hm as (_ & _ & ->). split; [done | split; [done | lia]].
  - intros req d Hid Hcontent. cbv zeta. split.
    { intros Hh Hcons Hp Hne Hlen Hst. unfold ChatController.createMessageHandler.
      rewrite Hid, Hcontent. simpl. replace (chat <=? 0) with false by lia.
      destruct (Js.trim raw) as [|a text] eqn:Htrim; [done|].
      assert (negb (String.eqb raw "") = true) as ->.
      { destruct raw; [done|reflexivity]. }
      simpl. replace (2000 <? Js.strlen (String a text)) with false by lia.
      destruct (createMessage_participant chat (id (ChatController.user req))
                  (String a text) d Hh Hcons Hp Hst) as (sender & _ & ->).
      eexists. split; [reflexivity|]. split; reflexivity. }
    simpl. unfold ChatController.createMessageHandler.
    rewrite Hid, Hcontent. simpl. replace (chat <=? 0) with false by lia.
    destruct (Js.trim raw) as [|a text] eqn:Htrim.
    { rewrite orb_true_r. split; [done|]. split; [intros ?; by destruct Hempty|].
      split; [intros row Hin Hnot; by destruct Hnot | done]. }
    assert (negb (String.eqb raw "") = true) as ->.
    { destruct raw; [done|reflexivity]. }
    simpl. split; [done|].
    destruct (2000 <? Js.strlen (String a text)) eqn:Hlen.
    { split; [done|]. split; [intros row Hin Hnot; by destruct Hnot | done]. }
    split; [lia|].
    pose proof (Hrows (id (ChatController.user req)) d) as Hrow. try rewrite Htrim in Hrow.
    destruct (ChatService.createMessage chat (id (ChatController.user req))
                (String a text) d) as [d' [error|m]] eqn:Hm; simpl in *.
    + split; [intros row Hin Hnot; split; [eauto | split; [done | lia]] | done].
    + split; [intros row Hin Hnot; split; [eauto | split; [done | lia]]|].
      intros status m' [= <- <-].
      apply createMessage_fields in Hm as (_ & _ & ->).
      split; [done | split; [done | split; [done | lia]]].
Qed.

End Content.

Lemma content_trimmed_witness :
  let s' := Sample.step Sample.server
              (Socket.Receive 0%nat
                 (Socket.sendMessage (Sample.withContent 7 "  hi there  "))) in
  let req raw := ChatController.mkRequest (mkUserPayload 1 "alice") "7" (Js.Str raw) in
  Socket.sockets Sample.server !! 0%nat = Some (mkUserPayload 1 "alice")
  ∧ Js.trim "  hi there  " = "hi there"
  ∧ (∃ m, ChatService.nm_content m = "hi there"
          ∧ messages (tables (Socket.db s')) = [mkMessage 1 7 1 "hi there" 300]
          ∧ (1%nat, Socket.newMessage m) ∈ Socket.outbox s')
  ∧ (∃ m, (ChatController.createMessageHandler (req "  hi there  ") Sample.database).2
          = ChatController.json 201 m
          ∧ ChatService.nm_content m = "hi there")
  ∧ ChatController.createMessageHandler (req "   ") Sample.database
    = (Sample.database,
       ChatController.next (AppError 400 "Message content cannot be empty.")).
Proof.
  intros s' req. subst s'.
  assert (Socket.sockets Sample.server !! 0%nat = Some (mkUserPayload 1 "alice")) as H1
    by (vm_compute; reflexivity).
  assert (Socket.room 7 Sample.server = {[1%nat]}) as Hroom by (vm_compute; reflexivity).
  assert (is_participant 1 7 (tables Sample.database)) as Hp.
  { unfold is_participant. simpl. set_solver. }
  assert (Sql.storable "hi there") as Hst by solve_storable.
  split; [exact H1|]. split; [reflexivity|]. unfold Sample.step.
  pose proof sample_server_db as Hdb.
  generalize dependent Sample.server. intros s H1 Hroom Hdb.
  destruct (content_trimmed Sample.accessTokenOf Sample.jwt_verify "  hi there  " 7 eq_refl)
    as [Hsocket Hhttp].
  destruct (content_trimmed Sample.accessTokenOf Sample.jwt_verify "   " 7 eq_refl)
    as [_ Hblank].
  split; [|split].
  - destruct (Hsocket s 0%nat _ (Sample.withContent 7 "  hi there  ") H1 eq_refl eq_refl)
      as [Hyes _].
    destruct Hyes as (m & Hm & Hrows & Hout).
    + by rewrite Hdb.
    + rewrite Hdb. apply sample_consistent.
    + by rewrite Hdb.
    + done.
    + vm_compute. done.
    + exact Hst.
    + exists m. split; [exact Hm|]. split.
      * rewrite Hrows, Hdb. reflexivity.
      * rewrite Hout, Hroom. apply elem_of_app. right. rewrite elements_singleton. left.
  - destruct (Hhttp (req "  hi there  ") Sample.database eq_refl eq_refl) as [Hyes _].
    destruct Hyes as (m & Hr & Hm & _);
      [reflexivity | apply sample_consistent | exact Hp | done | vm_compute; done
      | exact Hst |].
    exists m. split; [exact Hr | exact Hm].
  - exact (proj1 (proj2 (Hblank (req "   ") Sample.database eq_refl eq_refl)) eq_refl).
Defined.

(** ** The message history *)

Global Instance ordered_by_total {A} (key : A -> Z) : Total (Sample.ordered_by key).
Proof. intros a b. unfold Sample.ordered_by. lia. Qed.

Global Instance ordered_by_trans {A} (key : A -> Z) : Transitive (Sample.ordered_by key).
Proof. intros a b c. unfold Sample.ordered_by. lia. Qed.

Lemma order_stored_first_lawful {A} (key : A -> Z) :
  Sql.OrderBy key (Sample.order_stored_first key).
Proof.
  intros rows. unfold Sample.order_stored_first. split.
  - apply merge_sort_Permutation.
  - apply (Sorted_merge_sort (Sample.ordered_by key)).
Qed.







(** ** The rows of the joins *)

Lemma elem_of_flat_map {A B} (f : A -> list B) (l : list A) (b : B) :
  b ∈ flat_map f l <-> ∃ a, a ∈ l ∧ b ∈ f a.
Proof.
  rewrite list_elem_of_In, in_flat_map. setoid_rewrite list_elem_of_In. done.
Qed.

Lemma elem_of_map {A B} (f : A -> B) (l : list A) (b : B) :
  b ∈ map f l <-> ∃ a, a ∈ l ∧ b = f a.
Proof.
  rewrite list_elem_of_In, in_map_iff. setoid_rewrite list_elem_of_In.
  split; intros (a & ? & ?); eauto.
Qed.

Lemma participant_eta cp : mkParticipant (cp_chat_id cp) (cp_user_id cp) = cp.
Proof. by destruct cp. Qed.

Lemma elem_of_users_of_chat chatId t row :
  row ∈ Sql.users_of_chat chatId t
  <-> fst row ∈ users t ∧ snd row ∈ chat_participants t
      ∧ u_id (fst row) = cp_user_id (snd row) ∧ cp_chat_id (snd row) = chatId.
Proof.
  unfold Sql.users_of_chat. rewrite elem_of_flat_map. split.
  - intros (u & Hu & H). apply elem_of_map in H as (cp & Hcp & ->).
    apply list_elem_of_filter in Hcp as [[? ?] ?]. done.
  - intros (Hu & Hcp & Hid & Hchat). exists (fst row). split; [done|].
    apply elem_of_map. exists (snd row). split; [|by destruct row].
    apply list_elem_of_filter. done.
Qed.

(** ** The constraints are kept *)

Lemma consistent_untouched d d' : untouched d d' -> consistent d -> consistent d'.
Proof.
  intros (Ht & _ & _ & Hc & Hm) [H1 H2 H3 H4].
  split; rewrite ?Ht, ?Hc, ?Hm; done.
Qed.

(** What [createMessage] does to the database, whatever fails. *)
Lemma createMessage_effect chatId senderId text d :
  let d' := (ChatService.createMessage chatId senderId text d).1 in
  users (tables d') = users (tables d)
  ∧ chats (tables d') = chats (tables d)
  ∧ chat_participants (tables d') = chat_participants (tables d)
  ∧ chats_id_seq d' = chats_id_seq d
  ∧ ((messages (tables d') = messages (tables d)
      ∧ messages_id_seq d <= messages_id_seq d')
     ∨ (messages (tables d')
        = messages (tables d)
          ++ [mkMessage (messages_id_seq d + 1) chatId senderId text (clock d)]
        ∧ messages_id_seq d' = messages_id_seq d + 1)).
Proof.
  simpl. destruct (ChatService.createMessage chatId senderId text d) as [d' res] eqn:E.
  simpl. revert E. unfold ChatService.createMessage. rewrite run_bind.
  pose proof (checkUserInChat_untouched senderId chatId true d) as (Ht1 & _ & Hc1 & Hs1 & Hm1).
  destruct (ChatService.checkUserInChat senderId chatId true d) as [d1 [e|b]]; simpl in *.
  { intros [= <- _]. rewrite Ht1, Hs1, Hm1. repeat split; try done. left. split; [done|lia]. }
  unfold tryCatch. rewrite run_bind. unfold Pg.insert_message. rewrite run_bind.
  pose proof (roundTrip_untouched d1) as (Ht2 & _ & Hc2 & Hs2 & Hm2).
  destruct (roundTrip d1) as [d2 [e|[]]]; simpl in *.
  { unfold rethrowOr500. destruct (isAppError e); intros [= <- _];
      rewrite Ht2, Ht1, Hs2, Hs1, Hm2, Hm1; repeat split; try done; left; (split; [done|lia]). }
  case_bool_decide; simpl.
  2:{ intros [= <- _]. rewrite Ht2, Ht1, Hs2, Hs1, Hm2, Hm1.
      repeat split; try done. left. split; [done|lia]. }
  destruct (Sql.message_admissible _ _ _ _); simpl.
  2:{ intros [= <- _]. simpl. rewrite Ht2, Ht1, Hs2, Hs1, Hm2, Hm1.
      repeat split; try done. left. split; [done|lia]. }
  rewrite run_bind.
  match goal with |- context [UserService.findUserById ?u ?b ?x] =>
    pose proof (findUserById_untouched u b x) as (Ht3 & _ & Hc3 & Hs3 & Hm3);
    destruct (UserService.findUserById u b x) as [d3 [e|[sender|]]] end; simpl in *.
  all: try (unfold rethrowOr500; destruct (isAppError e)).
  all: intros [= <- _]; rewrite Ht3, Hs3, Hm3; simpl;
    rewrite Ht2, Ht1, Hs2, Hs1, Hm2, Hm1, Hc2, Hc1; repeat split; try done; right; done.
Qed.

(** [createMessage] keeps the database consistent. *)
Lemma createMessage_consistent chatId senderId text d :
  consistent d -> consistent (ChatService.createMessage chatId senderId text d).1.
Proof.
  intros [H1 H2 H3 H4].
  pose proof (createMessage_effect chatId senderId text d) as (Hu & Hc & Hp & Hs & Hm).
  simpl in *. set (d' := (ChatService.createMessage chatId senderId text d).1) in *.
  split.
  - intros cp Hin. rewrite Hp in Hin. unfold user_exists. rewrite Hu. by apply H1.
  - intros cp Hin. rewrite Hp in Hin. unfold chat_exists. rewrite Hc. by apply H2.
  - intros m Hin. destruct Hm as [[Hm Hle]|[Hm Heq]]; rewrite Hm in Hin.
    + specialize (H3 m Hin). lia.
    + apply elem_of_app in Hin as [Hin|Hin].
      * specialize (H3 m Hin). lia.
      * apply list_elem_of_singleton in Hin as ->. simpl. lia.
  - intros c Hin. rewrite Hc in Hin. rewrite Hs. by apply H4.
Qed.

Lemma with_participants_tables chatId userIds w :
  let w' := fold_left (fun t userId => Sql.add_participant (mkParticipant chatId userId) t)
                      userIds w in
  users w' = users w ∧ chats w' = chats w ∧ messages w' = messages w
  ∧ chat_participants w' = chat_participants w ++ map (mkParticipant chatId) userIds.
Proof.
  revert w. induction userIds as [|u us IH]; intros w; simpl.
  - by rewrite app_nil_r.
  - destruct (IH (Sql.add_participant (mkParticipant chatId u) w)) as (Hu & Hc & Hm & Hp).
    simpl in *. rewrite Hu, Hc, Hm, Hp. by rewrite <- app_assoc.
Qed.

Lemma insert_participant_checked chatId userId d w :
  in_tx d = Some w ->
  let r := Pg.insert_participant chatId userId d in
  chats_id_seq r.1 = chats_id_seq d ∧ messages_id_seq r.1 = messages_id_seq d
  ∧ (∀ x, r.2 = inr x -> user_exists userId w).
Proof.
  intros Htx. unfold Pg.insert_participant. rewrite run_bind.
  pose proof (roundTrip_untouched d) as (Ht & Hx & Hc & Hs & Hm).
  destruct (roundTrip d) as [d' [e|[]]]; simpl in *; [done|].
  unfold Pg.view, Pg.write. rewrite ?Hx, ?Htx. simpl.
  destruct (Sql.participant_admissible chatId userId w) eqn:Hadm; simpl.
  - split; [done|]. split; [done|]. intros _ _.
    unfold Sql.participant_admissible in Hadm.
    apply andb_true_iff in Hadm as [_ Hu]. apply bool_decide_eq_true in Hu.
    apply users_by_id_head. destruct (Sql.users_by_id userId w); [done | eauto].
  - done.
Qed.

Lemma forEach_insert_participant_checked chatId userIds d w :
  in_tx d = Some w ->
  let r := forEach userIds (fun userId => Pg.insert_participant chatId userId) d in
  chats_id_seq r.1 = chats_id_seq d ∧ messages_id_seq r.1 = messages_id_seq d
  ∧ (∀ x, r.2 = inr x -> ∀ userId, userId ∈ userIds -> user_exists userId w).
Proof.
  revert d w. induction userIds as [|u us IH]; intros d w Htx; simpl.
  - split; [done|]. split; [done|]. intros _ _ x Hx. by apply not_elem_of_nil in Hx.
  - rewrite run_bind.
    pose proof (insert_participant_checked chatId u d w Htx) as (Hs & Hm & Hu).
    pose proof (insert_participant_in_tx chatId u d w Htx) as (_ & _ & Hr).
    destruct (Pg.insert_participant chatId u d) as [d' [e|[]]]; simpl in *; [done|].
    specialize (IH d' _ Hr) as (Hs' & Hm' & Hu'). simpl in *.
    split; [congruence|]. split; [congruence|].
    intros x Hx userId Hin. apply elem_of_cons in Hin as [->|Hin]; [eauto|].
    destruct (Hu' x Hx userId Hin) as (usr & Husr & Hid). by exists usr.
Qed.

(** What [createChat] does to sequences and transaction, and whom it adds. *)
Lemma createChat_effect userIds name isGroupChat d :
  in_tx d = None ->
  let d' := (ChatService.createChat userIds name isGroupChat d).1 in
  in_tx d' = None
  ∧ messages_id_seq d' = messages_id_seq d
  ∧ chats_id_seq d <= chats_id_seq d'
  ∧ (tables d' = tables d
     ∨ (∃ stored,
          Sql.stored_name name = Some stored
          ∧ tables d' = with_new_chat userIds stored isGroupChat d
          ∧ chats_id_seq d' = chats_id_seq d + 1
          ∧ ∀ userId, userId ∈ userIds -> user_exists userId (tables d))).
Proof.
  intros Htx. simpl. unfold ChatService.createChat, Pg.connect. rewrite run_bind.
  pose proof (roundTrip_untouched d) as (Ht0 & Hx0 & Hc0 & Hs0 & Hm0).
  destruct (roundTrip d) as [d0 [e|[]]]; simpl in *.
  { rewrite Hx0, Hm0, Hs0. repeat split; try done; try lia. by left. }
  unfold tryFinally, tryCatch.
  match goal with |- context [ let (_, _) := ?body d0 in _ ] => set (b := body) end.
  assert (messages_id_seq (b d0).1 = messages_id_seq d
          ∧ chats_id_seq d <= chats_id_seq (b d0).1
          ∧ (tables (b d0).1 = tables d
             ∨ (∃ stored,
                  Sql.stored_name name = Some stored
                  ∧ tables (b d0).1 = with_new_chat userIds stored isGroupChat d
                  ∧ chats_id_seq (b d0).1 = chats_id_seq d + 1
                  ∧ ∀ userId, userId ∈ userIds -> user_exists userId (tables d)))) as Hb.
  { subst b. rewrite run_bind.
    pose proof (begin_run d0) as (Ht1 & Hc1 & Hs1 & Hx1).
    assert (messages_id_seq (Pg.begin d0).1 = messages_id_seq d0) as Hm1.
    { unfold Pg.begin. rewrite run_bind.
      pose proof (roundTrip_untouched d0) as (_ & _ & _ & _ & H).
      by destruct (roundTrip d0) as [? [?|[]]]. }
    destruct (Pg.begin d0) as [d1 [e|[]]]; simpl in *.
    { split; [congruence|]. split; [lia|]. left. congruence. }
    rewrite run_bind.
    pose proof (forEach_findUserById_untouched userIds d1) as (Ht2 & Hx2 & Hc2 & Hs2 & Hm2).
    destruct (forEach userIds _ d1) as [d2 [e|[]]]; simpl in *.
    { split; [congruence|]. split; [lia|]. left. congruence. }
    rewrite run_bind.
    assert (in_tx d2 = Some (tables d)) as Hin2 by congruence.
    pose proof (insert_chat_in_tx name isGroupChat d2 _ Hin2) as (Ht3 & Hc3 & Hr3).
    assert (messages_id_seq (Pg.insert_chat name isGroupChat d2).1 = messages_id_seq d2
            ∧ chats_id_seq d2 <= chats_id_seq (Pg.insert_chat name isGroupChat d2).1
            ∧ (∀ x, (Pg.insert_chat name isGroupChat d2).2 = inr x ->
                    chats_id_seq (Pg.insert_chat name isGroupChat d2).1 = chats_id_seq d2 + 1))
      as (Hm3 & Hle3 & Hs3).
    { unfold Pg.insert_chat. rewrite run_bind.
      pose proof (roundTrip_untouched d2) as (_ & Hx & _ & Hs & Hm).
      destruct (roundTrip d2) as [dd [?|[]]]; simpl in *; [split; [done|split; [lia|done]]|].
      destruct (Sql.stored_name name) as [stored|]; simpl;
        [|split; [done|]; split; [lia|done]].
      unfold Pg.write, Pg.view. simpl. rewrite Hx, Hin2. simpl.
      destruct (Sql.chat_admissible _ _); simpl; (split; [done|]; split; [lia|]); [|done].
      intros _ _. lia. }
    destruct (Pg.insert_chat name isGroupChat d2) as [d3 [e|newChat]]; simpl in *.
    { split; [congruence|]. split; [lia|]. left. congruence. }
    destruct Hr3 as (stored & Hstored & HnewChat & Hin3). specialize (Hs3 _ eq_refl).
    rewrite run_bind.
    pose proof (forEach_insert_participant_in_tx (c_id newChat) userIds d3 _ Hin3)
      as (Ht4 & Hc4 & Hr4).
    pose proof (forEach_insert_participant_checked (c_id newChat) userIds d3 _ Hin3)
      as (Hs4 & Hm4 & Hu4).
    destruct (forEach userIds _ d3) as [d4 [e|[]]]; simpl in *.
    { split; [congruence|]. split; [lia|]. left. congruence. }
    specialize (Hu4 _ eq_refl).
    rewrite run_bind.
    pose proof (commit_run d4 _ Hr4) as Hcommit.
    assert (messages_id_seq (Pg.commit d4).1 = messages_id_seq d4
            ∧ chats_id_seq (Pg.commit d4).1 = chats_id_seq d4) as (Hm5 & Hs5).
    { unfold Pg.commit. rewrite run_bind.
      pose proof (roundTrip_untouched d4) as (_ & Hx & _ & Hs & Hm).
      destruct (roundTrip d4) as [dd [?|[]]]; simpl in *; [done|].
      rewrite Hx, Hr4. done. }
    assert (fold_left
              (λ t userId, Sql.add_participant (mkParticipant (c_id newChat) userId) t)
              userIds (Sql.add_chat newChat (tables d))
            = with_new_chat userIds stored isGroupChat d) as HW.
    { unfold with_new_chat. subst newChat. simpl.
      replace (chats_id_seq d2) with (chats_id_seq d) by congruence.
      replace (clock d2) with (clock d) by congruence. reflexivity. }
    destruct (Pg.commit d4) as [d5 [e|[]]]; simpl in *.
    { split; [congruence|]. split; [lia|]. left. congruence. }
    rewrite run_bind.
    pose proof (query_untouched (Sql.chat_details (c_id newChat) (head userIds)) d5)
      as (Ht6 & _ & _ & Hs6 & Hm6).
    assert (∀ userId, userId ∈ userIds -> user_exists userId (tables d)) as Husers.
    { intros u Hin. exact (Hu4 u Hin). }
    unfold ChatService.getUserChatsWithParticipants, tryCatch.
    destruct (query _ d5) as [d6 [e|rows]]; simpl in *.
    all: split; [congruence|]; split; [lia|]; right; exists stored; split; [done|].
    all: split; [congruence|]; split; [lia | exact Husers]. }
  destruct (b d0) as [d1 [e|a]]; simpl in *.
  - rewrite run_bind. unfold Pg.rollback. rewrite run_bind.
    pose proof (roundTrip_untouched d1) as (Ht & Hx & Hc & Hs & Hm).
    destruct (roundTrip d1) as [d2 [e2|[]]]; simpl in *.
    + rewrite Ht, Hs, Hm. done.
    + unfold rethrowOr500. destruct (isAppError e); simpl; rewrite Ht, Hs, Hm; done.
  - done.
Qed.

(** [createChat] keeps the database consistent. *)
Lemma createChat_consistent userIds name isGroupChat d :
  in_tx d = None -> consistent d ->
  consistent (ChatService.createChat userIds name isGroupChat d).1.
Proof.
  intros Htx [H1 H2 H3 H4].
  pose proof (createChat_effect userIds name isGroupChat d Htx) as (_ & Hm & Hle & Ht).
  simpl in *. set (d' := (ChatService.createChat userIds name isGroupChat d).1) in *.
  destruct Ht as [Ht|(stored & _ & Ht & Hs & Hu)].
  - split; rewrite ?Ht, ?Hm; try done.
    intros c Hin. specialize (H4 c Hin). lia.
  - unfold with_new_chat in Ht.
    pose proof (with_participants_tables (chats_id_seq d + 1) userIds
                  (Sql.add_chat (mkChat (chats_id_seq d + 1) stored isGroupChat (clock d))
                                (tables d))) as (Hwu & Hwc & Hwm & Hwp).
    simpl in *.
    split; rewrite ?Hm, ?Hs; unfold user_exists, chat_exists; rewrite Ht, ?Hwu, ?Hwc, ?Hwm, ?Hwp.
    + intros cp [Hin|Hin]%elem_of_app; [by apply H1|].
      apply elem_of_map in Hin as (u & Hin & ->). simpl. by apply Hu.
    + intros cp [Hin|Hin]%elem_of_app.
      * destruct (H2 cp Hin) as (c & Hc & Hid). exists c. split; [|done].
        apply elem_of_app. by left.
      * apply elem_of_map in Hin as (u & Hin & ->). simpl.
        eexists. split; [apply elem_of_app; right; left | reflexivity].
    + done.
    + intros c [Hin|Hin]%elem_of_app.
      * specialize (H4 c Hin). lia.
      * apply list_elem_of_singleton in Hin as ->. simpl. lia.
Qed.

(** * More of the services, the controllers and the middleware *)

(** ** What a round trip can do *)

Lemma roundTrip_run d :
  untouched d (roundTrip d).1
  ∧ (healthy d -> (roundTrip d).1 = d)
  ∧ ((roundTrip d).2 = inr tt
     ∨ (¬ healthy d ∧ (roundTrip d).2 = inl (PgError "Connection terminated unexpectedly"))).
Proof.
  unfold roundTrip, healthy, untouched.
  destruct (faults d) as [|[] f] eqn:E; simpl; rewrite ?E; intuition congruence.
Qed.

Lemma query_run {A} (select : Tables -> A) d :
  untouched d (query select d).1
  ∧ (healthy d -> (query select d).1 = d)
  ∧ ((query select d).2 = inr (select (tables d))
     ∨ (¬ healthy d ∧ (query select d).2 = inl (PgError "Connection terminated unexpectedly"))).
Proof.
  unfold query. rewrite run_bind.
  destruct (roundTrip_run d) as (Hu & Hh & Hr).
  destruct (roundTrip d) as [d' [e|[]]]; simpl in *.
  - split; [done|]. split; [done|]. destruct Hr as [?|[? [= ->]]]; [done|]. right. done.
  - split; [done|]. split; [done|]. left. destruct Hu as [-> _]. done.
Qed.

Lemma findChatById_run chatId expectChat d :
  let r := ChatService.findChatById chatId expectChat d in
  untouched d r.1
  ∧ (healthy d -> r.1 = d)
  ∧ ((r.2 = inr (head (Sql.chats_by_id chatId (tables d)))
      ∧ (expectChat = true -> chat_exists chatId (tables d)))
     ∨ (r.2 = inl (AppError 404 ("Chat with ID " +:+ Js.numToString chatId +:+ " not found."))
        ∧ expectChat = true ∧ ¬ chat_exists chatId (tables d))
     ∨ (r.2 = inl (AppError 500 "Could not find chat due to a server error.")
        ∧ (¬ healthy d ∨ (¬ Sql.int4 chatId ∧ ¬ chat_exists chatId (tables d))))).
Proof.
  intros r. subst r. unfold ChatService.findChatById, tryCatch. rewrite run_bind.
  destruct (query_run (Sql.chat_by_id chatId) d) as (Hu & Hh & Hr).
  destruct (query (Sql.chat_by_id chatId) d) as [d' [e|result]]; simpl in *.
  - destruct Hr as [?|[Hn [= ->]]]; [done|]. simpl. do 2 (split; [done|]).
    right. right. split; [done|]. by left.
  - destruct Hr as [Hr|[? ?]]; [|done]. injection Hr as ->.
    rewrite chat_by_id_head.
    pose proof (chats_by_id_head chatId (tables d)) as Hc.
    destruct (head (Sql.chats_by_id chatId (tables d))) as [c|] eqn:Ehead.
    + rewrite Ehead. rewrite bool_decide_eq_true_2 by eauto. simpl.
      do 2 (split; [done|]). left. split; [done|]. intros _. apply Hc. eauto.
    + assert (¬ chat_exists chatId (tables d)) as Hno.
      { intros Hx. apply Hc in Hx as [? ?]. done. }
      case_bool_decide as Hrange; simpl.
      * destruct expectChat; simpl.
        -- do 2 (split; [done|]). right. left. done.
        -- do 2 (split; [done|]). left. done.
      * do 2 (split; [done|]). right. right. split; [done|]. right. done.
Qed.

Lemma findUserById_run userId expectUser d :
  let r := UserService.findUserById userId expectUser d in
  untouched d r.1
  ∧ (healthy d -> r.1 = d)
  ∧ ((r.2 = inr (head (Sql.users_by_id userId (tables d)))
      ∧ (expectUser = true -> user_exists userId (tables d)))
     ∨ (r.2 = inl (AppError 404 ("User with ID " +:+ Js.numToString userId +:+ " not found."))
        ∧ expectUser = true ∧ ¬ user_exists userId (tables d))
     ∨ (r.2 = inl (AppError 500 "Could not find user by ID due to a server error.")
        ∧ ¬ healthy d)).
Proof.
  intros r. subst r. unfold UserService.findUserById, tryCatch. rewrite run_bind.
  destruct (query_run (Sql.users_by_id userId) d) as (Hu & Hh & Hr).
  destruct (query (Sql.users_by_id userId) d) as [d' [e|rows]]; simpl in *.
  - destruct Hr as [?|[Hn [= ->]]]; [done|]. simpl. do 2 (split; [done|]). right. right. done.
  - destruct Hr as [Hr|[? ?]]; [|done]. injection Hr as ->.
    pose proof (users_by_id_head userId (tables d)) as Hc.
    case_bool_decide as Hs; simpl.
    + do 2 (split; [done|]). left. split; [done|]. intros _. by apply Hc.
    + destruct expectUser; simpl.
      * do 2 (split; [done|]). right. left. split; [done|]. split; [done|].
        intros Hx. by apply Hc in Hx.
      * do 2 (split; [done|]). left. done.
Qed.

(** The outcomes of the membership guard, whatever the database does. *)
Lemma checkUserInChat_run userId chatId expectUserInChat d :
  let r := ChatService.checkUserInChat userId chatId expectUserInChat d in
  untouched d r.1
  ∧ (healthy d -> r.1 = d)
  ∧ ((r.2 = inr true
      ∧ chat_exists chatId (tables d) ∧ is_participant userId chatId (tables d))
     ∨ (r.2 = inr false ∧ expectUserInChat = false
        ∧ chat_exists chatId (tables d) ∧ ¬ is_participant userId chatId (tables d))
     ∨ (r.2 = inl (AppError 404 ("Chat with ID " +:+ Js.numToString chatId +:+ " not found."))
        ∧ ¬ chat_exists chatId (tables d))
     ∨ (r.2 = inl (AppError 403 "Access denied. You are not a participant in this chat.")
        ∧ expectUserInChat = true
        ∧ chat_exists chatId (tables d) ∧ ¬ is_participant userId chatId (tables d))
     ∨ (∃ message, r.2 = inl (AppError 500 message)
          ∧ (¬ healthy d ∨ (¬ Sql.int4 chatId ∧ ¬ chat_exists chatId (tables d))))).
Proof.
  intros r. subst r. unfold ChatService.checkUserInChat. rewrite run_bind.
  destruct (findChatById_run chatId true d) as (Hu & Hh & Hr).
  destruct (ChatService.findChatById chatId true d) as [d1 [e|oc]]; simpl in *.
  { do 2 (split; [done|]). destruct Hr as [[? _]|[([= ->] & _ & ?)|[[= ->] ?]]]; [done| |].
    - right. right. left. done.
    - do 4 right. eauto. }
  destruct Hr as [[_ Hex]|[[? _]|[? _]]]; [|done|done]. specialize (Hex eq_refl).
  unfold tryCatch. rewrite run_bind.
  destruct (query_run (Sql.participant_rows userId chatId) d1) as (Hu' & Hh' & Hr).
  assert (tables d1 = tables d) as Ht by apply Hu.
  assert (¬ healthy d1 -> ¬ healthy d) as Hnh.
  { intros Hn Hd. apply Hn. by rewrite (Hh Hd). }
  pose proof (participant_rows_nonempty userId chatId (tables d)) as Hp.
  destruct (query (Sql.participant_rows userId chatId) d1) as [d2 [e|rows]]; simpl in *.
  - destruct Hr as [?|[Hn [= ->]]]; [done|]. simpl.
    split; [by eapply untouched_trans|]. split.
    { intros Hd. rewrite Hh' by (by rewrite (Hh Hd)). auto. }
    do 4 right. eexists. split; [done|]. left. auto.
  - destruct Hr as [[= ->]|[? ?]]; [|done]. rewrite Ht.
    assert (untouched d d2) as Hu2 by (by eapply untouched_trans).
    assert (healthy d -> d2 = d) as Hh2.
    { intros Hd. rewrite Hh' by (by rewrite (Hh Hd)). auto. }
    case_bool_decide as Hs; simpl.
    + do 2 (split; [done|]). left. split; [done|]. split; [done|]. by apply Hp.
    + assert (¬ is_participant userId chatId (tables d)) as Hno by (intros Hx; by apply Hp in Hx).
      destruct expectUserInChat; simpl; do 2 (split; [done|]).
      * do 3 right. left. done.
      * right. left. done.
Qed.

(** X1.  The membership guard is sound whatever the database does, also when
    round trips fail.  [checkUserInChat] answers [true] only for a chat that
    exists and a user who has a participant row in it; it answers [false]
    only in its lenient mode, for a chat that exists and a user without a
    row; it throws 404 only when the chat is missing and 403 only in strict
    mode for a non-participant of an existing chat; a 500 means that a round
    trip failed, or that the chat id is beyond the range of INTEGER and the
    id of no chat; it throws nothing but an [AppError], and it changes
    nothing in the database. *)
Theorem checkUserInChat_sound (userId chatId : Z) (expectUserInChat : bool) (d : Database) :
  let r := ChatService.checkUserInChat userId chatId expectUserInChat d in
  untouched d r.1
  ∧ match r.2 with
    | inr true => chat_exists chatId (tables d) ∧ is_participant userId chatId (tables d)
    | inr false =>
        expectUserInChat = false
        ∧ chat_exists chatId (tables d) ∧ ¬ is_participant userId chatId (tables d)
    | inl (AppError status message) =>
        (status = 404 ∧ ¬ chat_exists chatId (tables d))
        ∨ (status = 403 ∧ expectUserInChat = true
           ∧ chat_exists chatId (tables d) ∧ ¬ is_participant userId chatId (tables d))
        ∨ (status = 500
           ∧ (¬ healthy d ∨ (¬ Sql.int4 chatId ∧ ¬ chat_exists chatId (tables d))))
    | inl (PgError _) => False
    end.
Proof.
  intros r. destruct (checkUserInChat_run userId chatId expectUserInChat d) as (Hu & _ & Hr).
  fold r in Hu, Hr. split; [done|].
  destruct Hr as [(-> & ?)|[(-> & ?)|[(-> & ?)|[(-> & ?)|(m & -> & ?)]]]]; auto.
Qed.

(** ** [createMessage], whatever the database does *)

Lemma insert_message_run chatId senderId content d :
  let r := Pg.insert_message chatId senderId content d in
  let row := mkMessage (messages_id_seq d + 1) chatId senderId content (clock d) in
  (tables r.1 = tables d ∧ ∃ m, r.2 = inl (PgError m))
  ∨ (tables r.1 = Sql.add_message row (tables d)
     ∧ r.2 = inr [row]
     ∧ (healthy d -> faults r.1 = faults d)
     ∧ chat_exists chatId (tables d) ∧ user_exists senderId (tables d)).
Proof.
  intros r row. subst r. unfold Pg.insert_message. rewrite run_bind.
  destruct (roundTrip_run d) as (Hu & Hh & Hr).
  destruct (roundTrip d) as [d1 [e|[]]]; simpl in *.
  { left. split; [apply Hu|]. destruct Hr as [?|[_ [= ->]]]; [done|]. eauto. }
  destruct Hu as (Ht & _ & Hc & _ & Hs).
  unfold Sql.message_admissible. simpl. rewrite Ht, Hs, Hc.
  repeat case_bool_decide; simpl; try (left; split; [done|]; eauto).
  right. split; [done|]. split; [done|]. split.
  { intros Hd. by rewrite (Hh Hd). }
  split.
  - apply chats_by_id_head. destruct (Sql.chats_by_id chatId (tables d)); [done|]. by eexists.
  - apply users_by_id_head. destruct (Sql.users_by_id senderId (tables d)); [done|]. by eexists.
Qed.

Lemma createMessage_run chatId senderId content d :
  let r := ChatService.createMessage chatId senderId content d in
  let row := mkMessage (messages_id_seq d + 1) chatId senderId content (clock d) in
  (tables r.1 = tables d
   ∧ ∃ status message, r.2 = inl (AppError status message)
       ∧ (status = 404 ∧ ¬ chat_exists chatId (tables d)
          ∨ status = 403 ∧ chat_exists chatId (tables d)
            ∧ ¬ is_participant senderId chatId (tables d)
          ∨ status = 500))
  ∨ (tables r.1 = Sql.add_message row (tables d)
     ∧ chat_exists chatId (tables d) ∧ is_participant senderId chatId (tables d)
     ∧ ∃ sender, head (Sql.users_by_id senderId (tables d)) = Some sender
         ∧ (r.2 = inr (ChatService.mkNewMessage (messages_id_seq d + 1) chatId senderId content
                         (clock d) (Sql.mkSender (u_id sender) (u_username sender)))
            ∨ (r.2 = inl (AppError 500 "Could not find user by ID due to a server error.")
               ∧ ¬ healthy d))).
Proof.
  intros r row. subst r. unfold ChatService.createMessage. rewrite run_bind.
  destruct (checkUserInChat_run senderId chatId true d) as (Hu & Hh & Hr).
  destruct (ChatService.checkUserInChat senderId chatId true d) as [d1 [e|b]]; simpl in *.
  { left. split; [apply Hu|].
    destruct Hr as [(? & _)|[(? & _)|[([= ->] & ?)|[([= ->] & _ & ? & ?)|(m & [= ->] & ?)]]]];
      try done; do 2 eexists; (split; [done|]); auto. }
  destruct Hr as [(_ & Hex & Hp)|[(_ & ? & _)|[(? & _)|[(? & _)|(? & ? & _)]]]]; try done.
  unfold tryCatch. rewrite run_bind.
  destruct (insert_message_run chatId senderId content d1) as [(Ht & m & Hr)|(Ht & Hr & Hf & _ & Hus)].
  - destruct (Pg.insert_message chatId senderId content d1) as [d2 res]; simpl in *. subst res.
    simpl. left. split; [rewrite Ht; apply Hu|]. do 2 eexists. split; [done|]. auto.
  - destruct Hu as (Ht1 & _ & Hc1 & _ & Hs1). rewrite Ht1, Hc1, Hs1 in *.
    destruct (Pg.insert_message chatId senderId content d1) as [d2 res]; simpl in *. subst res.
    simpl. rewrite run_bind.
    destruct (findUserById_run senderId false d2) as (Hu2 & Hh2 & Hr).
    assert (tables (UserService.findUserById senderId false d2).1
            = Sql.add_message row (tables d)) as Ht2.
    { destruct Hu2 as [-> _]. done. }
    assert (head (Sql.users_by_id senderId (tables d2)) = head (Sql.users_by_id senderId (tables d)))
      as Hsame by (by rewrite Ht).
    apply users_by_id_head in Hus as [sender Hsender].
    destruct (UserService.findUserById senderId false d2) as [d3 [e|os]]; simpl in *.
    + destruct Hr as [[? _]|[([= ->] & ? & _)|([= ->] & Hn)]]; try done. simpl.
      right. split; [done|]. do 2 (split; [done|]). exists sender. split; [done|].
      right. split; [done|]. intros Hd. apply Hn. unfold healthy.
      rewrite Hf by (by rewrite (Hh Hd)). by rewrite (Hh Hd).
    + destruct Hr as [[[= ->] _]|[(? & _)|(? & _)]]; try done.
      rewrite Hsame, Hsender. simpl.
      right. split; [done|]. do 2 (split; [done|]). exists sender. split; [done|]. left. done.
Qed.

(** X2.  Only a participant can put a message into a chat, whatever the
    database does.  [createMessage] either leaves the stored messages as
    they are, or appends exactly one row with the given chat, sender and
    content, and then the chat exists and the sender has a participant row
    in it.  When it resolves, the row is stored and the resolved value is
    that row with the sender's id and username; when it rejects, it is with
    an [AppError] 403, 404 or 500, never with an error of the driver. *)
Theorem createMessage_authorized (chatId senderId : Z) (content : string) (d : Database) :
  let r := ChatService.createMessage chatId senderId content d in
  let row := mkMessage (messages_id_seq d + 1) chatId senderId content (clock d) in
  (messages (tables r.1) = messages (tables d)
   ∨ (messages (tables r.1) = messages (tables d) ++ [row]
      ∧ chat_exists chatId (tables d) ∧ is_participant senderId chatId (tables d)))
  ∧ match r.2 with
    | inr m =>
        messages (tables r.1) = messages (tables d) ++ [row]
        ∧ ∃ sender, sender ∈ users (tables d) ∧ u_id sender = senderId
            ∧ m = ChatService.mkNewMessage (m_id row) chatId senderId content (m_created_at row)
                    (Sql.mkSender senderId (u_username sender))
    | inl (AppError status _) =>
        status = 403 ∧ ¬ is_participant senderId chatId (tables d)
        ∨ status = 404 ∧ ¬ chat_exists chatId (tables d)
        ∨ status = 500
    | inl (PgError _) => False
    end.
Proof.
  intros r row.
  destruct (createMessage_run chatId senderId content d)
    as [(Ht & status & message & Hr & Hs)|(Ht & Hex & Hp & sender & Hsender & Hr)];
    fold r in Ht, Hr; fold row in Ht.
  - split; [left; by rewrite Ht|]. rewrite Hr.
    destruct Hs as [[-> ?]|[(-> & _ & ?)| ->]]; auto.
  - assert (messages (tables r.1) = messages (tables d) ++ [row]) as Hm by (by rewrite Ht).
    split; [right; done|].
    assert (sender ∈ users (tables d) ∧ u_id sender = senderId) as [Hin Hid].
    { unfold Sql.users_by_id in Hsender. apply head_Some_elem_of in Hsender.
      apply list_elem_of_filter in Hsender as [? ?]. done. }
    destruct Hr as [->|[-> _]]; [|auto].
    split; [done|]. exists sender. rewrite Hid. done.
Qed.

Lemma roundTrip_ok d f : faults d = false :: f -> roundTrip d = (set_faults f d, inr tt).
Proof. unfold roundTrip. by intros ->. Qed.

Lemma roundTrip_fail d f :
  faults d = true :: f ->
  roundTrip d = (set_faults f d, inl (PgError "Connection terminated unexpectedly")).
Proof. unfold roundTrip. by intros ->. Qed.

Lemma query_ok {A} (select : Tables -> A) d f :
  faults d = false :: f -> query select d = (set_faults f d, inr (select (tables d))).
Proof. intros Hf. unfold query. rewrite run_bind, (roundTrip_ok d f) by done. done. Qed.

Lemma query_fail {A} (select : Tables -> A) d f :
  faults d = true :: f ->
  query select d = (set_faults f d, inl (PgError "Connection terminated unexpectedly")).
Proof. intros Hf. unfold query. rewrite run_bind, (roundTrip_fail d f) by done. done. Qed.

(** The guard lets a participant pass after two round trips that succeed. *)
Lemma checkUserInChat_ok userId chatId expectUserInChat d f :
  faults d = false :: false :: f ->
  chat_exists chatId (tables d) -> is_participant userId chatId (tables d) ->
  ChatService.checkUserInChat userId chatId expectUserInChat d = (set_faults f d, inr true).
Proof.
  intros Hf Hex Hp. unfold ChatService.checkUserInChat, ChatService.findChatById, tryCatch.
  rewrite !run_bind, (query_ok _ d (false :: f)) by done. simpl.
  rewrite chat_by_id_head. apply chats_by_id_head in Hex as [c Hc]. rewrite Hc. simpl.
  rewrite Hc. simpl.
  rewrite !run_bind, (query_ok _ _ f) by done. simpl.
  apply participant_rows_nonempty in Hp. rewrite bool_decide_true by done. done.
Qed.

(** X3.  A message can be stored and still be reported as failed.  The
    insert of [createMessage] is committed on its own; when the three round
    trips up to the insert succeed and the next one, the lookup of the
    sender, fails, the row of a participant's message, with a content that
    the server reads as a text, is in the table, and the call rejects with
    the 500 of the lookup. *)
Theorem createMessage_stored_then_failed (chatId senderId : Z) (content : string)
    (d : Database) (f : list bool) :
  faults d = [false; false; false; true] ++ f ->
  chat_exists chatId (tables d) -> is_participant senderId chatId (tables d) ->
  user_exists senderId (tables d) ->
  (∀ m, m ∈ messages (tables d) -> m_id m ≠ messages_id_seq d + 1) ->
  Sql.storable content ->
  let r := ChatService.createMessage chatId senderId content d in
  r.2 = inl (AppError 500 "Could not find user by ID due to a server error.")
  ∧ messages (tables r.1)
    = messages (tables d)
      ++ [mkMessage (messages_id_seq d + 1) chatId senderId content (clock d)]
  ∧ faults r.1 = f.
Proof.
  intros Hf Hex Hp Hu Hfresh Htext r. subst r. unfold ChatService.createMessage.
  rewrite run_bind, (checkUserInChat_ok _ _ _ d ([false; true] ++ f)) by done.
  unfold tryCatch, Pg.insert_message. rewrite !run_bind.
  rewrite (roundTrip_ok _ ([true] ++ f)) by done.
  rewrite (bool_decide_eq_true_2 (Sql.storable content)) by done.
  unfold Sql.message_admissible. simpl.
  rewrite !bool_decide_true; simpl.
  - done.
  - apply users_by_id_head in Hu. destruct (Sql.users_by_id senderId (tables d)); [|done].
    by destruct Hu.
  - apply chats_by_id_head in Hex. destruct (Sql.chats_by_id chatId (tables d)); [|done].
    by destruct Hex.
  - apply (proj2 (head_filter_None _ _)) in Hfresh.
    destruct (filter _ _); [done|]. done.
Qed.

Lemma createMessage_stored_then_failed_witness :
  let d := set_faults [false; false; false; true] Sample.database in
  (ChatService.createMessage 7 1 "hi" d).2
  = inl (AppError 500 "Could not find user by ID due to a server error.")
  ∧ messages (tables (ChatService.createMessage 7 1 "hi" d).1) = [mkMessage 1 7 1 "hi" 300].
Proof.
  intros d.
  destruct (createMessage_stored_then_failed 7 1 "hi" d []) as (H1 & H2 & _).
  - reflexivity.
  - exists Sample.direct. split; [set_solver|done].
  - unfold is_participant. simpl. set_solver.
  - exists Sample.alice. split; [set_solver|done].
  - simpl. set_solver.
  - solve_storable.
  - split; [exact H1|exact H2].
Defined.

(** ** The services that read *)

Lemma getChatMessages_run order currentUserId chatId limit offset d :
  let r := ChatService.getChatMessages order currentUserId chatId limit offset d in
  untouched d r.1
  ∧ (healthy d -> r.1 = d)
  ∧ ((r.2 = inr (take (Z.to_nat limit)
                   (drop (Z.to_nat offset) (order (Sql.messages_of_chat chatId (tables d)))))
      ∧ chat_exists chatId (tables d) ∧ is_participant currentUserId chatId (tables d)
      ∧ 0 <= limit ∧ 0 <= offset)
     ∨ (∃ status message, r.2 = inl (AppError status message)
         ∧ (status = 404 ∧ ¬ chat_exists chatId (tables d)
            ∨ status = 403 ∧ chat_exists chatId (tables d)
              ∧ ¬ is_participant currentUserId chatId (tables d)
            ∨ status = 500
              ∧ (¬ healthy d ∨ limit < 0 ∨ offset < 0
                 ∨ (¬ Sql.int4 chatId ∧ ¬ chat_exists chatId (tables d)))))).
Proof.
  intros r. subst r. unfold ChatService.getChatMessages. rewrite run_bind.
  destruct (checkUserInChat_run currentUserId chatId true d) as (Hu & Hh & Hr).
  destruct (ChatService.checkUserInChat currentUserId chatId true d) as [d1 [e|b]]; simpl in *.
  { do 2 (split; [done|]). right.
    destruct Hr as [(? & _)|[(? & _)|[([= ->] & ?)|[([= ->] & _ & ? & ?)|(m & [= ->] & ?)]]]];
      try done; do 2 eexists; (split; [done|]); try tauto; auto. }
  destruct Hr as [(_ & Hex & Hp)|[(_ & ? & _)|[(? & _)|[(? & _)|(? & ? & _)]]]]; try done.
  unfold tryCatch. rewrite run_bind.
  destruct (query_run (Sql.messages_page order chatId limit offset) d1) as (Hu' & Hh' & Hr).
  assert (tables d1 = tables d) as Ht by apply Hu.
  assert (untouched d (query (Sql.messages_page order chatId limit offset) d1).1) as Hu2
    by (by eapply untouched_trans).
  assert (healthy d -> (query (Sql.messages_page order chatId limit offset) d1).1 = d) as Hh2.
  { intros Hd. rewrite Hh' by (by rewrite (Hh Hd)). auto. }
  destruct (query (Sql.messages_page order chatId limit offset) d1) as [d2 [e|res]]; simpl in *.
  - do 2 (split; [done|]). right. do 2 eexists. split; [done|]. right. right. split; [done|].
    left. destruct Hr as [?|[Hn _]]; [done|]. intros Hd. apply Hn. by rewrite (Hh Hd).
  - destruct Hr as [[= ->]|[? ?]]; [|done]. rewrite Ht. unfold Sql.messages_page.
    destruct (limit <? 0) eqn:El; destruct (offset <? 0) eqn:Eo; simpl;
      do 2 (split; [done|]);
      try (right; do 2 eexists; split; [done|]; right; right; split; [done|]; lia).
    left. split; [done|]. do 2 (split; [done|]). lia.
Qed.

(** ** The chat search *)

(** [searchUserChats], whatever the database does: it never resolves. *)
Lemma searchUserChats_run order userId searchTerm d :
  let r := ChatService.searchUserChats order userId searchTerm d in
  untouched d r.1
  ∧ (healthy d -> r.1 = d)
  ∧ ((r.2 = inl (AppError 500 "Could not perform chat search.")
      ∧ user_exists userId (tables d))
     ∨ (r.2 = inl (AppError 404 ("User with ID " +:+ Js.numToString userId +:+ " not found."))
        ∧ ¬ user_exists userId (tables d))
     ∨ (r.2 = inl (AppError 500 "Could not find user by ID due to a server error.")
        ∧ ¬ healthy d)).
Proof.
  intros r. subst r. unfold ChatService.searchUserChats. rewrite run_bind.
  destruct (findUserById_run userId true d) as (Hu & Hh & Hr).
  destruct (UserService.findUserById userId true d) as [d1 [e|ou]]; simpl in *.
  { do 2 (split; [done|]). right.
    destruct Hr as [[? _]|[([= ->] & _ & ?)|([= ->] & ?)]]; [done| |]; [left|right]; eauto. }
  destruct Hr as [[_ Hex]|[[? _]|[? _]]]; [|done|done]. specialize (Hex eq_refl).
  unfold tryCatch. rewrite run_bind.
  set (q := Sql.search order userId ("%" +:+ searchTerm +:+ "%")).
  destruct (query_run q d1) as (Hu' & Hh' & Hr).
  assert (tables d1 = tables d) as Ht by apply Hu.
  assert (untouched d (query q d1).1) as Hu2 by (by eapply untouched_trans).
  assert (healthy d -> (query q d1).1 = d) as Hh2.
  { intros Hd. rewrite Hh' by (by rewrite (Hh Hd)). auto. }
  destruct (query q d1) as [d2 [e|res]]; simpl in *.
  - do 2 (split; [done|]). left. done.
  - destruct Hr as [[= ->]|[? ?]]; [|done]. subst q. simpl.
    do 2 (split; [done|]). left. done.
Qed.

(** C8.  [searchUserChats] never returns a chat.  Its query asks for
    DISTINCT rows with two columns of type json, which the server cannot
    compare: it rejects the statement, whatever the user, the search term
    and the tables are, and the catch clause of the function makes a 500 of
    it.  So, whatever the database does, the call rejects and changes
    nothing.  On a database that answers it rejects with the 500 of the
    search for every user that exists, also for a participant of a chat
    whose name is the search term, and with the 404 of [findUserById] for a
    user that does not exist. *)
Theorem searchUserChats_never_resolves (order : list Sql.ChatView -> list Sql.ChatView)
    (userId : Z) (searchTerm : string) (d : Database) :
  let r := ChatService.searchUserChats order userId searchTerm d in
  (∀ result, r.2 ≠ inr result)
  ∧ untouched d r.1
  ∧ (healthy d ->
     (user_exists userId (tables d) ->
      r = (d, inl (AppError 500 "Could not perform chat search.")))
     ∧ (¬ user_exists userId (tables d) ->
        r = (d, inl (AppError 404
                       ("User with ID " +:+ Js.numToString userId +:+ " not found."))))).
Proof.
  intros r. destruct (searchUserChats_run order userId searchTerm d) as (Hu & Hh & Hr).
  fold r in Hu, Hh, Hr. split; [|split; [done|]].
  - intros result E. rewrite E in Hr. by destruct Hr as [[? _]|[[? _]|[? _]]].
  - intros Hd. specialize (Hh Hd). destruct r as [d' res]. simpl in *. subst d'.
    split; intros Hex; destruct Hr as [[-> ?]|[[-> ?]|[_ ?]]]; done.
Qed.

Lemma searchUserChats_never_resolves_witness :
  let order := Sample.order_stored_first (fun v => - Sql.v_created_at v) in
  healthy Sample.database
  ∧ Sample.group ∈ chats Sample.store
  ∧ c_name Sample.group = Some "Lunch"
  ∧ is_participant 1 (c_id Sample.group) Sample.store
  ∧ ChatService.searchUserChats order 1 "Lunch" Sample.database
    = (Sample.database, inl (AppError 500 "Could not perform chat search.")).
Proof.
  intros order. split; [reflexivity|]. split; [set_solver|]. split; [reflexivity|].
  split; [unfold is_participant; simpl; set_solver|].
  destruct (searchUserChats_never_resolves order 1 "Lunch" Sample.database)
    as (_ & _ & H).
  apply (H eq_refl). exists Sample.alice. split; [left | reflexivity].
Defined.

(** ** The services that read, together *)

Lemma getUserChats_run order userId d :
  let r := ChatService.getUserChats order userId d in
  untouched d r.1
  ∧ (healthy d -> r.1 = d)
  ∧ ((r.2 = inr (Sql.user_chats order userId (tables d)) ∧ user_exists userId (tables d))
     ∨ (r.2 = inl (AppError 404 ("User with ID " +:+ Js.numToString userId +:+ " not found."))
        ∧ ¬ user_exists userId (tables d))
     ∨ (∃ message, r.2 = inl (AppError 500 message) ∧ ¬ healthy d)).
Proof.
  intros r. subst r. unfold ChatService.getUserChats. rewrite run_bind.
  destruct (findUserById_run userId true d) as (Hu & Hh & Hr).
  destruct (UserService.findUserById userId true d) as [d1 [e|ou]]; simpl in *.
  { do 2 (split; [done|]). right.
    destruct Hr as [[? _]|[([= ->] & _ & ?)|([= ->] & ?)]]; [done| |]; [left|right]; eauto. }
  destruct Hr as [[_ Hex]|[[? _]|[? _]]]; [|done|done]. specialize (Hex eq_refl).
  unfold tryCatch.
  set (q := Sql.user_chats order userId).
  destruct (query_run q d1) as (Hu' & Hh' & Hr).
  assert (tables d1 = tables d) as Ht by apply Hu.
  assert (untouched d (query q d1).1) as Hu2 by (by eapply untouched_trans).
  assert (healthy d -> (query q d1).1 = d) as Hh2.
  { intros Hd. rewrite Hh' by (by rewrite (Hh Hd)). auto. }
  destruct (query q d1) as [d2 [e|res]]; simpl in *.
  - do 2 (split; [done|]). right. right. eexists. split; [done|].
    destruct Hr as [?|[Hn _]]; [done|]. intros Hd. apply Hn. by rewrite (Hh Hd).
  - destruct Hr as [[= ->]|[? ?]]; [|done]. rewrite Ht.
    do 2 (split; [done|]). left. done.
Qed.

Lemma getUserChatsWithParticipants_cases chatId currentUserId d :
  let r := ChatService.getUserChatsWithParticipants chatId currentUserId d in
  untouched d r.1
  ∧ (r.2 = inr (Sql.chat_details chatId currentUserId (tables d))
     ∨ r.2 = inl (AppError 500 "Could not retrieve detailed chat information.")).
Proof.
  intros r. subst r. unfold ChatService.getUserChatsWithParticipants, tryCatch.
  destruct (query_run (Sql.chat_details chatId currentUserId) d) as (Hu & _ & Hr).
  destruct (query (Sql.chat_details chatId currentUserId) d) as [d1 [e|res]]; simpl in *.
  - split; [done|]. by right.
  - split; [done|]. left. destruct Hr as [?|[_ ?]]; done.
Qed.

(** X4.  The services that read change nothing and throw nothing but
    operational errors.  Whatever their arguments and whatever the database
    does, [findUserById], [findChatById], [checkUserInChat],
    [getUserChatsWithParticipants], [getUserChats], [getChatMessages] and
    [searchUserChats] leave the tables, the sequences, the clock and an open
    transaction as they are, and every error they throw is an [AppError];
    [createMessage] throws nothing but [AppError]s either.  An error of the
    driver never reaches their callers. *)
Theorem reading_services (userId chatId limit offset : Z) (flag : bool)
    (currentUserId : option Z) (term content : string)
    (order_chats : list Sql.ChatView -> list Sql.ChatView)
    (order_messages : list Sql.MessageView -> list Sql.MessageView) :
  (read_only (UserService.findUserById userId flag)
   ∧ operational_only (UserService.findUserById userId flag))
  ∧ (read_only (ChatService.findChatById chatId flag)
     ∧ operational_only (ChatService.findChatById chatId flag))
  ∧ (read_only (ChatService.checkUserInChat userId chatId flag)
     ∧ operational_only (ChatService.checkUserInChat userId chatId flag))
  ∧ (read_only (ChatService.getUserChatsWithParticipants chatId currentUserId)
     ∧ operational_only (ChatService.getUserChatsWithParticipants chatId currentUserId))
  ∧ (read_only (ChatService.getUserChats order_chats userId)
     ∧ operational_only (ChatService.getUserChats order_chats userId))
  ∧ (read_only (ChatService.getChatMessages order_messages userId chatId limit offset)
     ∧ operational_only (ChatService.getChatMessages order_messages userId chatId limit offset))
  ∧ (read_only (ChatService.searchUserChats order_chats userId term)
     ∧ operational_only (ChatService.searchUserChats order_chats userId term))
  ∧ operational_only (ChatService.createMessage chatId userId content).
Proof.
  repeat match goal with |- _ ∧ _ => split end; unfold read_only, operational_only.
  - intros d. apply findUserById_run.
  - intros d e He. destruct (findUserById_run userId flag d) as (_ & _ & Hr).
    rewrite He in Hr. destruct Hr as [[? _]|[([= ->] & _)|([= ->] & _)]]; done.
  - intros d. apply findChatById_run.
  - intros d e He. destruct (findChatById_run chatId flag d) as (_ & _ & Hr).
    rewrite He in Hr. destruct Hr as [[? _]|[([= ->] & _)|([= ->] & _)]]; done.
  - intros d. apply checkUserInChat_run.
  - intros d e He. destruct (checkUserInChat_run userId chatId flag d) as (_ & _ & Hr).
    rewrite He in Hr.
    destruct Hr as [(? & _)|[(? & _)|[([= ->] & ?)|[([= ->] & _)|(m & [= ->] & ?)]]]]; done.
  - intros d. apply getUserChatsWithParticipants_cases.
  - intros d e He. destruct (getUserChatsWithParticipants_cases chatId currentUserId d) as (_ & Hr).
    rewrite He in Hr. destruct Hr as [?|[= ->]]; done.
  - intros d. apply getUserChats_run.
  - intros d e He. destruct (getUserChats_run order_chats userId d) as (_ & _ & Hr).
    rewrite He in Hr. destruct Hr as [[? _]|[([= ->] & _)|(m & [= ->] & _)]]; done.
  - intros d. apply getChatMessages_run.
  - intros d e He.
    destruct (getChatMessages_run order_messages userId chatId limit offset d) as (_ & _ & Hr).
    rewrite He in Hr. destruct Hr as [[? _]|(s & m & [= ->] & _)]; done.
  - intros d. apply searchUserChats_run.
  - intros d e He. destruct (searchUserChats_run order_chats userId term d) as (_ & _ & Hr).
    rewrite He in Hr. destruct Hr as [([= ->] & _)|[([= ->] & _)|([= ->] & _)]]; done.
  - intros d e He. destruct (createMessage_run chatId userId content d)
      as [(_ & s & m & Hr & _)|(_ & _ & _ & u & _ & [Hr|[Hr _]])];
      rewrite He in Hr; try done; by injection Hr as ->.
Qed.

Lemma elem_of_messages_of_chat chatId t v :
  v ∈ Sql.messages_of_chat chatId t
  <-> ∃ m u, m ∈ messages t ∧ u ∈ users t ∧ m_chat_id m = chatId ∧ m_sender_id m = u_id u
             ∧ v = Sql.mkMessageView (m_id m) (m_chat_id m) (m_content m) (m_created_at m)
                     (Sql.mkSender (u_id u) (u_username u)).
Proof.
  unfold Sql.messages_of_chat. rewrite elem_of_flat_map. split.
  - intros (m & Hm & Hv). apply list_elem_of_filter in Hm as [Hc Hm].
    apply elem_of_map in Hv as (u & Hu & ->). apply list_elem_of_filter in Hu as [Hs Hu].
    exists m, u. done.
  - intros (m & u & Hm & Hu & Hc & Hs & ->). exists m. split.
    + apply list_elem_of_filter. done.
    + apply elem_of_map. exists u. split; [|done]. apply list_elem_of_filter. done.
Qed.

(** X5.  The message history is scoped to the chat and to its participants.
    Whatever the database does, when [getChatMessages] resolves, the chat
    exists, the caller has a participant row in it, the limit and the offset
    are not negative, there are at most [limit] rows, and every row is a
    stored message of this very chat together with the id and username of
    its sender. *)
Theorem getChatMessages_scope (order : list Sql.MessageView -> list Sql.MessageView)
    (currentUserId chatId limit offset : Z) (d : Database) (rows : list Sql.MessageView) :
  Sql.OrderBy Sql.mv_created_at order ->
  (ChatService.getChatMessages order currentUserId chatId limit offset d).2 = inr rows ->
  chat_exists chatId (tables d) ∧ is_participant currentUserId chatId (tables d)
  ∧ 0 <= limit ∧ 0 <= offset
  ∧ Z.of_nat (length rows) <= limit
  ∧ ∀ v, v ∈ rows ->
      Sql.mv_chat_id v = chatId
      ∧ ∃ m u, m ∈ messages (tables d) ∧ u ∈ users (tables d)
               ∧ m_chat_id m = chatId ∧ m_sender_id m = u_id u
               ∧ v = Sql.mkMessageView (m_id m) chatId (m_content m) (m_created_at m)
                       (Sql.mkSender (m_sender_id m) (u_username u)).
Proof.
  intros Horder Hr.
  destruct (getChatMessages_run order currentUserId chatId limit offset d) as (_ & _ & Hc).
  rewrite Hr in Hc. destruct Hc as [([= ->] & Hex & Hp & Hl & Ho)|(? & ? & ? & _)]; [|done].
  do 4 (split; [done|]). split.
  { rewrite length_take. lia. }
  intros v Hv. apply subseteq_take, subseteq_drop in Hv.
  destruct (Horder (Sql.messages_of_chat chatId (tables d))) as [Hperm _].
  rewrite Hperm in Hv. apply elem_of_messages_of_chat in Hv as (m & u & Hm & Hu & Hc & Hs & ->).
  split; [done|]. exists m, u. rewrite Hc, Hs. done.
Qed.

Lemma getChatMessages_scope_witness :
  ∃ rows,
    (ChatService.getChatMessages (Sample.order_stored_first Sql.mv_created_at) 2 7 3 8
       Sample.history).2 = inr rows
    ∧ Z.of_nat (length rows) <= 3
    ∧ ∀ v, v ∈ rows -> Sql.mv_chat_id v = 7.
Proof.
  eexists. split; [vm_compute; reflexivity|].
  pose proof (getChatMessages_scope (Sample.order_stored_first Sql.mv_created_at) 2 7 3 8
                Sample.history _ (order_stored_first_lawful _) eq_refl)
    as (_ & _ & _ & _ & Hlen & Hall).
  split; [exact Hlen|]. intros v Hv. exact (proj1 (Hall v Hv)).
Defined.





(** ** The chat list *)

Lemma other_participants_exclude chatId me t s :
  s ∈ Sql.other_participants_of chatId (Some me) t ->
  Sql.s_id s ≠ me ∧ s ∈ Sql.all_participants_of chatId t.
Proof.
  unfold Sql.other_participants_of, Sql.all_participants_of.
  intros Hs. apply elem_of_map in Hs as (row & Hrow & ->).
  apply list_elem_of_filter in Hrow as [Hne Hrow]. split.
  - apply elem_of_users_of_chat in Hrow as (_ & _ & Hid & _). simpl. by rewrite Hid.
  - apply elem_of_map. eauto.
Qed.

Lemma Sorted_weaken {A} (R R' : A -> A -> Prop) (l : list A) :
  (∀ a b, R a b -> R' a b) -> Sorted R l -> Sorted R' l.
Proof.
  intros HR. induction 1 as [|a l Hs IH Hhd]; constructor; [done|].
  destruct Hhd; constructor. auto.
Qed.

Lemma elem_of_user_chats_rows userId t v :
  v ∈ flat_map
        (fun c => map (fun _ => Sql.view_of (Some userId) t c)
                    (filter (fun cp => c_id c = cp_chat_id cp ∧ cp_user_id cp = userId)
                            (chat_participants t)))
        (chats t)
  <-> ∃ c, c ∈ chats t ∧ is_participant userId (c_id c) t
           ∧ v = Sql.view_of (Some userId) t c.
Proof.
  rewrite elem_of_flat_map. split.
  - intros (c & Hc & Hv). apply elem_of_map in Hv as (cp & Hcp & ->).
    apply list_elem_of_filter in Hcp as [[Hid Hu] Hcp].
    exists c. split; [done|]. split; [|done].
    unfold is_participant. rewrite Hid, <- Hu, participant_eta. done.
  - intros (c & Hc & Hp & ->). exists c. split; [done|].
    apply elem_of_map. exists (mkParticipant (c_id c) userId). split; [|done].
    apply list_elem_of_filter. done.
Qed.

(** X8.  The chat list of a user is the list of the chats in which the user
    has a participant row, newest first.  On a database that answers,
    [getUserChats] rejects with a 404 when the user does not exist;
    otherwise it resolves, the result holds a chat exactly when it is a
    stored chat with a participant row of the user, it is sorted by
    [created_at] downwards, and the user is never among the
    [other_participants] of a chat. *)
Theorem getUserChats_result (order : list Sql.ChatView -> list Sql.ChatView)
    (userId : Z) (d : Database) :
  Sql.OrderBy (fun v => - Sql.v_created_at v) order ->
  healthy d ->
  (¬ user_exists userId (tables d) ->
   ChatService.getUserChats order userId d
   = (d, inl (AppError 404 ("User with ID " +:+ Js.numToString userId +:+ " not found."))))
  ∧ (user_exists userId (tables d) ->
     ∃ result,
       ChatService.getUserChats order userId d = (d, inr result)
       ∧ (∀ v, v ∈ result
               <-> ∃ c, c ∈ chats (tables d) ∧ is_participant userId (c_id c) (tables d)
                        ∧ v = Sql.view_of (Some userId) (tables d) c)
       ∧ Sorted (fun a b => Sql.v_created_at b <= Sql.v_created_at a) result
       ∧ ∀ v s, v ∈ result -> s ∈ Sql.v_other_participants v ->
                Sql.s_id s ≠ userId ∧ s ∈ Sql.v_all_participants v).
Proof.
  intros Horder Hh.
  destruct (getUserChats_run order userId d) as (_ & Hd & Hr). specialize (Hd Hh).
  destruct (ChatService.getUserChats order userId d) as [d' res]; simpl in *. subst d'.
  split.
  - intros Hno. f_equal.
    destruct Hr as [[_ ?]|[[-> _]|(? & _ & ?)]]; done.
  - intros Hex. destruct Hr as [[-> _]|[[_ ?]|(? & _ & ?)]]; [|done|done].
    eexists. split; [done|]. unfold Sql.user_chats.
    match goal with |- context [order ?l] => destruct (Horder l) as [Hperm Hsorted] end.
    assert (∀ v, v ∈ order
                   (flat_map
                      (fun c => map (fun _ => Sql.view_of (Some userId) (tables d) c)
                                  (filter (fun cp => c_id c = cp_chat_id cp
                                                     ∧ cp_user_id cp = userId)
                                          (chat_participants (tables d))))
                      (chats (tables d)))
                 <-> ∃ c, c ∈ chats (tables d) ∧ is_participant userId (c_id c) (tables d)
                          ∧ v = Sql.view_of (Some userId) (tables d) c) as Hin.
    { intros v. rewrite Hperm. apply elem_of_user_chats_rows. }
    split; [exact Hin|]. split.
    + eapply Sorted_weaken; [|exact Hsorted]. simpl. intros a b. lia.
    + intros v s Hv Hs. apply Hin in Hv as (c & _ & _ & ->).
      by apply other_participants_exclude in Hs.
Qed.

Lemma getUserChats_result_witness :
  ∃ result,
    ChatService.getUserChats (Sample.order_stored_first (fun v => - Sql.v_created_at v))
      2 Sample.database = (Sample.database, inr result)
    ∧ (∀ c, c ∈ chats Sample.store -> is_participant 2 (c_id c) Sample.store ->
            Sql.view_of (Some 2) Sample.store c ∈ result)
    ∧ Sorted (fun a b => Sql.v_created_at b <= Sql.v_created_at a) result.
Proof.
  destruct (getUserChats_result (Sample.order_stored_first (fun v => - Sql.v_created_at v))
              2 Sample.database (order_stored_first_lawful _) eq_refl) as [_ Hyes].
  destruct Hyes as (result & E & Hin & Hsorted & _).
  { exists Sample.bob. split; [set_solver|done]. }
  exists result. split; [exact E|]. split; [|exact Hsorted].
  intros c Hc Hp. apply Hin. eauto.
Defined.

(** ** [createChat] when everything goes well *)

Lemma forEach_findUserById_ok userIds d :
  healthy d -> (∀ u, u ∈ userIds -> user_exists u (tables d)) ->
  forEach userIds (fun userId => await UserService.findUserById userId true in ret tt) d
  = (d, inr tt).
Proof.
  intros Hh. induction userIds as [|u us IH]; intros Hall; simpl; [done|].
  rewrite !run_bind, findUserById_strict by done.
  assert (user_exists u (tables d)) as Hu by (apply Hall; left).
  apply users_by_id_head in Hu as [x ->]. simpl.
  apply IH. intros u' Hu'. apply Hall. by right.
Qed.

Lemma participant_rows_add userId chatId cp t :
  Sql.participant_rows userId chatId (Sql.add_participant cp t)
  = Sql.participant_rows userId chatId t
    ++ (if decide (cp_user_id cp = userId ∧ cp_chat_id cp = chatId) then [cp] else []).
Proof.
  unfold Sql.participant_rows, Sql.add_participant. simpl. rewrite filter_app. f_equal.
Qed.



Lemma filter_nil_iff {A} (P : A -> Prop) `{!∀ x, Decision (P x)} (l : list A) :
  filter P l = [] <-> ∀ x, x ∈ l -> ¬ P x.
Proof.
  split.
  - intros E. apply (proj1 (head_filter_None P l)). by rewrite E.
  - intros Hall. apply (proj2 (head_filter_None P l)) in Hall.
    by destruct (filter P l).
Qed.




(** ** [createChat] with an id that occurs twice *)

Lemma forEach_insert_participant_twice chatId userIds :
  ∀ d w,
    healthy d -> in_tx d = Some w ->
    (¬ NoDup userIds ∨ ∃ u, u ∈ userIds ∧ Sql.participant_rows u chatId w ≠ []) ->
    ∃ d' m, forEach userIds (fun userId => Pg.insert_participant chatId userId) d
            = (d', inl (PgError m))
            ∧ healthy d'.
Proof.
  induction userIds as [|u us IH]; intros d w Hh Htx Hdup.
  { destruct Hdup as [Hnd|(u & Hu & _)]; [destruct Hnd; constructor|by apply not_elem_of_nil in Hu]. }
  simpl. rewrite run_bind. unfold Pg.insert_participant at 1.
  rewrite run_bind, roundTrip_healthy by done.
  unfold Pg.view, Pg.write. rewrite Htx. simpl.
  destruct (Sql.participant_admissible chatId u w) eqn:Hadm; [|eauto].
  unfold Sql.participant_admissible in Hadm.
  apply andb_true_iff in Hadm as [Hadm _]. apply andb_true_iff in Hadm as [Hrows _].
  apply bool_decide_eq_true in Hrows.
  apply (IH _ (Sql.add_participant (mkParticipant chatId u) w)); [done|done|].
  destruct Hdup as [Hnd|(u0 & Hu0 & Hrows0)].
  - destruct (decide (u ∈ us)) as [Hin|Hnotin].
    + right. exists u. split; [done|]. rewrite participant_rows_add. simpl.
      rewrite decide_True by done. by destruct (Sql.participant_rows u chatId w).
    + left. intros Hnd'. apply Hnd. by constructor.
  - right. exists u0. apply elem_of_cons in Hu0 as [->|Hu0]; [done|]. split; [done|].
    rewrite participant_rows_add. by destruct (Sql.participant_rows u0 chatId w).
Qed.

(** X10.  The service does not accept a participant twice.  On a database
    that answers, [createChat] for ids of existing users among which one
    occurs twice rejects with its 500: the second insert of the pair
    violates the primary key of [chat_participants], the transaction is
    rolled back, and the tables are as before.  (The controller removes
    repeated ids before it calls the service.) *)
Theorem createChat_duplicate_id (userIds : list Z) (name : option string)
    (isGroupChat : bool) (d : Database) :
  healthy d -> in_tx d = None ->
  (∀ u, u ∈ userIds -> user_exists u (tables d)) ->
  ¬ NoDup userIds ->
  let r := ChatService.createChat userIds name isGroupChat d in
  r.2 = inl (AppError 500 "Could not create chat due to a server error.")
  ∧ tables r.1 = tables d.
Proof.
  intros Hh Htx Hall Hdup r.
  assert (r.2 = inl (AppError 500 "Could not create chat due to a server error.")) as Hr.
  { subst r. unfold ChatService.createChat, Pg.connect.
    rewrite run_bind, roundTrip_healthy by done.
    unfold tryFinally, tryCatch. rewrite run_bind.
    unfold Pg.begin at 1. rewrite run_bind, roundTrip_healthy by done.
    set (d1 := set_in_tx (Some (tables d)) d).
    rewrite run_bind, (forEach_findUserById_ok userIds d1) by done.
    rewrite run_bind. unfold Pg.insert_chat at 1. rewrite run_bind, roundTrip_healthy by done.
    destruct (Sql.stored_name name) as [stored|]; simpl.
    2:{ rewrite run_bind. unfold Pg.rollback.
        rewrite run_bind, roundTrip_healthy by done. done. }
    unfold Pg.view, Pg.write. simpl.
    destruct (Sql.chat_admissible _ _).
    - rewrite run_bind.
      match goal with
      | |- context [forEach userIds ?f ?d2] =>
          destruct (forEach_insert_participant_twice (chats_id_seq d + 1) userIds d2
                      (Sql.add_chat (mkChat (chats_id_seq d + 1) stored isGroupChat (clock d))
                                    (tables d)))
            as (d' & m & E & Hh'); [done|done|by left|];
          change (forEach userIds f d2)
            with (forEach userIds
                    (fun userId => Pg.insert_participant (chats_id_seq d + 1) userId) d2)
      end.
      rewrite E. simpl. rewrite run_bind. unfold Pg.rollback.
      rewrite run_bind, roundTrip_healthy by done. done.
    - simpl. rewrite run_bind. unfold Pg.rollback.
      rewrite run_bind, roundTrip_healthy by done. done. }
  split; [done|].
  pose proof (createChat_outcomes userIds name isGroupChat d Htx) as Ho.
  cbv zeta in Ho. fold r in Ho. rewrite Hr in Ho.
  destruct Ho as [?|(stored & _ & _ & [?|[? ?]])]; done.
Qed.

Lemma createChat_duplicate_id_witness :
  let r := ChatService.createChat [1; 2; 1] (Some "Trio") true Sample.database in
  r.2 = inl (AppError 500 "Could not create chat due to a server error.")
  ∧ tables r.1 = Sample.store.
Proof.
  apply (createChat_duplicate_id [1; 2; 1] (Some "Trio") true Sample.database eq_refl eq_refl).
  - intros u Hu.
    apply elem_of_cons in Hu as [->|Hu]; [by exists Sample.alice; split; [set_solver|]|].
    apply elem_of_cons in Hu as [->|Hu]; [by exists Sample.bob; split; [set_solver|]|].
    apply elem_of_cons in Hu as [->|Hu]; [by exists Sample.alice; split; [set_solver|]|].
    by apply not_elem_of_nil in Hu.
  - intros Hnd. apply NoDup_cons in Hnd as [Hnotin _]. apply Hnotin. set_solver.
Defined.

(** X11.  [createChat] is all or nothing, whatever the database does.
    Called outside a transaction, it leaves no transaction open, and the
    tables afterwards are those of before or those of before with the whole
    new chat, the chat row and a participant row for every id: never a part
    of it.  The name of the chat row is what the column [name VARCHAR(255)]
    stores of the name that was given: for a name of more than 255
    characters of which all after the first 255 are spaces, these first 255
    characters.  When the call resolves, the chat is stored; for a name that
    the column does not take it never resolves and nothing is stored; when
    it rejects with an [AppError] other than a 500, nothing is stored; the
    messages and their sequence are as before in any case. *)
Theorem createChat_atomic (userIds : list Z) (name : option string) (isGroupChat : bool)
    (d : Database) :
  in_tx d = None ->
  let r := ChatService.createChat userIds name isGroupChat d in
  let stored_as stored :=
    Sql.stored_name name = Some stored
    ∧ tables r.1 = with_new_chat userIds stored isGroupChat d in
  in_tx r.1 = None
  ∧ (tables r.1 = tables d ∨ ∃ stored, stored_as stored)
  ∧ (∀ created, r.2 = inr created -> ∃ stored, stored_as stored)
  ∧ (Sql.stored_name name = None ->
     tables r.1 = tables d ∧ ∀ created, r.2 ≠ inr created)
  ∧ (∀ status message, r.2 = inl (AppError status message) -> status ≠ 500 ->
       tables r.1 = tables d)
  ∧ messages (tables r.1) = messages (tables d)
  ∧ messages_id_seq r.1 = messages_id_seq d.
Proof.
  intros Htx r stored_as. subst stored_as.
  pose proof (createChat_outcomes userIds name isGroupChat d Htx) as Ho.
  pose proof (createChat_effect userIds name isGroupChat d Htx) as (Hin & Hseq & _ & Ht).
  cbv zeta in Ho. fold r in Ho, Hin, Hseq, Ht.
  split; [done|]. split; [destruct Ht as [?|(stored & ? & ? & _)]; eauto|]. split.
  { intros created Hr. by rewrite Hr in Ho. }
  split.
  { intros Hnone. split.
    - destruct Ht as [?|(stored & Hs & _)]; [done|]. by rewrite Hnone in Hs.
    - intros created Hr. rewrite Hr in Ho. destruct Ho as (stored & Hs & _).
      by rewrite Hnone in Hs. }
  split.
  { intros status message Hr Hs. rewrite Hr in Ho.
    destruct Ho as [?|(stored & _ & _ & [[= -> _]|[? ?]])]; done. }
  split; [|done].
  destruct Ht as [->|(stored & _ & -> & _)]; [done|].
  pose proof (with_participants_tables (chats_id_seq d + 1) userIds
                (Sql.add_chat (mkChat (chats_id_seq d + 1) stored isGroupChat (clock d))
                              (tables d))) as (_ & _ & Hm & _).
  exact Hm.
Qed.

Lemma createChat_atomic_witness :
  let a255 := String.string_of_list_ascii (repeat "a"%char 255) in
  let r := ChatService.createChat [1; 2; 3] (Some (a255 +:+ "  ")) true Sample.database in
  in_tx r.1 = None
  ∧ tables r.1 = with_new_chat [1; 2; 3] (Some a255) true Sample.database
  ∧ (∃ created, r.2 = inr created)
  ∧ (ChatService.createChat [1; 2; 3] (Some (a255 +:+ "b")) true Sample.database).2
    = inl (AppError 500 "Could not create chat due to a server error.").
Proof.
  intros a255 r.
  destruct (createChat_atomic [1; 2; 3] (Some (a255 +:+ "  ")) true Sample.database eq_refl)
    as (Htx & _ & Hres & _).
  assert (∃ created, r.2 = inr created) as [created Hr]
    by (eexists; vm_compute; reflexivity).
  split; [exact Htx|]. split; [|split; [eauto | vm_compute; reflexivity]].
  destruct (Hres created Hr) as (stored & Hs & Ht).
  fold r in Ht. rewrite Ht. vm_compute in Hs. injection Hs as <-. reflexivity.
Defined.

(** ** More of the session layer *)

Section Sessions.

Variable accessTokenOf : string -> option string.
Variable jwt_verify : string -> Socket.Verified.

Local Abbreviation step := (Socket.step accessTokenOf jwt_verify).
Local Abbreviation run := (Socket.run accessTokenOf jwt_verify).
Local Abbreviation authenticate := (Socket.authenticate accessTokenOf jwt_verify).

(** X12.  What an event of a client can change.  No event but [disconnect]
    changes the set of connected sockets, so an event that fails never ends
    a connection; a [joinChat] uses round trips and changes nothing else in
    the database; [leaveChat], [typing] and [disconnect] do not touch the
    database at all; a [sendMessage] leaves the users, the chats, the
    participants and the rooms as they are; and what was delivered stays
    delivered. *)
Theorem event_frame (s : Socket.Server) (c : Socket.SocketId) (e : Socket.ClientEvent) :
  let s' := step s (Socket.Receive c e) in
  (e ≠ Socket.disconnect -> Socket.sockets s' = Socket.sockets s)
  ∧ match e with
    | Socket.joinChat _ => untouched (Socket.db s) (Socket.db s')
    | Socket.sendMessage _ =>
        users (tables (Socket.db s')) = users (tables (Socket.db s))
        ∧ chats (tables (Socket.db s')) = chats (tables (Socket.db s))
        ∧ chat_participants (tables (Socket.db s')) = chat_participants (tables (Socket.db s))
        ∧ Socket.rooms s' = Socket.rooms s
    | Socket.leaveChat _ | Socket.typing _ | Socket.disconnect => Socket.db s' = Socket.db s
    end
  ∧ ∃ news, Socket.outbox s' = Socket.outbox s ++ news.
Proof.
  simpl. destruct (Socket.sockets s !! c) as [user|] eqn:Hc.
  2:{ split; [done|]. split; [|exists []; by rewrite app_nil_r].
      destruct e; done. }
  destruct e as [data|data|data|data|].
  - unfold Socket.onJoinChat. destruct (Socket.invalidChatId _).
    { split; [done|]. split; [apply untouched_refl|]. by eexists. }
    pose proof (checkUserInChat_untouched (id user) (default 0 (Socket.chatIdOf data)) true
                  (Socket.db s)) as Hu.
    destruct (ChatService.checkUserInChat _ _ _ _) as [d [error|b]]; simpl in *;
      (split; [done|]); (split; [done|]); by eexists.
  - unfold Socket.onLeaveChat. destruct (Socket.invalidChatId _).
    { split; [done|]. split; [done|]. exists []. by rewrite app_nil_r. }
    split; [done|]. split; [done|]. by eexists.
  - unfold Socket.onSendMessage.
    assert (∀ event message,
              let s' := Socket.emit c (Socket.socketError event message) s in
              (Socket.sendMessage data ≠ Socket.disconnect ->
               Socket.sockets s' = Socket.sockets s)
              ∧ (users (tables (Socket.db s')) = users (tables (Socket.db s))
                 ∧ chats (tables (Socket.db s')) = chats (tables (Socket.db s))
                 ∧ chat_participants (tables (Socket.db s'))
                   = chat_participants (tables (Socket.db s))
                 ∧ Socket.rooms s' = Socket.rooms s)
              ∧ ∃ news, Socket.outbox s' = Socket.outbox s ++ news) as Herr.
    { intros event message. simpl. split; [done|]. split; [done|]. by eexists. }
    destruct (Socket.invalidChatId _); [apply Herr|].
    destruct (Socket.contentOf data) as [[|a text]|]; [apply Herr| |apply Herr].
    destruct (2000 <? _); [apply Herr|].
    pose proof (createMessage_effect (default 0 (Socket.chatIdOf data)) (id user)
                  (String a text) (Socket.db s)) as (H1 & H2 & H3 & _).
    destruct (ChatService.createMessage _ _ _ _) as [d [error|m]]; simpl in *;
      (split; [done|]); (split; [done|]); by eexists.
  - unfold Socket.onTyping. destruct (Socket.isTypingOf data).
    2:{ split; [done|]. split; [done|]. exists []. by rewrite app_nil_r. }
    destruct (Socket.invalidChatId _).
    { split; [done|]. split; [done|]. exists []. by rewrite app_nil_r. }
    split; [done|]. split; [done|]. by eexists.
  - split; [done|]. split; [done|]. exists []. by rewrite app_nil_r.
Qed.

Lemma step_authenticated (known : Socket.SocketId -> UserPayload -> Prop)
    (s : Socket.Server) (i : Socket.Input) :
  (∀ c user, Socket.sockets s !! c = Some user -> known c user) ->
  (∀ chat c, c ∈ Socket.room chat s -> is_Some (Socket.sockets s !! c)) ->
  (∀ c e, (c, e) ∈ Socket.outbox s ->
     (∃ message, e = Socket.connect_error message) ∨ ∃ user, known c user) ->
  (∀ c cookieString user,
     i = Socket.Connect c cookieString -> authenticate cookieString = inr user ->
     known c user) ->
  (∀ c user, Socket.sockets (step s i) !! c = Some user -> known c user)
  ∧ (∀ chat c, c ∈ Socket.room chat (step s i) -> is_Some (Socket.sockets (step s i) !! c))
  ∧ (∀ c e, (c, e) ∈ Socket.outbox (step s i) ->
       (∃ message, e = Socket.connect_error message) ∨ ∃ user, known c user).
Proof.
  intros Hk Hr Ho Hi.
  assert (∀ c0 user0 e0,
            Socket.sockets s !! c0 = Some user0 ->
            ∀ c e, (c, e) ∈ Socket.outbox (Socket.emit c0 e0 s) ->
                   (∃ message, e = Socket.connect_error message) ∨ ∃ user, known c user)
    as Hemit.
  { intros c0 user0 e0 Hc0 c e He. apply outbox_emit in He as [?|[-> _]]; [auto|].
    right. eauto. }
  destruct i as [c0 cookieString | c0 ev | d]; simpl.
  - destruct (Socket.sockets s !! c0) as [u0|] eqn:Hc0; [done|].
    destruct (authenticate cookieString) as [message|user] eqn:Ha; simpl.
    + split; [done|]. split; [done|]. intros c e He.
      apply outbox_emit in He as [?|[_ ->]]; [auto|]. left. eauto.
    + split; [|split; [|done]].
      * intros c user' Hc. destruct (decide (c = c0)) as [->|Hne].
        -- rewrite lookup_insert_eq in Hc. injection Hc as <-. eauto.
        -- rewrite lookup_insert_ne in Hc by done. auto.
      * intros chat c Hc. apply Hr in Hc. destruct (decide (c = c0)) as [->|Hne].
        -- rewrite lookup_insert_eq. eauto.
        -- by rewrite lookup_insert_ne.
  - destruct (Socket.sockets s !! c0) as [user|] eqn:Hc0; [|done].
    destruct ev as [data|data|data|data|].
    + unfold Socket.onJoinChat. destruct (Socket.invalidChatId _).
      { split; [done|]. split; [done|]. by eapply Hemit. }
      destruct (ChatService.checkUserInChat _ _ _ _) as [d [error|b]].
      * split; [done|]. split; [done|]. intros c e He.
        apply outbox_emit in He as [?|[-> _]]; [auto|]. right. eauto.
      * split; [done|]. split.
        -- intros chat c.
           change (Socket.room chat (Socket.emit ?a ?b ?x)) with (Socket.room chat x).
           rewrite room_join.
           change (Socket.room chat (Socket.set_db d s)) with (Socket.room chat s).
           simpl. case_decide; [|apply Hr].
           intros [Hin|?]%elem_of_union; [|by eapply Hr].
           apply elem_of_singleton in Hin as ->. eauto.
        -- intros c e He. apply outbox_emit in He as [?|[-> _]]; [auto|]. right. eauto.
    + unfold Socket.onLeaveChat. destruct (Socket.invalidChatId _); [done|].
      split; [done|]. split.
      * intros chat c.
        change (Socket.room chat (Socket.emit ?a ?b ?x)) with (Socket.room chat x).
        rewrite room_leave. simpl. case_decide; [|apply Hr].
        intros [? _]%elem_of_difference. by eapply Hr.
      * intros c e He. apply outbox_emit in He as [?|[-> _]]; [auto|]. right. eauto.
    + unfold Socket.onSendMessage.
      destruct (Socket.invalidChatId _); [split; [done|]; split; [done|]; by eapply Hemit|].
      destruct (Socket.contentOf data) as [[|a text]|];
        try (split; [done|]; split; [done|]; by eapply Hemit).
      destruct (2000 <? _); [split; [done|]; split; [done|]; by eapply Hemit|].
      destruct (ChatService.createMessage _ _ _ _) as [d [error|m]].
      * split; [done|]. split; [done|]. intros c e He.
        apply outbox_emit in He as [?|[-> _]]; [auto|]. right. eauto.
      * split; [done|]. split; [done|]. intros c e He.
        unfold Socket.io_to_emit in He. simpl in He.
        apply elem_of_app in He as [?|He]; [auto|].
        apply elem_of_deliveries in He as [_ Hin].
        change (Socket.room ?r (Socket.set_db d s)) with (Socket.room r s) in Hin.
        apply Hr in Hin as [u Hu]. right. eauto.
    + unfold Socket.onTyping. destruct (Socket.isTypingOf data); [|done].
      destruct (Socket.invalidChatId _); [done|].
      split; [done|]. split; [done|]. intros c e He.
      unfold Socket.socket_to_emit in He. simpl in He.
      apply elem_of_app in He as [?|He]; [auto|].
      apply elem_of_deliveries in He as [_ Hin].
      apply elem_of_difference in Hin as [Hin _].
      apply Hr in Hin as [u Hu]. right. eauto.
    + unfold Socket.onDisconnect. split; [|split; [|done]].
      * intros c user' Hc. simpl in Hc. apply lookup_delete_Some in Hc as [_ Hc]. auto.
      * intros chat c.
        change (Socket.room chat (Socket.set_sockets ?k ?x)) with (Socket.room chat x).
        rewrite room_leaveAll. intros [Hin Hne]%elem_of_difference. simpl.
        rewrite lookup_delete_ne by set_solver. by eapply Hr.
  - done.
Qed.

(** X13.  Only sockets that passed the handshake take part.  In every state
    that the server reaches from its start, every connected socket carries
    the identity that the middleware decoded from the cookie of its own
    connection request, every member of a room is a connected socket, and
    everything that was ever delivered, the refusal of a handshake aside,
    went to a socket that had passed the handshake. *)
Theorem rooms_hold_authenticated_sockets (d0 : Database) (trace : list Socket.Input) :
  let s := run (Socket.boot d0) trace in
  let passed c user :=
    ∃ cookieString, Socket.Connect c cookieString ∈ trace
                    ∧ authenticate cookieString = inr user in
  (∀ c user, Socket.sockets s !! c = Some user -> passed c user)
  ∧ (∀ chat c, c ∈ Socket.room chat s -> is_Some (Socket.sockets s !! c))
  ∧ (∀ c e, (c, e) ∈ Socket.outbox s ->
       (∃ message, e = Socket.connect_error message) ∨ ∃ user, passed c user).
Proof.
  induction trace as [|i trace IH] using rev_ind; intros s passed.
  - subst s. simpl. split; [|split].
    + intros c user Hc. by rewrite lookup_empty in Hc.
    + intros chat c Hc. unfold Socket.room in Hc. simpl in Hc.
      rewrite lookup_total_empty in Hc. set_solver.
    + intros c e He. by apply not_elem_of_nil in He.
  - subst s. rewrite (run_snoc accessTokenOf jwt_verify).
    destruct IH as (IH1 & IH2 & IH3).
    apply (step_authenticated passed).
    + intros c user Hc. destruct (IH1 c user Hc) as (k & Hin & Ha).
      exists k. split; [|done]. apply elem_of_app. by left.
    + exact IH2.
    + intros c e He. destruct (IH3 c e He) as [?|(user & k & Hin & Ha)]; [by left|].
      right. exists user, k. split; [|done]. apply elem_of_app. by left.
    + intros c k user -> Ha. exists k. split; [|done]. apply elem_of_app. right. by left.
Qed.

(** X14.  Every [newMessage] that is delivered stands for a row that has
    just been stored.  When an input makes the server deliver a
    [newMessage], the input is a [sendMessage] of a connected socket, the
    message carries the id of that socket's user as its sender, its chat
    and content are those the handler read from the payload, the user has a
    participant row in that chat, the receiver is in the room of that chat,
    and the table of messages has grown by exactly the row of this
    message. *)
Theorem newMessage_is_stored (s : Socket.Server) (i : Socket.Input)
    (c' : Socket.SocketId) (m : ChatService.NewMessage) :
  (c', Socket.newMessage m) ∈ Socket.outbox (step s i) ->
  (c', Socket.newMessage m) ∉ Socket.outbox s ->
  ∃ c user data,
    i = Socket.Receive c (Socket.sendMessage data)
    ∧ Socket.sockets s !! c = Some user
    ∧ Socket.chatIdOf data = Some (ChatService.nm_chat_id m)
    ∧ Socket.contentOf data = Some (ChatService.nm_content m)
    ∧ ChatService.nm_sender_id m = id user
    ∧ Sql.s_id (ChatService.nm_sender m) = id user
    ∧ is_participant (id user) (ChatService.nm_chat_id m) (tables (Socket.db s))
    ∧ c' ∈ Socket.room (ChatService.nm_chat_id m) s
    ∧ messages (tables (Socket.db (step s i)))
      = messages (tables (Socket.db s))
        ++ [mkMessage (ChatService.nm_id m) (ChatService.nm_chat_id m) (id user)
              (ChatService.nm_content m) (ChatService.nm_created_at m)].
Proof.
  intros Hin Hnew.
  assert (∀ c0 e0, (∀ m0, e0 ≠ Socket.newMessage m0) ->
            (c', Socket.newMessage m) ∉ Socket.outbox (Socket.emit c0 e0 s)) as Hemit.
  { intros c0 e0 He0 He. apply outbox_emit in He as [?|[_ He]]; [done|]. by eapply He0. }
  destruct i as [c0 cookieString | c0 ev | d]; simpl in Hin.
  - destruct (Socket.sockets s !! c0); [done|].
    destruct (authenticate cookieString); [|done]. by apply Hemit in Hin.
  - destruct (Socket.sockets s !! c0) as [user|] eqn:Hc0; [|done].
    destruct ev as [data|data|data|data|].
    + unfold Socket.onJoinChat in Hin. destruct (Socket.invalidChatId _).
      { by apply Hemit in Hin. }
      destruct (ChatService.checkUserInChat _ _ _ _) as [d [error|b]];
        apply outbox_emit in Hin as [?|[_ ?]]; done.
    + unfold Socket.onLeaveChat in Hin. destruct (Socket.invalidChatId _); [done|].
      apply outbox_emit in Hin as [?|[_ ?]]; done.
    + simpl. rewrite Hc0. unfold Socket.onSendMessage in *.
      destruct (Socket.chatIdOf data) as [chat|] eqn:Hid; simpl in *;
        [|by apply Hemit in Hin].
      destruct (chat <=? 0); [by apply Hemit in Hin|].
      destruct (Socket.contentOf data) as [[|a text]|] eqn:Htext;
        try (by apply Hemit in Hin).
      destruct (2000 <? _); [by apply Hemit in Hin|].
      pose proof (createMessage_run chat (id user) (String a text) (Socket.db s)) as Hrun.
      destruct (ChatService.createMessage _ _ _ _) as [d [error|m0]]; simpl in *.
      { apply outbox_emit in Hin as [?|[_ ?]]; done. }
      apply elem_of_app in Hin as [?|Hin]; [done|].
      apply elem_of_deliveries in Hin as [[= ->] Hroom].
      change (Socket.room ?r (Socket.set_db d s)) with (Socket.room r s) in Hroom.
      destruct Hrun as [(_ & ? & ? & ? & _)|(Ht & _ & Hp & sender & Hsender & Hr)]; [done|].
      destruct Hr as [[= ->]|[? _]]; [|done]. simpl in *.
      assert (u_id sender = id user) as Hsid.
      { apply head_Some_elem_of in Hsender. unfold Sql.users_by_id in Hsender.
        by apply list_elem_of_filter in Hsender as [? _]. }
      exists c0, user, data. rewrite Ht. done.
    + unfold Socket.onTyping in Hin. destruct (Socket.isTypingOf data); [|done].
      destruct (Socket.invalidChatId _); [done|].
      unfold Socket.socket_to_emit in Hin. simpl in Hin.
      apply elem_of_app in Hin as [?|Hin]; [done|].
      by apply elem_of_deliveries in Hin as [? _].
    + done.
  - done.
Qed.

(** X15.  A [sendMessage] of a user without a participant row in the chat
    stores nothing and reaches nobody, whatever the database does, and also
    when the socket is in the room of the chat: the tables and the rooms are
    as before, and the only thing delivered is one [socketError] to the
    sender. *)
Theorem sendMessage_refused (s : Socket.Server) (c : Socket.SocketId) (user : UserPayload)
    (data : option Socket.Payload) :
  Socket.sockets s !! c = Some user ->
  (∀ chat, Socket.chatIdOf data = Some chat ->
           ¬ is_participant (id user) chat (tables (Socket.db s))) ->
  let s' := step s (Socket.Receive c (Socket.sendMessage data)) in
  tables (Socket.db s') = tables (Socket.db s)
  ∧ Socket.rooms s' = Socket.rooms s
  ∧ ∃ message,
      Socket.outbox s' = Socket.outbox s ++ [(c, Socket.socketError "sendMessage" message)].
Proof.
  intros Hc Hno. simpl. rewrite Hc. unfold Socket.onSendMessage.
  destruct (Socket.chatIdOf data) as [chat|] eqn:Hid; simpl; [|by eauto].
  destruct (chat <=? 0); [by eauto|].
  destruct (Socket.contentOf data) as [[|a text]|]; try (by eauto).
  destruct (2000 <? _); [by eauto|].
  pose proof (createMessage_run chat (id user) (String a text) (Socket.db s)) as Hrun.
  destruct (ChatService.createMessage _ _ _ _) as [d [error|m0]]; simpl in *.
  - destruct Hrun as [(Ht & _)|(_ & _ & Hp & _)]; [|by destruct (Hno chat)]. eauto.
  - destruct Hrun as [(_ & ? & ? & ? & _)|(_ & _ & Hp & _)]; [done|by destruct (Hno chat)].
Qed.

(** X16.  Joining a room and receiving in it.  On a database that answers
    and whose rows respect the constraints, a [joinChat] of a participant
    puts the socket into the room of the chat and confirms it with one
    [chatJoined]; a [sendMessage] that another participant issues next for
    this chat, with a content that passes the checks of the handler and has
    no code unit 0, is then delivered to the socket, with the content and
    the sender's id that were sent. *)
Theorem join_then_receive (s : Socket.Server) (c c2 : Socket.SocketId)
    (user user2 : UserPayload) (data data2 : option Socket.Payload) (chat : Z)
    (text : string) :
  Socket.sockets s !! c = Some user -> Socket.sockets s !! c2 = Some user2 ->
  healthy (Socket.db s) -> consistent (Socket.db s) ->
  Socket.chatIdOf data = Some chat -> 0 < chat ->
  Socket.chatIdOf data2 = Some chat ->
  Socket.contentOf data2 = Some text -> text ≠ "" -> Js.strlen text <= 2000 ->
  Sql.storable text ->
  is_participant (id user) chat (tables (Socket.db s)) ->
  is_participant (id user2) chat (tables (Socket.db s)) ->
  let s1 := step s (Socket.Receive c (Socket.joinChat data)) in
  let s2 := step s1 (Socket.Receive c2 (Socket.sendMessage data2)) in
  Socket.room chat s1 = {[c]} ∪ Socket.room chat s
  ∧ Socket.outbox s1
    = Socket.outbox s
      ++ [(c, Socket.chatJoined chat ("Successfully joined chat " +:+ Js.numToString chat))]
  ∧ ∃ m, (c, Socket.newMessage m) ∈ Socket.outbox s2
         ∧ ChatService.nm_chat_id m = chat
         ∧ ChatService.nm_content m = text
         ∧ ChatService.nm_sender_id m = id user2.
Proof.
  intros Hc Hc2 Hh Hcons Hid Hpos Hid2 Htext Hne Hlen Hst Hp Hp2 s1 s2.
  assert (chat_exists chat (tables (Socket.db s))) as Hex.
  { by apply (participants_have_chats _ Hcons) in Hp. }
  assert (s1 = Socket.emit c (Socket.chatJoined chat
                                ("Successfully joined chat " +:+ Js.numToString chat))
                 (Socket.join c chat s)) as Hs1.
  { subst s1. simpl. rewrite Hc. unfold Socket.onJoinChat. rewrite Hid. simpl.
    destruct (chat <=? 0) eqn:E; [lia|].
    rewrite checkUserInChat_strict by done.
    apply chats_by_id_head in Hex as [x ->].
    apply participant_rows_nonempty in Hp. rewrite bool_decide_true by done.
    by destruct s. }
  split; [rewrite Hs1|split; [by rewrite Hs1|]].
  { change (Socket.room chat (Socket.emit ?a ?b ?x)) with (Socket.room chat x).
    rewrite room_join. by rewrite decide_True. }
  destruct (createMessage_participant chat (id user2) text (Socket.db s) Hh Hcons Hp2 Hst)
    as (sender & _ & Hm).
  eexists. split.
  - subst s2. simpl.
    assert (Socket.sockets s1 !! c2 = Some user2) as -> by (by rewrite Hs1).
    unfold Socket.onSendMessage. rewrite Hid2, Htext. simpl.
    destruct (chat <=? 0) eqn:E; [lia|].
    destruct text as [|a text]; [done|].
    destruct (2000 <? _) eqn:E2; [lia|].
    assert (Socket.db s1 = Socket.db s) as -> by (by rewrite Hs1).
    rewrite Hm. unfold Socket.io_to_emit. simpl.
    apply elem_of_app. right. apply elem_of_deliveries. split; [reflexivity|].
    change (Socket.room chat (Socket.set_db ?d ?x)) with (Socket.room chat x).
    rewrite Hs1.
    change (Socket.room chat (Socket.emit ?a ?b ?x)) with (Socket.room chat x).
    rewrite room_join, decide_True by done. set_solver.
  - done.
Qed.



(** X18.  The handshake of the socket layer and the middleware of the HTTP
    routes accept the same tokens.  For a cookie header that is not empty
    and whose [accessToken] cookie is what the request carries as
    [req.cookies.accessToken], the handshake lets the connection pass
    exactly when [verifyToken] lets the request pass, and both attach the
    same decoded payload; when there is no cookie header at all, both
    refuse.  [verifyToken] refuses with a 401, or with a 500 when the
    verification fails in an unexpected way. *)
Theorem handshake_agrees_with_verifyToken (cookieString : string)
    (accessToken : option string) :
  cookieString ≠ "" -> accessTokenOf cookieString = accessToken ->
  (∀ payload, authenticate (Some cookieString) = inr payload
              <-> Auth.verifyToken jwt_verify accessToken = inr payload)
  ∧ (∃ message, authenticate None = inl message)
  ∧ (∃ message, Auth.verifyToken jwt_verify None = inl (AppError 401 message))
  ∧ (∀ error, Auth.verifyToken jwt_verify accessToken = inl error ->
              ∃ status message, error = AppError status message
                                ∧ (status = 401 ∨ status = 500)).
Proof.
  intros Hne <-. split; [|split; [by eexists|split; [by eexists|]]].
  - intros payload. unfold Socket.authenticate, Auth.verifyToken.
    destruct cookieString as [|a k]; [done|].
    destruct (accessTokenOf (String a k)) as [[|b token]|]; try (split; discriminate).
    destruct (jwt_verify (String b token)) as [p|name]; [split; by intros [= ->]|].
    destruct (String.eqb name "TokenExpiredError"); [split; discriminate|].
    destruct (String.eqb name "JsonWebTokenError"); split; discriminate.
  - intros error. unfold Auth.verifyToken.
    destruct (accessTokenOf cookieString) as [[|b token]|];
      try (intros [= <-]; eauto).
    destruct (jwt_verify (String b token)) as [p|name]; [done|].
    destruct (String.eqb name "TokenExpiredError"); [intros [= <-]; eauto|].
    destruct (String.eqb name "JsonWebTokenError"); intros [= <-]; eauto.
Qed.
End Sessions.

Lemma newMessage_is_stored_witness :
  let i := Socket.Receive 0%nat (Socket.sendMessage (Sample.withContent 7 "hi")) in
  let m := ChatService.mkNewMessage 1 7 1 "hi" 300 (Sql.mkSender 1 "alice") in
  (1%nat, Socket.newMessage m) ∈ Socket.outbox (Sample.step Sample.server i)
  ∧ messages (tables (Socket.db (Sample.step Sample.server i)))
    = messages (tables (Socket.db Sample.server)) ++ [mkMessage 1 7 1 "hi" 300].
Proof.
  intros i m. unfold Sample.step.
  assert (Socket.outbox (Socket.step Sample.accessTokenOf Sample.jwt_verify Sample.server i)
          = Socket.outbox Sample.server ++ [(1%nat, Socket.newMessage m)]) as Hout
    by (vm_compute; reflexivity).
  assert (Socket.outbox Sample.server
          = [(1%nat, Socket.chatJoined 7 "Successfully joined chat 7");
             (2%nat, Socket.chatJoined 8 "Successfully joined chat 8")]) as Hbefore
    by (vm_compute; reflexivity).
  assert ((1%nat, Socket.newMessage m)
            ∈ Socket.outbox (Socket.step Sample.accessTokenOf Sample.jwt_verify Sample.server i))
    as Hin.
  { rewrite Hout. apply elem_of_app. right. left. }
  split; [exact Hin|].
  destruct (newMessage_is_stored Sample.accessTokenOf Sample.jwt_verify Sample.server i
              1%nat m Hin) as (c & user & data & _ & _ & _ & _ & Hsid & _ & _ & _ & Hm).
  - rewrite Hbefore. intros Hx.
    apply elem_of_cons in Hx as [[=]|Hx]. apply elem_of_cons in Hx as [[=]|Hx].
    by apply not_elem_of_nil in Hx.
  - rewrite Hm. simpl in Hsid. rewrite <- Hsid. reflexivity.
Defined.

Lemma sendMessage_refused_witness :
  let s' := Sample.step Sample.server
              (Socket.Receive 2%nat (Socket.sendMessage (Sample.withContent 7 "hi"))) in
  tables (Socket.db s') = tables (Socket.db Sample.server)
  ∧ Socket.rooms s' = Socket.rooms Sample.server
  ∧ ∃ message,
      Socket.outbox s'
      = Socket.outbox Sample.server ++ [(2%nat, Socket.socketError "sendMessage" message)].
Proof.
  unfold Sample.step.
  assert (Socket.sockets Sample.server !! 2%nat = Some (mkUserPayload 3 "carol")) as Hc
    by (vm_compute; reflexivity).
  pose proof sample_server_db as Hdb.
  generalize dependent Sample.server. intros s Hc Hdb.
  apply (sendMessage_refused Sample.accessTokenOf Sample.jwt_verify s 2%nat
           (mkUserPayload 3 "carol") (Sample.withContent 7 "hi") Hc).
  intros chat [= <-]. rewrite Hdb. unfold is_participant. simpl. intros Hin.
  repeat (apply elem_of_cons in Hin as [[=]|Hin]). by apply not_elem_of_nil in Hin.
Defined.

Lemma join_then_receive_witness :
  let s1 := Sample.step Sample.server (Socket.Receive 0%nat (Socket.joinChat (Sample.chatOnly 7))) in
  let s2 := Sample.step s1 (Socket.Receive 1%nat (Socket.sendMessage (Sample.withContent 7 "hello"))) in
  Socket.room 7 s1 = {[0%nat]} ∪ Socket.room 7 Sample.server
  ∧ ∃ m, (0%nat, Socket.newMessage m) ∈ Socket.outbox s2
         ∧ ChatService.nm_content m = "hello" ∧ ChatService.nm_sender_id m = 2.
Proof.
  unfold Sample.step.
  assert (Socket.sockets Sample.server !! 0%nat = Some (mkUserPayload 1 "alice")) as H0
    by (vm_compute; reflexivity).
  assert (Socket.sockets Sample.server !! 1%nat = Some (mkUserPayload 2 "bob")) as H1
    by (vm_compute; reflexivity).
  pose proof sample_server_db as Hdb.
  generalize dependent Sample.server. intros s H0 H1 Hdb.
  destruct (join_then_receive Sample.accessTokenOf Sample.jwt_verify s 0%nat 1%nat
              (mkUserPayload 1 "alice") (mkUserPayload 2 "bob")
              (Sample.chatOnly 7) (Sample.withContent 7 "hello") 7 "hello" H0 H1)
    as (Hroom & _ & m & Hin & _ & Hcontent & Hsender).
  - by rewrite Hdb.
  - rewrite Hdb. apply sample_consistent.
  - reflexivity.
  - done.
  - reflexivity.
  - reflexivity.
  - done.
  - vm_compute. done.
  - solve_storable.
  - rewrite Hdb. unfold is_participant. simpl. set_solver.
  - rewrite Hdb. unfold is_participant. simpl. set_solver.
  - split; [exact Hroom|]. exists m. split; [exact Hin|]. split; [exact Hcontent|exact Hsender].
Defined.


Lemma handshake_agrees_with_verifyToken_witness :
  Socket.authenticate Sample.accessTokenOf Sample.jwt_verify (Some "accessToken=bob.jwt")
  = inr (mkUserPayload 2 "bob")
  ∧ Auth.verifyToken Sample.jwt_verify (Some "bob.jwt") = inr (mkUserPayload 2 "bob").
Proof.
  destruct (handshake_agrees_with_verifyToken Sample.accessTokenOf Sample.jwt_verify
              "accessToken=bob.jwt" (Some "bob.jwt")) as (Hiff & _); [done|reflexivity|].
  assert (Socket.authenticate Sample.accessTokenOf Sample.jwt_verify
            (Some "accessToken=bob.jwt") = inr (mkUserPayload 2 "bob")) as Ha by reflexivity.
  split; [exact Ha|]. apply Hiff. exact Ha.
Defined.

(** ** The handlers of the chat API *)

Lemma elem_of_unique xs x : x ∈ Js.unique xs <-> x ∈ xs.
Proof.
  induction xs as [|y r IH]; simpl; [done|].
  rewrite !elem_of_cons, list_elem_of_filter, IH.
  destruct (decide (x = y)); intuition.
Qed.

Lemma NoDup_unique xs : NoDup (Js.unique xs).
Proof.
  induction xs as [|y r IH]; simpl; constructor.
  - rewrite list_elem_of_filter. intros [? _]. done.
  - by apply NoDup_filter.
Qed.

Lemma unique_short x xs :
  (length (Js.unique (x :: xs)) < 2)%nat <-> ∀ y, y ∈ xs -> y = x.
Proof.
  simpl. split.
  - intros Hlen y Hy. destruct (decide (y = x)) as [|Hne]; [done|].
    assert (y ∈ filter (fun y => y ≠ x) (Js.unique xs)) as Hin.
    { apply list_elem_of_filter. split; [done|]. by apply elem_of_unique. }
    destruct (filter _ _); [by apply not_elem_of_nil in Hin|]. simpl in Hlen. lia.
  - intros Hall.
    assert (filter (fun y => y ≠ x) (Js.unique xs) = []) as ->; [|simpl; lia].
    apply filter_nil_iff. intros y Hy Hne. rewrite elem_of_unique in Hy. by apply Hne, Hall.
Qed.

Lemma map_default_parsed (values : list Js.Value) :
  existsb (fun n => negb (bool_decide (is_Some n))) (map Js.parseInt values) = false ->
  ∀ u, u ∈ map (default 0) (map Js.parseInt values)
       <-> ∃ v, v ∈ values ∧ Js.parseInt v = Some u.
Proof.
  intros Hall u. rewrite elem_of_map. split.
  - intros (n & Hn & ->). apply elem_of_map in Hn as (v & Hv & ->).
    exists v. split; [done|].
    destruct (Js.parseInt v) as [z|] eqn:E; [done|].
    assert (existsb (fun n => negb (bool_decide (is_Some n))) (map Js.parseInt values) = true)
      as Hx; [|congruence].
    apply existsb_exists. exists None. split.
    + apply list_elem_of_In, elem_of_map. exists v. by rewrite E.
    + done.
  - intros (v & Hv & E). exists (Some u). split; [|done].
    apply elem_of_map. exists v. by rewrite E.
Qed.

(** When [createChatHandler] answers, it has called [createChat] with the
    requesting user and the parsed ids, each once. *)
Lemma createChatHandler_calls (user : UserPayload) (otherUserIds : option (list Js.Value))
    (name : Js.Value) (d : Database) (status : Z) (created : ChatService.CreatedChat) :
  (ChatController.createChatHandler user otherUserIds name d).2
  = ChatController.status_json status created ->
  status = 201
  ∧ ∃ values ids,
      otherUserIds = Some values
      ∧ NoDup ids ∧ head ids = Some (id user)
      ∧ (∀ u, u ∈ ids <-> u = id user ∨ ∃ v, v ∈ values ∧ Js.parseInt v = Some u)
      ∧ (2 <= length ids)%nat
      ∧ (bool_decide (2 < length ids)%nat = true ->
         ∀ text, name = Js.Str text -> Js.strlen (Js.trim text) <= 255)
      ∧ ChatService.createChat ids
          (Pg.text (if bool_decide (2 < length ids)%nat then name else Js.Null))
          (bool_decide (2 < length ids)%nat) d
        = ((ChatController.createChatHandler user otherUserIds name d).1, inr created).
Proof.
  unfold ChatController.createChatHandler.
  destruct otherUserIds as [[|v0 values0]|]; [done| |done].
  remember (v0 :: values0) as values eqn:Hvalues.
  destruct (existsb _ (map Js.parseInt values)) eqn:Hparsed; [done|].
  remember (Js.unique (id user :: map (default 0) (map Js.parseInt values))) as ids eqn:Hids.
  assert (NoDup ids) as Hnd by (rewrite Hids; apply NoDup_unique).
  assert (head ids = Some (id user)) as Hhead by (by rewrite Hids).
  assert (∀ u, u ∈ ids <-> u = id user ∨ ∃ v, v ∈ values ∧ Js.parseInt v = Some u) as Hin.
  { intros u. rewrite Hids, elem_of_unique, elem_of_cons.
    by rewrite (map_default_parsed values Hparsed). }
  clear Hids Hvalues Hparsed.
  case_bool_decide as Hlen; [done|].
  destruct (bool_decide (2 < length ids)%nat && _) eqn:Hname; [done|].
  cbv zeta.
  destruct (ChatService.createChat ids _ _ d) as [d' [err|newChat]] eqn:Hcall;
    cbn [fst snd]; [done|].
  intros [= <- <-]. split; [done|].
  exists values, ids. do 4 (split; [done|]). split; [lia|]. split; [|exact Hcall].
  intros Hg text ->. rewrite Hg in Hname. simpl in Hname.
  destruct (negb (String.eqb text "")) eqn:Hempty; simpl in Hname; [lia|].
  apply negb_false_iff, String.eqb_eq in Hempty. subst text. done.
Qed.

(** X20.  What [createChatHandler] creates.  Called outside a transaction,
    when the handler answers it is with a 201, and the tables are then those
    of before with one new chat whose participants are the requesting user
    and the users whose ids were sent, each once and all of them existing
    users; there are at least two of them, the chat is a group chat exactly
    when there are more than two, and a chat of two has no name.  The
    handler checks the length of the trimmed name of a group but sends the
    name as it is: the name of the new chat is what the column
    [name VARCHAR(255)] stores of it, which is the name that was sent when
    that has at most 255 characters, and its first 255 characters
    otherwise. *)
Theorem createChatHandler_creates (user : UserPayload)
    (otherUserIds : option (list Js.Value)) (name : Js.Value) (d : Database)
    (status : Z) (created : ChatService.CreatedChat) :
  in_tx d = None ->
  (ChatController.createChatHandler user otherUserIds name d).2
  = ChatController.status_json status created ->
  status = 201
  ∧ ∃ values ids chatName isGroupChat,
      otherUserIds = Some values
      ∧ tables (ChatController.createChatHandler user otherUserIds name d).1
        = with_new_chat ids chatName isGroupChat d
      ∧ NoDup ids ∧ head ids = Some (id user)
      ∧ (∀ u, u ∈ ids <-> u = id user ∨ ∃ v, v ∈ values ∧ Js.parseInt v = Some u)
      ∧ (∀ u, u ∈ ids -> user_exists u (tables d))
      ∧ (2 <= length ids)%nat
      ∧ (isGroupChat = true <-> 2 < length ids)%nat
      ∧ (isGroupChat = false -> chatName = None)
      ∧ (∀ text, name = Js.Str text -> isGroupChat = true ->
                 Js.strlen (Js.trim text) <= 255
                 ∧ ∃ stored, chatName = Some stored
                             ∧ Sql.varchar 255 text = Some stored
                             ∧ (Js.strlen text <= 255 -> stored = text)
                             ∧ (255 < Js.strlen text -> stored = String.substring 0 255 text)).
Proof.
  intros Htx Hr.
  destruct (createChatHandler_calls user otherUserIds name d status created Hr)
    as (-> & values & ids & -> & Hnd & Hhead & Hin & Hlen & Hname & Hcall).
  split; [done|].
  remember (bool_decide (2 < length ids)%nat) as isGroupChat eqn:Hgroup.
  remember (Pg.text (if isGroupChat then name else Js.Null)) as sent eqn:Hsent.
  pose proof (createChat_outcomes ids sent isGroupChat d Htx) as Ho.
  pose proof (createChat_effect ids sent isGroupChat d Htx) as (_ & _ & _ & He).
  cbv zeta in Ho. rewrite Hcall in Ho, He. cbn [fst snd] in Ho, He.
  destruct Ho as (chatName & Hstored & Ho).
  exists values, ids, chatName, isGroupChat.
  do 5 (split; [done|]).
  split.
  { destruct He as [Hsame|(stored & _ & _ & _ & Hall)]; [|done].
    exfalso. rewrite Ho in Hsame. unfold with_new_chat in Hsame.
    pose proof (with_participants_tables (chats_id_seq d + 1) ids
                  (Sql.add_chat (mkChat (chats_id_seq d + 1) chatName isGroupChat (clock d))
                                (tables d))) as (_ & Hch & _).
    cbn [c_id] in Hsame. apply (f_equal chats) in Hsame. rewrite Hch in Hsame.
    apply (f_equal length) in Hsame. simpl in Hsame. rewrite length_app in Hsame.
    simpl in Hsame. lia. }
  split; [done|]. split.
  { rewrite Hgroup. by rewrite bool_decide_eq_true. }
  split.
  { intros ->. rewrite Hsent in Hstored. simpl in Hstored. by injection Hstored as <-. }
  intros text -> Hg. split; [by apply Hname|].
  rewrite Hsent, Hg in Hstored. simpl in Hstored.
  destruct (Sql.varchar 255 text) as [stored|] eqn:Hv; [|done].
  injection Hstored as <-. exists stored. do 2 (split; [done|]).
  unfold Sql.varchar in Hv. unfold Js.strlen.
  case_bool_decide as Hshort.
  - injection Hv as <-. split; [done | lia].
  - destruct (forallb _ _); [|done]. injection Hv as <-. split; [lia | done].
Qed.

Lemma createChatHandler_creates_witness :
  let a255 := String.string_of_list_ascii (repeat "a"%char 255) in
  let r := ChatController.createChatHandler (mkUserPayload 1 "alice")
             (Some [Js.Num 2; Js.Str "3"; Js.Num 2]) (Js.Str (a255 +:+ "   "))
             Sample.database in
  ∃ created ids isGroupChat,
    r.2 = ChatController.status_json 201 created
    ∧ tables r.1 = with_new_chat ids (Some a255) isGroupChat Sample.database
    ∧ NoDup ids ∧ head ids = Some 1 ∧ 3 ∈ ids ∧ (2 <= length ids)%nat.
Proof.
  intros a255 r.
  assert (∃ created, r.2 = ChatController.status_json 201 created) as [created Hr]
    by (eexists; vm_compute; reflexivity).
  destruct (createChatHandler_creates (mkUserPayload 1 "alice")
              (Some [Js.Num 2; Js.Str "3"; Js.Num 2]) (Js.Str (a255 +:+ "   "))
              Sample.database 201 created eq_refl Hr)
    as (_ & values & ids & chatName & isGroupChat & [= <-] & Ht & Hnd & Hhead & Hin & _ & Hlen
        & Hgroup & _ & Hname).
  assert (isGroupChat = true) as Hg.
  { apply Hgroup. apply Nat.lt_nge. intros Hle.
    assert (Permutation ids [1; 2; 3] -> False) as Hno
      by (intros Hp; apply Permutation_length in Hp; simpl in Hp; lia).
    apply Hno. apply NoDup_Permutation; [done | |].
    - repeat (apply NoDup_cons; split; [set_solver|]). apply NoDup_nil_2.
    - intros u. rewrite Hin. split.
      + intros [->|(v & Hv & Hp)]; [set_solver|].
        repeat (apply elem_of_cons in Hv as [->|Hv]; [vm_compute in Hp; injection Hp as <-; set_solver|]).
        by apply not_elem_of_nil in Hv.
      + intros Hu. repeat (apply elem_of_cons in Hu as [->|Hu]).
        * by left.
        * right. exists (Js.Num 2). split; [set_solver | reflexivity].
        * right. exists (Js.Str "3"). split; [set_solver | reflexivity].
        * by apply not_elem_of_nil in Hu. }
  destruct (Hname _ eq_refl Hg) as (_ & stored & -> & Hv & _).
  vm_compute in Hv. injection Hv as <-.
  exists created, ids, isGroupChat.
  split; [exact Hr|]. split; [exact Ht|]. split; [exact Hnd|]. split; [exact Hhead|].
  split; [|exact Hlen].
  apply Hin. right. exists (Js.Str "3"). split; [set_solver|reflexivity].
Defined.

(** X21.  What [createChatHandler] refuses before it asks the database
    anything.  A request without a list of ids, with an empty list, with an
    entry that [parseInt] does not read as a number, or with a list that
    names nobody but the requesting user, is handed to [next] with a 400,
    and the database is as it was: nobody gets a chat with themselves
    alone. *)
Theorem createChatHandler_refuses (user : UserPayload)
    (otherUserIds : option (list Js.Value)) (name : Js.Value) (d : Database) :
  otherUserIds = None ∨ otherUserIds = Some []
  ∨ (∃ values v, otherUserIds = Some values ∧ v ∈ values ∧ Js.parseInt v = None)
  ∨ (∃ values, otherUserIds = Some values
               ∧ ∀ v, v ∈ values -> Js.parseInt v = Some (id user)) ->
  ∃ message,
    ChatController.createChatHandler user otherUserIds name d
    = (d, ChatController.next_with (AppError 400 message)).
Proof.
  unfold ChatController.createChatHandler.
  intros [->|[->|[(values & v & -> & Hv & Hnan)|(values & -> & Hself)]]]; [by eauto..| |].
  - destruct values as [|v0 values0]; [by apply not_elem_of_nil in Hv|].
    remember (v0 :: values0) as values eqn:Hvalues.
    assert (existsb (fun n => negb (bool_decide (is_Some n))) (map Js.parseInt values) = true)
      as ->; [|by eauto].
    apply existsb_exists. exists None. split; [|done].
    apply list_elem_of_In, elem_of_map. exists v. by rewrite Hnan.
  - destruct values as [|v0 values0]; [by eauto|].
    remember (v0 :: values0) as values eqn:Hvalues.
    destruct (existsb _ (map Js.parseInt values)) eqn:Hparsed; [by eauto|].
    rewrite bool_decide_true; [by eauto|].
    apply unique_short. intros y Hy.
    apply (map_default_parsed values Hparsed) in Hy as (v & Hv & Hy).
    rewrite (Hself v Hv) in Hy. by injection Hy.
Qed.

Lemma createChatHandler_refuses_witness :
  ∃ message,
    ChatController.createChatHandler (mkUserPayload 1 "alice")
      (Some [Js.Num 1; Js.Str "1"; Js.Str " 1 "]) Js.Undefined Sample.database
    = (Sample.database, ChatController.next_with (AppError 400 message)).
Proof.
  apply createChatHandler_refuses. do 3 right. eexists. split; [reflexivity|].
  intros v Hv. repeat (apply elem_of_cons in Hv as [->|Hv]; [reflexivity|]).
  by apply not_elem_of_nil in Hv.
Defined.



Lemma strlen_zero s : Js.strlen s = 0 <-> s = "".
Proof.
  unfold Js.strlen. split; [|by intros ->].
  destruct s; simpl; [done|lia].
Qed.

(** X23.  The term of [searchChatsHandler].  A search term that is not a
    string, that is blank after trimming or that is longer than 100
    characters after trimming is handed to [next] with a 400 and the
    database is as it was.  The handler never answers with a list of chats:
    for a term that passes these checks it hands to [next] what
    [searchUserChats] rejects with, a 404 or a 500, and on a database that
    answers, for a user that exists, that is the 500 of the search. *)
Theorem searchChatsHandler_term (order : list Sql.ChatView -> list Sql.ChatView)
    (user : UserPayload) (searchTerm : Js.Value) (d : Database) :
  let r := ChatController.searchChatsHandler order user searchTerm d in
  ((∀ text, searchTerm = Js.Str text ->
            Js.trim text = "" ∨ 100 < Js.strlen (Js.trim text)) ->
   ∃ message, r = (d, ChatController.next_with (AppError 400 message)))
  ∧ (∀ status chats, r.2 ≠ ChatController.status_json status chats)
  ∧ (∀ text, searchTerm = Js.Str text ->
             Js.trim text ≠ "" -> Js.strlen (Js.trim text) <= 100 ->
             (∃ status message,
                r.2 = ChatController.next_with (AppError status message)
                ∧ (status = 404 ∨ status = 500))
             ∧ (healthy d -> user_exists (id user) (tables d) ->
                r = (d, ChatController.next_with
                          (AppError 500 "Could not perform chat search."))))
  ∧ untouched d r.1.
Proof.
  intros r. subst r. unfold ChatController.searchChatsHandler.
  destruct searchTerm as [| |b|n|text|repr];
    try (split; [by eauto|]; split; [done|]; split; [done|apply untouched_refl]).
  destruct (negb (Js.truthy (Js.Str text)) || (Js.strlen (Js.trim text) =? 0)) eqn:Hblank.
  { split; [by eauto|]. split; [done|]. split; [|apply untouched_refl].
    intros ? [= <-] Hne _. apply orb_true_iff in Hblank as [Hblank|Hblank].
    - destruct text; [done|]. simpl in Hblank. done.
    - apply Z.eqb_eq, strlen_zero in Hblank. done. }
  destruct (100 <? Js.strlen (Js.trim text)) eqn:Hlong.
  { split; [by eauto|]. split; [done|]. split; [|apply untouched_refl].
    intros ? [= <-] _ ?. lia. }
  apply orb_false_iff in Hblank as [_ Hblank].
  apply Z.eqb_neq in Hblank. rewrite strlen_zero in Hblank. apply Z.ltb_ge in Hlong.
  destruct (searchUserChats_run order (id user) (Js.trim text) d) as (Hu & Hh & Hr).
  destruct (ChatService.searchUserChats order (id user) (Js.trim text) d)
    as [d' [err|chats]]; simpl in *.
  2:{ by destruct Hr as [[? _]|[[? _]|[? _]]]. }
  split.
  { intros Hbad. destruct (Hbad text eq_refl); [done|lia]. }
  split; [done|]. split; [|done].
  intros ? [= <-] _ _. split.
  - destruct Hr as [([= ->] & _)|[([= ->] & _)|([= ->] & _)]]; eauto.
  - intros Hd Hex. rewrite (Hh Hd).
    destruct Hr as [([= ->] & _)|[([= ->] & ?)|([= ->] & ?)]]; done.
Qed.

Lemma searchChatsHandler_term_witness :
  healthy Sample.database ∧ user_exists 1 (tables Sample.database)
  ∧ ChatController.searchChatsHandler
      (Sample.order_stored_first (fun v => - Sql.v_created_at v))
      (mkUserPayload 1 "alice") (Js.Str " Lunch ") Sample.database
    = (Sample.database,
       ChatController.next_with (AppError 500 "Could not perform chat search.")).
Proof.
  assert (user_exists 1 (tables Sample.database)) as Hex.
  { exists Sample.alice. split; [left | reflexivity]. }
  split; [reflexivity|]. split; [exact Hex|].
  destruct (searchChatsHandler_term
              (Sample.order_stored_first (fun v => - Sql.v_created_at v))
              (mkUserPayload 1 "alice") (Js.Str " Lunch ") Sample.database) as (_ & _ & H & _).
  destruct (H " Lunch " eq_refl) as [_ H500]; [done | vm_compute; done |].
  exact (H500 eq_refl Hex).
Defined.

Lemma searchChatsHandler_reads order user searchTerm d :
  let r := ChatController.searchChatsHandler order user searchTerm d in
  untouched d r.1
  ∧ ∀ status chats, r.2 = ChatController.status_json status chats ->
                    user_exists (id user) (tables d).
Proof.
  intros r. subst r. unfold ChatController.searchChatsHandler.
  destruct searchTerm as [| |b|n|text|repr]; try (split; [apply untouched_refl|done]).
  destruct (_ || _); [split; [apply untouched_refl|done]|].
  destruct (100 <? _); [split; [apply untouched_refl|done]|].
  destruct (searchUserChats_run order (id user) (Js.trim text) d) as (Hu & _ & Hr).
  destruct (ChatService.searchUserChats order (id user) (Js.trim text) d)
    as [d' [err|chats]]; simpl in *; (split; [done|]); [done|].
  intros _ _ _. destruct Hr as [[? _]|[[? _]|[? _]]]; done.
Qed.

Lemma getChatMessagesHandler_reads order user params_chatId query_limit query_offset d :
  let r := ChatController.getChatMessagesHandler order user params_chatId query_limit
             query_offset d in
  untouched d r.1
  ∧ ∀ status rows, r.2 = ChatController.status_json status rows ->
      ∃ chatId, Js.parseInt (Js.Str params_chatId) = Some chatId
                ∧ is_participant (id user) chatId (tables d).
Proof.
  intros r. subst r. unfold ChatController.getChatMessagesHandler.
  destruct (Js.parseInt (Js.Str params_chatId)) as [chatId|] eqn:Hid; simpl;
    [|split; [apply untouched_refl|done]].
  destruct (chatId <=? 0); [split; [apply untouched_refl|done]|].
  destruct (_ || _); [split; [apply untouched_refl|done]|].
  destruct (_ <? 0); [split; [apply untouched_refl|done]|].
  match goal with
  | |- context [ChatService.getChatMessages order ?u ?c ?l ?o d] =>
      destruct (getChatMessages_run order u c l o d) as (Hu & _ & Hr);
      destruct (ChatService.getChatMessages order u c l o d) as [d' [err|rows]]
  end; simpl in *; (split; [done|]); [done|].
  intros _ _ _. exists chatId. split; [done|].
  destruct Hr as [(_ & _ & Hp & _)|(? & ? & ? & _)]; done.
Qed.

(** ** The routes of the chat API *)

Section Routes.

Variable jwt_verify : string -> Socket.Verified.
Variable order_chats : list Sql.ChatView -> list Sql.ChatView.
Variable order_messages : list Sql.MessageView -> list Sql.MessageView.

Local Abbreviation dispatch := (ChatRoutes.dispatch jwt_verify order_chats order_messages).

(** X24.  No route of the chat API works without a token, and each acts for
    the user of the token.  A request whose [accessToken] cookie the
    middleware does not accept is handed to [next] with the error of the
    middleware, and the database is exactly as it was.  When a route
    answers, the middleware has decoded a user from the cookie: a posted
    message has that user as its sender and the user has a participant row
    in its chat; a history comes from a chat in which the user has a
    participant row; a list of chats is answered for a user who exists; and
    a created chat has the user among its participants.  Called outside a
    transaction on a database whose rows respect the constraints, every
    route leaves it so. *)
Theorem chat_routes_act_for_the_token_user (accessToken : option string)
    (e : ChatRoutes.Endpoint) (d : Database) :
  let r := dispatch accessToken e d in
  (∀ err, Auth.verifyToken jwt_verify accessToken = inl err ->
          r = (d, ChatController.next_with err))
  ∧ (∀ status body, r.2 = ChatController.status_json status body ->
       ∃ user, Auth.verifyToken jwt_verify accessToken = inr user
         ∧ match body with
           | ChatRoutes.aMessage m =>
               ChatService.nm_sender_id m = id user
               ∧ is_participant (id user) (ChatService.nm_chat_id m) (tables d)
           | ChatRoutes.someMessages rows =>
               ∃ chatId text limit offset,
                 e = ChatRoutes.getMessages text limit offset
                 ∧ Js.parseInt (Js.Str text) = Some chatId
                 ∧ is_participant (id user) chatId (tables d)
           | ChatRoutes.someChats _ => user_exists (id user) (tables d)
           | ChatRoutes.aChat _ =>
               in_tx d = None ->
               is_participant (id user) (chats_id_seq d + 1) (tables r.1)
           end)
  ∧ (in_tx d = None -> consistent d -> consistent r.1).
Proof.
  intros r. subst r. unfold ChatRoutes.dispatch.
  destruct (Auth.verifyToken jwt_verify accessToken) as [err|user].
  { split; [by intros ? [= <-]|]. split; [done|]. done. }
  split; [done|].
  destruct e as [otherUserIds name| |searchTerm|chatId limit offset|chatId content].
  - unfold ChatRoutes.answer.
    pose proof (createChatHandler_calls user otherUserIds name d) as Hcalls.
    destruct (ChatController.createChatHandler user otherUserIds name d) as [d' [st created|err]]
      eqn:Hh; simpl in *.
    + destruct (Hcalls st created eq_refl)
        as (-> & values & ids & -> & Hnd & Hhead & Hin & Hlen & Hname & Hcall).
      split.
      * intros status body [= <- <-]. exists user. split; [done|]. intros Htx.
        pose proof (createChat_outcomes ids
                      (Pg.text (if bool_decide (2 < length ids)%nat then name else Js.Null))
                      (bool_decide (2 < length ids)%nat) d Htx) as Ho. cbv zeta in Ho.
        rewrite Hcall in Ho. cbn [fst snd] in Ho. destruct Ho as (stored & _ & Ho).
        rewrite Ho. unfold with_new_chat.
        match goal with
        | |- is_participant _ _ (fold_left _ ids ?w) =>
            pose proof (with_participants_tables (chats_id_seq d + 1) ids w) as (_ & _ & _ & Hcp)
        end.
        unfold is_participant. cbn [c_id] in *. rewrite Hcp. apply elem_of_app. right.
        apply elem_of_map. exists (id user). split; [|done]. apply Hin. by left.
      * intros Htx Hcons.
        pose proof (createChat_consistent ids
                      (Pg.text (if bool_decide (2 < length ids)%nat then name else Js.Null))
                      (bool_decide (2 < length ids)%nat) d Htx Hcons) as Hc.
        by rewrite Hcall in Hc.
    + split; [done|]. intros Htx Hcons.
      (* what the handler leaves behind when it hands an error on *)
      revert Hh. unfold ChatController.createChatHandler.
      destruct otherUserIds as [[|v0 values0]|]; try (by intros [= <- _]).
      destruct (existsb _ _); [by intros [= <- _]|].
      case_bool_decide; [by intros [= <- _]|].
      destruct (_ && _); [by intros [= <- _]|]. cbv zeta.
      match goal with
      | |- context [ChatService.createChat ?ids ?n ?g d] =>
          pose proof (createChat_consistent ids n g d Htx Hcons) as Hc;
          destruct (ChatService.createChat ids n g d) as [d'' [err'|newChat]]
      end; by intros [= <- _].
  - unfold ChatRoutes.answer, ChatController.getUserChatsHandler.
    destruct (getUserChats_run order_chats (id user) d) as (Hu & _ & Hr).
    destruct (ChatService.getUserChats order_chats (id user) d) as [d' [err|chats]];
      simpl in *.
    + split; [done|]. intros _ Hcons. by eapply consistent_untouched.
    + split; [|intros _ Hcons; by eapply consistent_untouched].
      intros status body [= <- <-]. exists user. split; [done|].
      destruct Hr as [[_ ?]|[[? _]|(? & ? & _)]]; done.
  - unfold ChatRoutes.answer.
    destruct (searchChatsHandler_reads order_chats user searchTerm d) as (Hu & Hok).
    destruct (ChatController.searchChatsHandler order_chats user searchTerm d)
      as [d' [st chats|err]]; simpl in *.
    + split; [|intros _ Hcons; by eapply consistent_untouched].
      intros status body [= <- <-]. exists user. split; [done|].
      exact (Hok st chats eq_refl).
    + split; [done|]. intros _ Hcons. by eapply consistent_untouched.
  - unfold ChatRoutes.answer.
    destruct (getChatMessagesHandler_reads order_messages user chatId limit offset d)
      as (Hu & Hok).
    destruct (ChatController.getChatMessagesHandler order_messages user chatId limit offset d)
      as [d' [st rows|err]]; simpl in *.
    + split; [|intros _ Hcons; by eapply consistent_untouched].
      intros status body [= <- <-]. exists user. split; [done|].
      destruct (Hok st rows eq_refl) as (chat & Hid & Hp).
      exists chat, chatId, limit, offset. done.
    + split; [done|]. intros _ Hcons. by eapply consistent_untouched.
  - unfold ChatController.createMessageHandler. simpl.
    destruct (ChatController.invalidPathId _); [done|].
    destruct content as [| |b|n|text|repr]; try done.
    destruct (_ || _); [done|]. destruct (2000 <? _); [done|].
    set (chat := default 0 (Js.parseInt (Js.Str chatId))).
    pose proof (createMessage_run chat (id user) (Js.trim text) d) as Hrun.
    pose proof (createMessage_consistent chat (id user) (Js.trim text) d) as Hc.
    destruct (ChatService.createMessage chat (id user) (Js.trim text) d) as [d' [err|m]];
      simpl in *; [done|].
    split; [|by intros _].
    intros status body [= <- <-]. exists user. split; [done|].
    destruct Hrun as [(_ & ? & ? & ? & _)|(_ & _ & Hp & sender & _ & [[= ->]|[? _]])]; done.
Qed.

End Routes.

(** ** The global error handler *)





(** X26.  The 404 handler of the API builds its error with the arguments the
    wrong way round.  For every URL, the error that [app.all('/api/*')]
    hands on has the text about the URL as its status code and [404] as its
    message; its status is [error]; and in production the global handler
    asks for a response whose status code is that text, with the message
    [404].  No answer of this handler carries the number 404 as its status
    code. *)
Theorem notFound_swaps_its_arguments (originalUrl stack : string) :
  let err := ErrorHandler.notFound originalUrl stack in
  ErrorHandler.statusCode err = Js.Str ("Can't find " +:+ originalUrl +:+ " on this server!")
  ∧ ErrorHandler.message err = "404"
  ∧ ErrorHandler.status err = Js.Str "error"
  ∧ (∀ NODE_ENV url code status message,
       ErrorHandler.globalErrorHandler NODE_ENV url err
       = ErrorHandler.json_prod code status message ->
       code = Js.Str ("Can't find " +:+ originalUrl +:+ " on this server!")
       ∧ message = "404")
  ∧ ErrorHandler.globalErrorHandler (Some "production") ("/api" +:+ originalUrl) err
    = ErrorHandler.json_prod
        (Js.Str ("Can't find " +:+ originalUrl +:+ " on this server!")) (Js.Str "error") "404".
Proof.
  intros err. subst err. unfold ErrorHandler.notFound, ErrorHandler.newAppError.
  cbn [ErrorHandler.statusCode ErrorHandler.message ErrorHandler.status].
  split; [done|]. split; [done|]. split; [done|].
  assert (∀ url, ErrorHandler.sendErrorProd
                   (ErrorHandler.mkErrorObject "Error" "404" ""
                      (Js.Str ("Can't find " +:+ originalUrl +:+ " on this server!"))
                      (Js.Str "error") (Js.Bool true)) url
                 = if String.prefix "/api" url
                   then ErrorHandler.json_prod
                          (Js.Str ("Can't find " +:+ originalUrl +:+ " on this server!"))
                          (Js.Str "error") "404"
                   else ErrorHandler.send
                          (Js.Str ("Can't find " +:+ originalUrl +:+ " on this server!"))
                          ("<h1>Something went wrong!</h1>" +:+ ErrorHandler.newline
                           +:+ "       <p>" +:+ "404" +:+ "</p>")) as Hprod.
  { intros url. unfold ErrorHandler.sendErrorProd. by destruct (String.prefix "/api" url). }
  split.
  - intros NODE_ENV url code status message.
    unfold ErrorHandler.globalErrorHandler. simpl.
    destruct NODE_ENV as [env|]; [|done].
    destruct (String.eqb env "development").
    { unfold ErrorHandler.sendErrorDev. by destruct (String.prefix "/api" url). }
    destruct (String.eqb env "production"); [|done].
    rewrite Hprod. destruct (String.prefix "/api" url); [|done]. by intros [= <- _ <-].
  - assert (String.prefix "/api" ("/api" +:+ originalUrl) = true) as Hapi
      by (by destruct originalUrl).
    unfold ErrorHandler.globalErrorHandler. simpl. by rewrite Hprod, Hapi.
Qed.

(** ** Accounts: [services/userService.js] and [controllers/authController.js] *)

Lemma users_by_username_head username t :
  (∃ u, head (Sql.users_by_username username t) = Some u)
  <-> ∃ u, u ∈ users t ∧ u_username u = username.
Proof.
  unfold Sql.users_by_username. split.
  - intros [u Hu]. apply head_Some_elem_of, list_elem_of_filter in Hu as [? ?]. eauto.
  - intros (u & Hu & Hn).
    destruct (filter (fun u => u_username u = username) (users t)) as [|x l] eqn:E.
    + assert (u ∈ filter (fun u => u_username u = username) (users t)) as Hin
        by (apply list_elem_of_filter; done).
      rewrite E in Hin. by apply not_elem_of_nil in Hin.
    + by exists x.
Qed.

Lemma findUserByUsername_run username expectUser d :
  let r := UserService.findUserByUsername username expectUser d in
  untouched d r.1
  ∧ (healthy d -> r.1 = d)
  ∧ ((r.2 = inr (head (Sql.users_by_username username (tables d)))
      ∧ (expectUser = true -> is_Some (head (Sql.users_by_username username (tables d)))))
     ∨ (r.2 = inl (AppError 404 ("User with username '" +:+ username +:+ "' not found."))
        ∧ expectUser = true ∧ head (Sql.users_by_username username (tables d)) = None)
     ∨ (r.2 = inl (AppError 500 "Could not find user due to a server error.")
        ∧ ¬ healthy d)).
Proof.
  intros r. subst r. unfold UserService.findUserByUsername, tryCatch. rewrite run_bind.
  destruct (query_run (Sql.users_by_username username) d) as (Hu & Hh & Hr).
  destruct (query (Sql.users_by_username username) d) as [d' [e|rows]]; simpl in *.
  - destruct Hr as [?|[Hn [= ->]]]; [done|]. simpl. do 2 (split; [done|]). right. right. done.
  - destruct Hr as [Hr|[? ?]]; [|done]. injection Hr as ->.
    case_bool_decide as Hs; simpl.
    + do 2 (split; [done|]). left. done.
    + destruct expectUser; simpl.
      * do 2 (split; [done|]). right. left. split; [done|]. split; [done|].
        destruct (head _); [|done]. destruct Hs. by eexists.
      * do 2 (split; [done|]). left. done.
Qed.

(** What [createUser] does: it stores the row, or it stores nothing and
    throws a 409 or a 500. *)
Lemma createUser_run nextval username passwordHash d :
  let r := UserService.createUser nextval username passwordHash d in
  (healthy d -> healthy r.1)
  ∧ ((tables r.1 = tables d
      ∧ ∃ status message, r.2 = inl (AppError status message) ∧ (status = 409 ∨ status = 500))
     ∨ (∃ stored hash,
          Sql.varchar 255 username = Some stored
          ∧ Sql.varchar 255 passwordHash = Some hash
          ∧ Sql.users_by_id nextval (tables d) = []
          ∧ Sql.users_by_username stored (tables d) = []
          ∧ tables r.1 = Sql.add_user (mkUser nextval stored hash (clock d)) (tables d)
          ∧ r.2 = inr (Sql.mkAccount nextval stored (clock d)))).
Proof.
  intros r. subst r. unfold UserService.createUser.
  destruct (roundTrip_run d) as (Hu & Hh & Hr).
  destruct (roundTrip d) as [d' [e|[]]]; simpl in *.
  { split; [intros Hd; by rewrite (Hh Hd)|]. left. split; [apply Hu|]. eauto. }
  destruct Hu as (Ht & _ & Hc & _).
  assert (healthy d -> healthy d') as Hh' by (intros Hd; by rewrite (Hh Hd)).
  unfold Sql.insert_user. rewrite Ht, Hc.
  destruct (Sql.varchar 255 username) as [stored|]; simpl;
    [|split; [done|]; left; split; [done|]; eauto].
  destruct (Sql.varchar 255 passwordHash) as [hash|]; simpl;
    [|split; [done|]; left; split; [done|]; eauto].
  case_bool_decide as Hid; simpl; [split; [done|]; left; split; [done|]; eauto|].
  case_bool_decide as Hname; simpl; [split; [done|]; left; split; [done|]; eauto|].
  split; [done|]. right. exists stored, hash.
  done.
Qed.

Lemma varchar_short n s : (String.length s <= n)%nat -> Sql.varchar n s = Some s.
Proof. intros Hs. unfold Sql.varchar. by rewrite bool_decide_true. Qed.

Section Accounts.

Variable NODE_ENV : option string.
Variable bcrypt_hash : string -> string -> option string.
Variable bcrypt_compare : string -> string -> option bool.
Variable jwt_sign : UserPayload -> string -> string -> string.
Variable jwt_verify_refresh : string -> Socket.Verified.
Variable JWT_SECRET : string.
Variable REFRESH_TOKEN_SECRET : string.

Local Abbreviation register := (AuthController.register bcrypt_hash).
Local Abbreviation login :=
  (AuthController.login NODE_ENV bcrypt_compare jwt_sign JWT_SECRET REFRESH_TOKEN_SECRET).
Local Abbreviation refreshTokenHandler :=
  (AuthController.refreshTokenHandler NODE_ENV jwt_sign jwt_verify_refresh JWT_SECRET).
Local Abbreviation logout := (AuthController.logout NODE_ENV).

(** The outcomes of [register]. *)
Lemma register_run salt nextval username password d :
  let r := register salt nextval username password d in
  (healthy d -> healthy r.1)
  ∧ ((tables r.1 = tables d ∧ ∃ err, r.2 = AuthController.handed [] err)
     ∨ (∃ name pw hashed stored hash,
          username = Js.Str name ∧ password = Js.Str pw
          ∧ 3 <= Js.strlen (Js.trim name) ∧ 6 <= Js.strlen pw
          ∧ bcrypt_hash salt pw = Some hashed
          ∧ Sql.varchar 255 name = Some stored
          ∧ Sql.varchar 255 hashed = Some hash
          ∧ Sql.users_by_id nextval (tables d) = []
          ∧ Sql.users_by_username name (tables d) = []
          ∧ Sql.users_by_username stored (tables d) = []
          ∧ tables r.1 = Sql.add_user (mkUser nextval stored hash (clock d)) (tables d)
          ∧ r.2 = AuthController.answered [] 201 (AuthController.userCreated nextval stored))).
Proof.
  intros r. subst r. unfold AuthController.register.
  destruct username as [| |b|n|name|repr]; try (split; [done|]; left; by eauto).
  destruct (negb _ || (Js.strlen (Js.trim name) <? 3)) eqn:Hname;
    [split; [done|]; left; by eauto|].
  destruct password as [| |b|n|pw|repr]; try (split; [done|]; left; by eauto).
  destruct (negb _ || (Js.strlen pw <? 6)) eqn:Hpw; [split; [done|]; left; by eauto|].
  apply orb_false_iff in Hname as [_ Hname]. apply Z.ltb_ge in Hname.
  apply orb_false_iff in Hpw as [_ Hpw]. apply Z.ltb_ge in Hpw.
  destruct (findUserByUsername_run name false d) as (Hu & Hh & Hr).
  destruct (UserService.findUserByUsername name false d) as [d1 [err|[existing|]]];
    simpl in *; try (split; [intros Hd; by rewrite (Hh Hd)|]; left; split; [apply Hu|by eauto]).
  destruct Hr as [[[= Hnone] _]|[[? _]|[? _]]]; [|done|done].
  assert (Sql.users_by_username name (tables d) = []) as Hfree.
  { by destruct (Sql.users_by_username name (tables d)). }
  unfold AuthController.hashPassword.
  destruct (bcrypt_hash salt pw) as [hashed|] eqn:Hhash;
    [|split; [intros Hd; by rewrite (Hh Hd)|]; left; split; [apply Hu|by eauto]].
  destruct (createUser_run nextval name hashed d1) as (Hh1 & Hc).
  destruct Hu as (Ht & _ & Hclock & _). rewrite Ht, Hclock in Hc.
  assert (healthy d -> healthy (UserService.createUser nextval name hashed d1).1) as Hh2.
  { intros Hd. apply Hh1. by rewrite (Hh Hd). }
  destruct (UserService.createUser nextval name hashed d1) as [d2 [err|newUser]]; simpl in *.
  - split; [done|]. left.
    destruct Hc as [[-> _]|(? & ? & _ & _ & _ & _ & _ & ?)]; [by eauto|done].
  - split; [done|]. right.
    destruct Hc as [(_ & ? & ? & ? & _)|(stored & hash & Hs & Hp & Hid & Hst & Htab & [= ->])];
      [done|].
    exists name, pw, hashed, stored, hash. done.
Qed.

(** X27.  What [register] stores.  When it answers, it is with a 201 and no
    cookie; the username is a string of at least 3 characters after
    trimming and the password a string of at least 6; nobody had the
    username or the id before; and the table of users has grown by one row,
    with the id that the sequence issued, the username as it was submitted,
    not trimmed (when it fits the column), and the bcrypt hash of the
    password, which is not part of the answer.  When it hands an error on,
    nothing is stored.  In either case the usernames in the table stay
    distinct when they were. *)
Theorem register_stores_an_account (salt : string) (nextval : Z)
    (username password : Js.Value) (d : Database) :
  let r := register salt nextval username password d in
  (∀ cookies status body, r.2 = AuthController.answered cookies status body ->
     cookies = [] ∧ status = 201
     ∧ ∃ name pw hashed stored hash,
         username = Js.Str name ∧ password = Js.Str pw
         ∧ 3 <= Js.strlen (Js.trim name) ∧ 6 <= Js.strlen pw
         ∧ bcrypt_hash salt pw = Some hashed
         ∧ Sql.varchar 255 name = Some stored ∧ Sql.varchar 255 hashed = Some hash
         ∧ ((String.length name <= 255)%nat -> stored = name)
         ∧ ((String.length hashed <= 255)%nat -> hash = hashed)
         ∧ body = AuthController.userCreated nextval stored
         ∧ (∀ u, u ∈ users (tables d) ->
                 u_id u ≠ nextval ∧ u_username u ≠ name ∧ u_username u ≠ stored)
         ∧ users (tables r.1) = users (tables d) ++ [mkUser nextval stored hash (clock d)])
  ∧ (∀ cookies err, r.2 = AuthController.handed cookies err ->
       cookies = [] ∧ tables r.1 = tables d)
  ∧ (NoDup (map u_username (users (tables d))) ->
     NoDup (map u_username (users (tables r.1))))
  ∧ chats (tables r.1) = chats (tables d)
  ∧ chat_participants (tables r.1) = chat_participants (tables d)
  ∧ messages (tables r.1) = messages (tables d).
Proof.
  intros r. destruct (register_run salt nextval username password d) as (_ & Hr).
  fold r in Hr.
  destruct Hr as [(Ht & err & Hr)|(name & pw & hashed & stored & hash & -> & -> & Hn & Hp
                                    & Hhash & Hs & Hhs & Hid & Hfree & Hfree' & Ht & Hr)];
    rewrite Hr, Ht.
  - split; [done|]. split; [by intros ? ? [= <- _]|]. done.
  - split; [|split; [done|split; [|done]]].
    + intros cookies status body [= <- <- <-]. do 2 (split; [done|]).
      exists name, pw, hashed, stored, hash. do 7 (split; [done|]).
      split.
      { intros Hlen. rewrite (varchar_short 255 name Hlen) in Hs. by injection Hs. }
      split.
      { intros Hlen. rewrite (varchar_short 255 hashed Hlen) in Hhs. by injection Hhs. }
      split; [done|]. split; [|done].
      intros u Hu. split; [|split].
      * intros Hx. apply (proj1 (filter_nil_iff _ _) Hid u Hu Hx).
      * intros Hx. apply (proj1 (filter_nil_iff _ _) Hfree u Hu Hx).
      * intros Hx. apply (proj1 (filter_nil_iff _ _) Hfree' u Hu Hx).
    + intros Hnd. simpl. rewrite map_app. simpl. apply NoDup_app. split; [done|]. split.
      * intros x Hx Hx'. apply list_elem_of_singleton in Hx' as ->.
        apply elem_of_map in Hx as (u & Hu & Hx).
        apply (proj1 (filter_nil_iff _ _) Hfree' u Hu). done.
      * apply NoDup_singleton.
Qed.

(** The outcomes of [login]. *)
Lemma login_run username password d :
  let r := login username password d in
  untouched d r.1
  ∧ (healthy d -> r.1 = d)
  ∧ ((∃ err, r.2 = AuthController.handed [] err)
     ∨ (∃ name pw user,
          username = Js.Str name ∧ password = Js.Str pw
          ∧ Js.trim name ≠ "" ∧ pw ≠ ""
          ∧ head (Sql.users_by_username name (tables d)) = Some user
          ∧ bcrypt_compare pw (u_password_hash user) = Some true
          ∧ r.2 = AuthController.answered
                    [AuthController.accessTokenCookie NODE_ENV
                       (jwt_sign (mkUserPayload (u_id user) (u_username user))
                                 JWT_SECRET "15m") 900000;
                     AuthController.refreshTokenCookie NODE_ENV
                       (jwt_sign (mkUserPayload (u_id user) (u_username user))
                                 REFRESH_TOKEN_SECRET "7d") 604800000]
                    200 (AuthController.loggedIn (u_id user) (u_username user)))).
Proof.
  intros r. subst r. unfold AuthController.login.
  destruct username as [| |b|n|name|repr];
    try (split; [apply untouched_refl|]; split; [done|]; left; by eauto).
  destruct (negb _ || String.eqb (Js.trim name) "") eqn:Hname;
    [split; [apply untouched_refl|]; split; [done|]; left; by eauto|].
  destruct password as [| |b|n|pw|repr];
    try (split; [apply untouched_refl|]; split; [done|]; left; by eauto).
  destruct (negb _ || String.eqb pw "") eqn:Hpw;
    [split; [apply untouched_refl|]; split; [done|]; left; by eauto|].
  apply orb_false_iff in Hname as [_ Hname]. apply String.eqb_neq in Hname.
  apply orb_false_iff in Hpw as [_ Hpw]. apply String.eqb_neq in Hpw.
  destruct (findUserByUsername_run name true d) as (Hu & Hh & Hr).
  destruct (UserService.findUserByUsername name true d) as [d1 [err|[user|]]];
    simpl in *; try (do 2 (split; [done|]); left; by eauto).
  destruct Hr as [[[= Hsome] _]|[[? _]|[? _]]]; [|done|done].
  unfold AuthController.comparePassword.
  destruct (bcrypt_compare pw (u_password_hash user)) as [[|]|] eqn:Hcmp;
    try (do 2 (split; [done|]); left; by eauto).
  do 2 (split; [done|]). right. exists name, pw, user. done.
Qed.

Lemma login_answers name pw d :
  healthy d -> Js.trim name ≠ "" -> pw ≠ "" ->
  login (Js.Str name) (Js.Str pw) d
  = (d, match head (Sql.users_by_username name (tables d)) with
        | None =>
            AuthController.handed []
              (AppError 404 ("User with username '" +:+ name +:+ "' not found."))
        | Some user =>
            match bcrypt_compare pw (u_password_hash user) with
            | None =>
                AuthController.handed []
                  (AuthController.plainError "Password comparison failed.")
            | Some false =>
                AuthController.handed []
                  (AppError 401 "Invalid credentials. Please check username and password.")
            | Some true =>
                AuthController.answered
                  [AuthController.accessTokenCookie NODE_ENV
                     (jwt_sign (mkUserPayload (u_id user) (u_username user))
                               JWT_SECRET "15m") 900000;
                   AuthController.refreshTokenCookie NODE_ENV
                     (jwt_sign (mkUserPayload (u_id user) (u_username user))
                               REFRESH_TOKEN_SECRET "7d") 604800000]
                  200 (AuthController.loggedIn (u_id user) (u_username user))
            end
        end).
Proof.
  intros Hh Hname Hpw. unfold AuthController.login.
  assert (negb (Js.truthy (Js.Str name)) || String.eqb (Js.trim name) "" = false) as ->.
  { apply orb_false_iff. split; [|by apply String.eqb_neq].
    simpl. destruct name; [done|]. done. }
  assert (negb (Js.truthy (Js.Str pw)) || String.eqb pw "" = false) as ->.
  { apply orb_false_iff. split; [|by apply String.eqb_neq]. simpl. by destruct pw. }
  unfold UserService.findUserByUsername, tryCatch.
  rewrite run_bind, query_healthy by done.
  destruct (head (Sql.users_by_username name (tables d))) as [user|] eqn:E; simpl; [|done].
  unfold AuthController.comparePassword.
  by destruct (bcrypt_compare pw (u_password_hash user)) as [[|]|].
Qed.

(** X28.  Who has registered can log in.  On a database that answers, when
    [register] has answered for a username and a hash that fit their
    columns, and bcrypt finds that the password matches the hash it has
    made of it, a [login] with the same username and password on the
    database that [register] left is answered with a 200 for the new
    account: its id and its username as submitted, an [accessToken] cookie
    for the whole site that lasts 15 minutes and a [refreshToken] cookie for
    the refresh route that lasts 7 days, both signed for that id and
    username. *)
Theorem register_then_login (salt : string) (nextval : Z) (name pw hashed : string)
    (d d' : Database) (body : AuthController.Body) :
  healthy d ->
  register salt nextval (Js.Str name) (Js.Str pw) d = (d', AuthController.answered [] 201 body) ->
  (String.length name <= 255)%nat ->
  bcrypt_hash salt pw = Some hashed -> (String.length hashed <= 255)%nat ->
  bcrypt_compare pw hashed = Some true ->
  body = AuthController.userCreated nextval name
  ∧ login (Js.Str name) (Js.Str pw) d'
    = (d', AuthController.answered
             [AuthController.accessTokenCookie NODE_ENV
                (jwt_sign (mkUserPayload nextval name) JWT_SECRET "15m") 900000;
              AuthController.refreshTokenCookie NODE_ENV
                (jwt_sign (mkUserPayload nextval name) REFRESH_TOKEN_SECRET "7d") 604800000]
             200 (AuthController.loggedIn nextval name)).
Proof.
  intros Hh Hreg Hlen Hhash Hhlen Hcmp.
  destruct (register_run salt nextval (Js.Str name) (Js.Str pw) d) as (Hh' & Hr).
  rewrite Hreg in Hh', Hr. simpl in Hh', Hr.
  destruct Hr as [(_ & ? & ?)|(name' & pw' & hashed' & stored & hash & [= <-] & [= <-] & Hn & Hp
                                & Hhash' & Hs & Hhs & _ & Hfree & _ & Ht & [= ->])]; [done|].
  rewrite Hhash in Hhash'. injection Hhash' as <-.
  rewrite (varchar_short 255 name Hlen) in Hs. injection Hs as <-.
  rewrite (varchar_short 255 hashed Hhlen) in Hhs. injection Hhs as <-.
  split; [done|].
  assert (Js.trim name ≠ "") as Hname.
  { intros E. rewrite E in Hn. simpl in Hn. unfold Js.strlen in Hn. simpl in Hn. lia. }
  assert (pw ≠ "") as Hpw.
  { intros ->. unfold Js.strlen in Hp. simpl in Hp. lia. }
  rewrite login_answers by auto.
  assert (head (Sql.users_by_username name (tables d'))
          = Some (mkUser nextval name hashed (clock d))) as ->.
  { rewrite Ht. unfold Sql.users_by_username, Sql.add_user in *. simpl.
    rewrite filter_app, Hfree. simpl. rewrite filter_cons, decide_True by done. done. }
  simpl. by rewrite Hcmp.
Qed.


(** X30.  The cookies of a session from [login] to [logout].  When [login]
    has answered, and a refresh token that was just signed is not empty and
    verifies to its payload, then the refresh token of the cookie that
    [login] has set makes [refreshTokenHandler] answer with a 200 and one
    cookie, an access token signed for the same user as the one of [login],
    and no new refresh token; and [logout] sets, for each cookie of [login],
    a cookie of the same name, path, [secure] and [sameSite] with an empty
    value and a [maxAge] of 0, which makes the browser drop it. *)
Theorem session_cookies (username password : Js.Value) (d : Database)
    (cookies : list AuthController.Cookie) (status : Z) (body : AuthController.Body) :
  (login username password d).2 = AuthController.answered cookies status body ->
  (∀ user, user ∈ users (tables d) ->
           let payload := mkUserPayload (u_id user) (u_username user) in
           jwt_sign payload REFRESH_TOKEN_SECRET "7d" ≠ ""
           ∧ jwt_verify_refresh (jwt_sign payload REFRESH_TOKEN_SECRET "7d")
             = Socket.Decoded payload) ->
  ∃ access refresh,
    cookies = [access; refresh]
    ∧ AuthController.cookie_name refresh = "refreshToken"
    ∧ refreshTokenHandler (Some (AuthController.cookie_value refresh))
      = AuthController.answered [access] 200 AuthController.tokenRefreshed
    ∧ ∃ access0 refresh0,
        logout = AuthController.answered [access0; refresh0] 200 AuthController.loggedOut
        ∧ Forall2 (fun set cleared =>
                     AuthController.cookie_name cleared = AuthController.cookie_name set
                     ∧ AuthController.path cleared = AuthController.path set
                     ∧ AuthController.secure cleared = AuthController.secure set
                     ∧ AuthController.sameSite cleared = AuthController.sameSite set
                     ∧ AuthController.cookie_value cleared = ""
                     ∧ AuthController.maxAge cleared = 0)
                  cookies [access0; refresh0].
Proof.
  intros Hlogin Hjwt.
  destruct (login_run username password d) as (_ & _ & Hr). rewrite Hlogin in Hr.
  destruct Hr as [(? & ?)|(name & pw & user & -> & -> & _ & _ & Hhead & _ & [= -> -> ->])];
    [done|].
  apply head_Some_elem_of, list_elem_of_filter in Hhead as [_ Hin].
  do 2 eexists. split; [reflexivity|]. split; [reflexivity|]. split.
  - unfold AuthController.refreshTokenHandler. simpl.
    destruct (Hjwt user Hin) as [Hne ->].
    destruct (jwt_sign _ REFRESH_TOKEN_SECRET "7d"); [done|]. reflexivity.
  - do 2 eexists. split; [reflexivity|]. repeat constructor.
Qed.

End Accounts.

Lemma register_then_login_witness :
  ∃ d',
    Sample.register "salt" 4 (Js.Str " dave") (Js.Str "secret") Sample.database
    = (d', AuthController.answered [] 201 (AuthController.userCreated 4 " dave"))
    ∧ (Sample.login (Js.Str " dave") (Js.Str "secret") d').2
      = AuthController.answered
          [AuthController.mkCookie "accessToken" " dave.jwt" true true "/" 900000 "none";
           AuthController.mkCookie "refreshToken" " dave.refresh" true true
             "/api/auth/refresh-token" 604800000 "none"]
          200 (AuthController.loggedIn 4 " dave")
    ∧ (Sample.login (Js.Str "dave") (Js.Str "secret") d').2
      = AuthController.handed [] (AppError 404 "User with username 'dave' not found.").
Proof.
  eexists. split; [vm_compute; reflexivity|].
  split; [|vm_compute; reflexivity].
  unfold Sample.login.
  match goal with
  | |- (AuthController.login _ _ _ _ _ _ _ ?d').2 = _ =>
      destruct (register_then_login (Some "production") Sample.bcrypt_hash
                  Sample.bcrypt_compare Sample.jwt_sign "jwt" "refresh"
                  "salt" 4 " dave" "secret" "$2b$10$secret" Sample.database d'
                  (AuthController.userCreated 4 " dave")) as [_ ->]
  end.
  - reflexivity.
  - vm_compute. reflexivity.
  - vm_compute. lia.
  - reflexivity.
  - vm_compute. lia.
  - vm_compute. reflexivity.
  - vm_compute. reflexivity.
Defined.

Lemma session_cookies_witness :
  ∃ access refresh,
    (Sample.login (Js.Str "alice") (Js.Str "a") Sample.database).2
    = AuthController.answered [access; refresh] 200 (AuthController.loggedIn 1 "alice")
    ∧ Sample.refreshTokenHandler (Some (AuthController.cookie_value refresh))
      = AuthController.answered [access] 200 AuthController.tokenRefreshed.
Proof.
  assert (∃ cookies, (Sample.login (Js.Str "alice") (Js.Str "a") Sample.database).2
                     = AuthController.answered cookies 200 (AuthController.loggedIn 1 "alice"))
    as [cookies Hlogin] by (eexists; vm_compute; reflexivity).
  destruct (session_cookies (Some "production") Sample.bcrypt_compare Sample.jwt_sign
              Sample.jwt_verify_refresh "jwt" "refresh"
              (Js.Str "alice") (Js.Str "a") Sample.database cookies 200
              (AuthController.loggedIn 1 "alice") Hlogin)
    as (access & refresh & -> & _ & Hrefresh & _).
  - intros user Hu. simpl in Hu.
    repeat (apply elem_of_cons in Hu as [->|Hu]; [by vm_compute|]).
    by apply not_elem_of_nil in Hu.
  - exists access, refresh. split; [exact Hlogin|exact Hrefresh].
Defined.

(** X19.  [createChat] can reject with an error of the driver.  When the
    pool cannot hand out a client, the call rejects with the error of the
    driver as it is, before its [try] begins: nothing is changed, the error
    is not operational, and in production the global handler answers it
    with the 500 of an unknown error instead of a message of the service. *)
Theorem createChat_without_client (userIds : list Z) (name : option string)
    (isGroupChat : bool) (d : Database) (f : list bool) (originalUrl stack : string) :
  faults d = true :: f ->
  String.prefix "/api" originalUrl = true ->
  ∃ err,
    ChatService.createChat userIds name isGroupChat d = (set_faults f d, inl err)
    ∧ untouched d (set_faults f d)
    ∧ isOperational err = false
    ∧ ErrorHandler.globalErrorHandler (Some "production") originalUrl
        (ErrorHandler.thrown err stack)
      = ErrorHandler.json_prod (Js.Num 500) (Js.Str "error")
          "Something went very wrong! Please try again later.".
Proof.
  intros Hf Hapi. exists (PgError "Connection terminated unexpectedly").
  split.
  - unfold ChatService.createChat, Pg.connect. by rewrite run_bind, (roundTrip_fail d f).
  - split; [done|]. split; [done|].
    unfold ErrorHandler.globalErrorHandler, ErrorHandler.sendErrorProd. simpl.
    by rewrite Hapi.
Qed.

Lemma createChat_without_client_witness :
  ∃ err,
    ChatService.createChat [1; 2] None false (set_faults [true] Sample.database)
    = (Sample.database, inl err)
    ∧ isOperational err = false.
Proof.
  destruct (createChat_without_client [1; 2] None false (set_faults [true] Sample.database)
              [] "/api/chats" "" eq_refl eq_refl) as (err & Hr & _ & Hop & _).
  exists err. split; [exact Hr|exact Hop].
Defined.
